(** * Siemply: orchestration engine, verified against its specification

  A shallow embedding of the core of [src/siemply/core]: the inventory
  ([inventory.py]), the secrets manager ([secrets.py]), the SSH executor
  ([ssh_executor.py]), the audit logger ([audit.py]), the task runner
  ([task_runner.py]) and the orchestrator ([orchestrator.py]).

  Python is dynamically typed, and several values of this code base cross
  module boundaries in a representation other than the one their consumer
  reads them with (a dataclass instance read with [.get], for example).
  The embedding therefore keeps the _shape_ of such values: a mapping
  supports [.get] and subscripting, a dataclass instance supports attribute
  access only, and the wrong access raises the exception that Python
  raises.  Collaborators that are injected through constructors are
  section variables, so that every theorem holds whichever shape a
  collaborator answers with. *)

From Stdlib Require Import ZArith Lia DecimalString.
From stdpp Require Import base option list strings gmap.

Local Open Scope string_scope.
Local Open Scope list_scope.
#[local] Set Warnings "-register-all".

(** ** Python values, exceptions and results *)
Module Py.

(** The exception classes the modelled code raises or catches.  All of
    them derive from [Exception], so [except Exception] catches each.
    [ConfigError] and [SecretsError] are the two classes that the
    specification names; the code defines neither, and no modelled function
    raises them: they are here so that statements about them can be
    written. *)
Inductive exc_kind : Type :=
| AttributeError | TypeError | ValueError | KeyError | RecursionError
| TimeoutError | NotImplementedError | OSError | NameError | OtherException
| ConfigError | SecretsError.

Record exc : Type := Exc { kind : exc_kind; msg : string }.

(** The outcome of a call: a value, or a raised exception. *)
Inductive res (A : Type) : Type :=
| Return (a : A)
| Raise (e : exc).
Arguments Return {A} a.
Arguments Raise {A} e.

Definition bind {A B} (m : res A) (k : A -> res B) : res B :=
  match m with
  | Return a => k a
  | Raise e => Raise e
  end.

(** Scalars of a YAML document or of a task argument. *)
Inductive val : Type :=
| VNone
| VBool (b : bool)
| VInt (z : Z)
| VStr (s : string).

#[global] Instance val_eq_dec : EqDecision val.
Proof. solve_decision. Defined.

(** [bool(v)]. *)
Definition truthy (v : val) : bool :=
  match v with
  | VNone => false
  | VBool b => b
  | VInt z => negb (Z.eqb z 0)
  | VStr s => negb (String.eqb s "")
  end.

(** [a == b] on scalars: [True == 1] and [False == 0] hold in Python. *)
Definition as_int (v : val) : option Z :=
  match v with
  | VBool b => Some (if b then 1%Z else 0%Z)
  | VInt z => Some z
  | _ => None
  end.

Definition py_eqb (a b : val) : bool :=
  match a, b with
  | VNone, VNone => true
  | VStr s, VStr t => String.eqb s t
  | _, _ =>
      match as_int a, as_int b with
      | Some x, Some y => Z.eqb x y
      | _, _ => false
      end
  end.

(** [str(z)] for an integer, and [s.upper()] on ASCII letters. *)
Definition str_of_Z (z : Z) : string := NilZero.string_of_int (Z.to_int z).

Definition upper_ascii (c : Ascii.ascii) : Ascii.ascii :=
  let n := Ascii.nat_of_ascii c in
  if (97 <=? n)%nat && (n <=? 122)%nat then Ascii.ascii_of_nat (n - 32) else c.

Fixpoint upper (s : string) : string :=
  match s with
  | EmptyString => EmptyString
  | String c rest => String (upper_ascii c) (upper rest)
  end.

(** [s.lower()] on ASCII letters, and [needle in s]. *)
Definition lower_ascii (c : Ascii.ascii) : Ascii.ascii :=
  let n := Ascii.nat_of_ascii c in
  if (65 <=? n)%nat && (n <=? 90)%nat then Ascii.ascii_of_nat (n + 32) else c.

Fixpoint lower (s : string) : string :=
  match s with
  | EmptyString => EmptyString
  | String c rest => String (lower_ascii c) (lower rest)
  end.

Fixpoint contains (needle s : string) : bool :=
  if String.prefix needle s then true
  else
    match s with
    | EmptyString => false
    | String _ rest => contains needle rest
    end.

(** [type(v).__name__] *)
Definition class_name (v : val) : string :=
  match v with
  | VNone => "NoneType"
  | VBool _ => "bool"
  | VInt _ => "int"
  | VStr _ => "str"
  end.

(** [d.get(k, default)] on a mapping. *)
Definition dict_get (d : gmap string val) (k : string) (default : val) : val :=
  match d !! k with
  | Some v => v
  | None => default
  end.

(** [str(v)], as an f-string formats a scalar. *)
Definition fmt (v : val) : string :=
  match v with
  | VNone => "None"
  | VBool true => "True"
  | VBool false => "False"
  | VInt z => str_of_Z z
  | VStr s => s
  end.

(** [s.replace(old, new)] for a non-empty [old]: the occurrences are
    replaced from left to right, without overlap.  [skip] counts the
    characters of a match that are still to be dropped. *)
Fixpoint replace_from (old new : string) (skip : nat) (s : string) : string :=
  match s with
  | EmptyString => EmptyString
  | String c rest =>
      match skip with
      | S k => replace_from old new k rest
      | O =>
          if String.prefix old s
          then new +:+ replace_from old new (String.length old - 1) rest
          else String c (replace_from old new 0 rest)
      end
  end.

Definition replace (old new s : string) : string := replace_from old new 0 s.

(** Effectful code: a computation reads and writes a state and returns or
    raises; the state written before an exception stays written. *)
Definition M (S A : Type) : Type := S -> res A * S.

Definition pure {S A} (a : A) : M S A := fun s => (Return a, s).

Definition raise {S A} (e : exc) : M S A := fun s => (Raise e, s).

Definition lift {S A} (r : res A) : M S A := fun s => (r, s).

Definition and_then {S A B} (m : M S A) (k : A -> M S B) : M S B :=
  fun s =>
    match m s with
    | (Return a, s') => k a s'
    | (Raise e, s') => (Raise e, s')
    end.

(** [try: m except Exception as e: handler(e)] *)
Definition try_except {S A} (m : M S A) (handler : exc -> M S A) : M S A :=
  fun s =>
    match m s with
    | (Return a, s') => (Return a, s')
    | (Raise e, s') => handler e s'
    end.

End Py.
Export Py.

Declare Scope py_scope.
Delimit Scope py_scope with py.
Notation "x <- m ;; k" := (Py.bind m (fun x => k))
  (at level 100, m at next level, right associativity) : py_scope.

Declare Scope run_scope.
Delimit Scope run_scope with run.
Notation "x <~ m ;; k" := (Py.and_then m (fun x => k))
  (at level 100, m at next level, right associativity) : run_scope.

(** ** The equality of scalars *)

(** No two of the values are equal as Python compares them: the keys
    of a [dict], the members of a [set]. *)
Fixpoint distinct (vs : list val) : Prop :=
  match vs with
  | [] => True
  | v :: rest => Forall (fun v' => py_eqb v v' = false) rest /\ distinct rest
  end.

Lemma py_eqb_refl v : py_eqb v v = true.
Proof.
  destruct v as [|b|z|s]; simpl.
  - done.
  - by destruct b.
  - apply Z.eqb_refl.
  - apply String.eqb_refl.
Qed.

Lemma py_eqb_sym a b : py_eqb a b = py_eqb b a.
Proof.
  destruct a as [|ba|x|s], b as [|bb|y|t]; cbv [py_eqb as_int];
    try reflexivity; try apply Z.eqb_sym; apply String.eqb_sym.
Qed.

Lemma py_eqb_trans a b c :
  py_eqb a b = true -> py_eqb b c = true -> py_eqb a c = true.
Proof.
  destruct a as [|[]|x|s], b as [|[]|y|t], c as [|[]|z|u]; cbv [py_eqb as_int];
    rewrite ?Z.eqb_eq, ?String.eqb_eq; try done; congruence.
Qed.

Lemma distinct_app ids1 ids2 :
  distinct (ids1 ++ ids2) <->
  distinct ids1 /\ distinct ids2 /\
  Forall (fun a => Forall (fun b => py_eqb a b = false) ids2) ids1.
Proof.
  induction ids1 as [|a ids1 IH]; simpl.
  - split; [by intros ?|by intros (_ & ? & _)].
  - rewrite Forall_app, Forall_cons, IH. tauto.
Qed.

Lemma distinct_take n ids : distinct ids -> distinct (take n ids).
Proof.
  intros Hd. rewrite <- (take_drop n ids) in Hd. by apply distinct_app in Hd as (? & _).
Qed.

(** ** inventory.py *)
Module Inventory.

(** [class Host]: the connection fields; the classification fields that no
    modelled function reads are left out. *)
Record Host : Type := mkHost {
  name : string;
  ansible_host : val;
  ansible_user : val;
  ansible_port : val;
  splunk_type : val;
  os_family : val
}.

#[global] Instance Host_eq_dec : EqDecision Host.
Proof. solve_decision. Defined.

(** [class Group]: a name, the direct hosts and the child [Group] objects. *)
Inductive Group : Type :=
| mkGroup (gname : string) (ghosts : list Host) (gchildren : list Group).

Definition gname (g : Group) : string := match g with mkGroup n _ _ => n end.
Definition ghosts (g : Group) : list Host := match g with mkGroup _ h _ => h end.
Definition gchildren (g : Group) : list Group := match g with mkGroup _ _ c => c end.

(** The state of an [Inventory] object: [self.hosts] and [self.groups]. *)
Record t : Type := mkInventory {
  hosts : gmap string Host;
  groups : gmap string Group
}.

Definition empty : t := mkInventory ∅ ∅.

(** The parsed YAML document: a group node holds a [hosts] mapping and a
    [children] mapping, both in document order. *)
Inductive GroupData : Type :=
| GD (hosts_data : list (string * gmap string val))
     (children_data : list (string * GroupData)).

(** [_parse_host] *)
Definition _parse_host (host_name : string) (host_data : gmap string val) : Host :=
  {| name := host_name;
     ansible_host := dict_get host_data "ansible_host" (VStr host_name);
     ansible_user := dict_get host_data "ansible_user" (VStr "root");
     ansible_port := dict_get host_data "ansible_port" (VInt 22%Z);
     splunk_type := dict_get host_data "splunk_type" VNone;
     os_family := dict_get host_data "os_family" VNone |}.

(** The first loop of [_parse_group]: every host is appended to
    [group.hosts] and stored in [self.hosts] under its name. *)
Fixpoint parse_hosts (hosts_data : list (string * gmap string val))
    (acc : list Host) (hs : gmap string Host) : list Host * gmap string Host :=
  match hosts_data with
  | [] => (acc, hs)
  | (host_name, host_data) :: rest =>
      let host := _parse_host host_name host_data in
      parse_hosts rest (acc ++ [host]) (<[host_name := host]> hs)
  end.

(** The second loop of [_parse_group], over the recursive call [recur]:
    every child is parsed, appended to [group.children] and stored in
    [self.groups] under its name. *)
Section ParseChildren.
Variable recur : string -> GroupData -> t -> Group * t.

Fixpoint parse_children (children_data : list (string * GroupData))
    (acc : list Group) (inv : t) : list Group * t :=
  match children_data with
  | [] => (acc, inv)
  | (child_name, child_data) :: rest =>
      let '(child_group, inv') := recur child_name child_data inv in
      parse_children rest (acc ++ [child_group])
        (mkInventory (hosts inv') (<[child_name := child_group]> (groups inv')))
  end.
End ParseChildren.

(** [_parse_group]: the group is built from its hosts and its recursively
    parsed children, and stored in [self.groups] under its name at the end. *)
Fixpoint _parse_group (group_name : string) (group_data : GroupData) (inv : t)
    : Group * t :=
  match group_data with
  | GD hosts_data children_data =>
      let '(group_hosts, hs) := parse_hosts hosts_data [] (hosts inv) in
      let '(group_children, inv2) :=
        parse_children _parse_group children_data []
          (mkInventory hs (groups inv)) in
      let group := mkGroup group_name group_hosts group_children in
      (group, mkInventory (hosts inv2) (<[group_name := group]> (groups inv2)))
  end.

(** [_parse_inventory], started from a fresh [Inventory]; a document
    without an [all] key parses as an empty [all] group. *)
Definition _parse_inventory (all_data : option GroupData) : t :=
  snd (_parse_group "all" (default (GD [] []) all_data) empty).

(** [get_host], [get_group] *)
Definition get_host (inv : t) (host_name : string) : option Host :=
  hosts inv !! host_name.

Definition get_group (inv : t) (group_name : string) : option Group :=
  groups inv !! group_name.

(** [add_group]: an unconditional store under the group's name. *)
Definition add_group (inv : t) (group : Group) : t * bool :=
  (mkInventory (hosts inv) (<[gname group := group]> (groups inv)), true).

Definition recursion_error : exc :=
  Exc RecursionError "maximum recursion depth exceeded".

(** The loop [for child_group in group.children: hosts.extend(...)] of
    [get_group_hosts], over the recursive call [recur]. *)
Fixpoint extend_hosts (recur : string -> res (list Host))
    (children : list Group) (hosts : list Host) : res (list Host) :=
  match children with
  | [] => Return hosts
  | child_group :: rest =>
      match recur (gname child_group) with
      | Return child_hosts => extend_hosts recur rest (hosts ++ child_hosts)
      | Raise e => Raise e
      end
  end.

(** [get_group_hosts].  The method calls itself once per child, by the
    child's _name_, with nothing that bounds the recursion; [depth] is the
    number of stack frames the interpreter still grants, and a call with
    none left raises [RecursionError].  A [Group] instance is always
    truthy, so [if not group] only catches the missing group. *)
Fixpoint get_group_hosts (depth : nat) (inv : t) (group_name : string)
    : res (list Host) :=
  match depth with
  | O => Raise recursion_error
  | S depth' =>
      match get_group inv group_name with
      | None => Return []
      | Some group =>
          extend_hosts (get_group_hosts depth' inv) (gchildren group) (ghosts group)
      end
  end.

(** *** Specification-side notions *)

(** Every listing of a host below a group, in the order of the document. *)
Fixpoint listed_hosts (g : Group) : list Host :=
  match g with
  | mkGroup _ hs cs => hs ++ flat_map listed_hosts cs
  end.

Fixpoint height (g : Group) : nat :=
  match g with
  | mkGroup _ _ cs => S (foldr (fun c m => Nat.max (height c) m) O cs)
  end.

(** An inventory is consistent when every child of a stored group is the
    group stored under the child's name. *)
Definition consistent (inv : t) : Prop :=
  forall n g, groups inv !! n = Some g ->
    Forall (fun c => groups inv !! gname c = Some c) (gchildren g).

(** The child edges that [get_group_hosts] follows: from a group name to
    the name of a child of the group stored under it. *)
Definition child_edge (inv : t) (a b : string) : Prop :=
  exists g c, groups inv !! a = Some g /\ c ∈ gchildren g /\ gname c = b.

(** The names of the groups of a document, the root's first. *)
Fixpoint group_names (group_name : string) (group_data : GroupData) : list string :=
  match group_data with
  | GD _ children_data =>
      group_name :: flat_map (fun '(cn, cd) => group_names cn cd) children_data
  end.

(** The names [names] are not yet in use as group names. *)
Definition fresh (names : list string) (inv : t) : Prop :=
  forall k, k ∈ names -> groups inv !! k = None.

(** How often a host name occurs in a list of hosts, and how often it is
    listed below a group. *)
Definition occurrences (host_name : string) (l : list Host) : nat :=
  length (filter (fun h => name h = host_name) l).

Fixpoint listings (host_name : string) (g : Group) : nat :=
  match g with
  | mkGroup _ hs cs =>
      occurrences host_name hs + foldr (fun c k => listings host_name c + k) O cs
  end.

(** [group_name] reaches a cyclic child reference. *)
Definition reaches_cycle (inv : t) (group_name : string) : Prop :=
  exists c, rtc (child_edge inv) group_name c /\ tc (child_edge inv) c c.

(** *** Two inventory documents *)

(** [web-01] is listed under two child groups of [prod]. *)
Definition fleet_doc : GroupData :=
  GD [] [
    ("prod",
     GD [] [
       ("web", GD [("web-01", {["ansible_host" := VStr "10.0.0.1"]});
                   ("web-02", {["ansible_host" := VStr "10.0.0.2"]})] []);
       ("canary", GD [("web-01", {["ansible_host" := VStr "10.0.0.1"]})] [])
     ])
  ].

Definition fleet : t := _parse_inventory (Some fleet_doc).

(** The group [web] has a child group that is named [web] again. *)
Definition cyclic_doc : GroupData :=
  GD [] [
    ("web", GD [("web-01", {["ansible_host" := VStr "10.0.0.1"]})]
               [("web", GD [] [])])
  ].

Definition cyclic : t := _parse_inventory (Some cyclic_doc).

(** *** The hosts of a document, and the hosts of an inventory object *)

(** The hosts that a document lists in a group and below it, as
    [_parse_host] reads them, in the order of the document. *)
Fixpoint doc_hosts (group_data : GroupData) : list Host :=
  match group_data with
  | GD hosts_data children_data =>
      ((fun '(host_name, host_data) => _parse_host host_name host_data) <$> hosts_data)
      ++ flat_map (fun '(_, child_data) => doc_hosts child_data) children_data
  end.

(** [self.hosts[host.name] = host] *)
Definition store_host (hs : gmap string Host) (host : Host) : gmap string Host :=
  <[name host := host]> hs.

(** An [Inventory] object with its list [self.all_hosts], which [add_host]
    and [remove_host] keep beside [self.hosts]. *)
Record registry : Type := mkRegistry {
  inventory : t;
  all_hosts : list Host
}.

(** [add_host] *)
Definition add_host (r : registry) (host : Host) : registry * bool :=
  (mkRegistry
     (mkInventory (store_host (hosts (inventory r)) host) (groups (inventory r)))
     (all_hosts r ++ [host]),
   true).

(** [l.remove(x)]: the first element equal to [x] is removed; [None] stands
    for the [ValueError] of a list without one.  Two [Host] instances are
    equal when their fields are. *)
Fixpoint list_remove (x : Host) (l : list Host) : option (list Host) :=
  match l with
  | [] => None
  | y :: rest =>
      if decide (y = x) then Some rest else (y ::.) <$> list_remove x rest
  end.

(** [remove_host]: the entry of [self.hosts] is deleted before the host is
    removed from [self.all_hosts]; the [ValueError] of the latter is caught
    and answered with [False]. *)
Definition remove_host (r : registry) (host_name : string) : registry * bool :=
  match hosts (inventory r) !! host_name with
  | Some host =>
      let inv :=
        mkInventory (delete host_name (hosts (inventory r))) (groups (inventory r)) in
      match list_remove host (all_hosts r) with
      | Some rest => (mkRegistry inv rest, true)
      | None => (mkRegistry inv (all_hosts r), false)
      end
  | None => (r, false)
  end.

(** [get_all_hosts] *)
Definition get_all_hosts (r : registry) : list Host := all_hosts r.

(** *** Facts about group resolution *)

Lemma extend_hosts_listed recur children hosts0 :
  Forall (fun c => recur (gname c) = Return (listed_hosts c)) children ->
  extend_hosts recur children hosts0 =
    Return (hosts0 ++ flat_map listed_hosts children).
Proof.
  intros Hall. revert hosts0.
  induction Hall as [|c cs Hc _ IH]; intros hosts0; simpl.
  - by rewrite app_nil_r.
  - rewrite Hc, IH. by rewrite <- app_assoc.
Qed.

Lemma height_child c g : c ∈ gchildren g -> (height c < height g)%nat.
Proof.
  destruct g as [n hs cs]; simpl. intros Hin.
  induction cs as [|c' cs IH]; [by apply elem_of_nil in Hin|].
  apply elem_of_cons in Hin as [->|Hin]; simpl; [lia|].
  specialize (IH Hin). lia.
Qed.

(** On a consistent inventory, with enough stack for the height of the
    group, resolution returns the listings below the group, in order. *)
Lemma get_group_hosts_listed inv depth :
  consistent inv ->
  forall n g, groups inv !! n = Some g -> (height g <= depth)%nat ->
  get_group_hosts depth inv n = Return (listed_hosts g).
Proof.
  intros Hc. induction depth as [|d IH]; intros n g Hn Hh.
  - destruct g; simpl in Hh; lia.
  - simpl. unfold get_group. rewrite Hn.
    rewrite (extend_hosts_listed _ _ _).
    + by destruct g.
    + specialize (Hc n g Hn). rewrite Forall_forall in Hc |- *.
      intros c Hin. apply IH; [by apply Hc|].
      pose proof (height_child c g Hin). lia.
Qed.

Lemma occurrences_app host_name l1 l2 :
  occurrences host_name (l1 ++ l2) =
    (occurrences host_name l1 + occurrences host_name l2)%nat.
Proof. unfold occurrences. by rewrite filter_app, length_app. Qed.

Lemma occurrences_listed host_name g :
  occurrences host_name (listed_hosts g) = listings host_name g.
Proof.
  revert g. fix IH 1. intros [n hs cs]. simpl.
  rewrite occurrences_app. f_equal.
  induction cs as [|c cs IHcs]; simpl; [done|].
  by rewrite occurrences_app, IH, IHcs.
Qed.

(** Every exception that group resolution raises is the interpreter's
    [RecursionError]. *)
Lemma extend_hosts_raise recur children hosts0 e :
  (forall n e', recur n = Raise e' -> e' = recursion_error) ->
  extend_hosts recur children hosts0 = Raise e -> e = recursion_error.
Proof.
  intros Hrec. revert hosts0.
  induction children as [|c cs IH]; intros hosts0; simpl; [done|].
  destruct (recur (gname c)) as [l|e'] eqn:Hc.
  - apply IH.
  - intros [= <-]. by eapply Hrec.
Qed.

Lemma get_group_hosts_raise inv depth n e :
  get_group_hosts depth inv n = Raise e -> e = recursion_error.
Proof.
  revert n e. induction depth as [|d IH]; intros n e; simpl.
  - by intros [= <-].
  - destruct (get_group inv n) as [g|]; [|done].
    apply extend_hosts_raise. intros m e'. apply IH.
Qed.

Lemma extend_hosts_cycle recur children hosts0 c :
  (forall n e', recur n = Raise e' -> e' = recursion_error) ->
  c ∈ children -> recur (gname c) = Raise recursion_error ->
  extend_hosts recur children hosts0 = Raise recursion_error.
Proof.
  intros Hrec Hin Hc. revert hosts0.
  induction children as [|c' cs IH]; intros hosts0; [by apply elem_of_nil in Hin|].
  simpl. apply elem_of_cons in Hin as [<-|Hin].
  - by rewrite Hc.
  - destruct (recur (gname c')) as [l|e'] eqn:Hc'; [by apply IH|].
    by rewrite (Hrec _ _ Hc').
Qed.

(** A group that reaches a cycle has a child that reaches it too. *)
Lemma reaches_cycle_step inv n :
  reaches_cycle inv n ->
  exists g c, groups inv !! n = Some g /\ c ∈ gchildren g /\
    reaches_cycle inv (gname c).
Proof.
  intros (c & Hreach & Hcyc).
  assert (exists m, child_edge inv n m /\ rtc (child_edge inv) m c) as (m & Hnm & Hmc).
  { destruct Hreach as [|x y z Hxy Hyz]; [|by eauto].
    inversion Hcyc as [? ? Hxx|? y ? Hxy Hyx]; subst.
    - exists x. split; [done|apply rtc_refl].
    - exists y. split; [done|by apply tc_rtc]. }
  destruct Hnm as (g & ch & Hg & Hin & <-).
  exists g, ch. repeat split; [done..|]. by exists c.
Qed.

(** *** Loading a document with distinct group names *)

Lemma GroupData_nested_ind (P : string -> GroupData -> Prop) :
  (forall n hs cs, Forall (fun '(cn, cd) => P cn cd) cs -> P n (GD hs cs)) ->
  forall n gd, P n gd.
Proof.
  intros H. fix IH 2. intros n [hs cs]. apply H.
  induction cs as [|[cn cd] cs IHcs]; constructor; [apply IH|apply IHcs].
Qed.

Lemma consistent_insert inv hs k g :
  consistent inv -> groups inv !! k = None ->
  Forall (fun c => groups inv !! gname c = Some c) (gchildren g) ->
  consistent (mkInventory hs (<[k := g]> (groups inv))).
Proof.
  intros Hc Hk Hg n g'. simpl. intros Hn.
  assert (Forall (fun c => groups inv !! gname c = Some c) (gchildren g')) as Hch.
  { destruct (decide (k = n)) as [->|Hne].
    - rewrite lookup_insert_eq in Hn. by injection Hn as <-.
    - rewrite lookup_insert_ne in Hn by done. by eapply Hc. }
  eapply Forall_impl; [exact Hch|]. simpl. intros c Hcs.
  rewrite lookup_insert_ne; [done|]. intros ->. congruence.
Qed.

Lemma consistent_same_groups inv inv' :
  groups inv' = groups inv -> consistent inv -> consistent inv'.
Proof. unfold consistent. by intros ->. Qed.

Definition parse_group_ok (n : string) (gd : GroupData) : Prop :=
  forall inv g inv',
    _parse_group n gd inv = (g, inv') ->
    consistent inv -> NoDup (group_names n gd) -> fresh (group_names n gd) inv ->
    consistent inv' /\ gname g = n /\ groups inv' !! n = Some g /\
    (forall k, k ∉ group_names n gd -> groups inv' !! k = groups inv !! k).

Lemma parse_children_ok cs :
  Forall (fun '(cn, cd) => parse_group_ok cn cd) cs ->
  forall acc inv children inv',
    parse_children _parse_group cs acc inv = (children, inv') ->
    consistent inv ->
    NoDup (flat_map (fun '(cn, cd) => group_names cn cd) cs) ->
    fresh (flat_map (fun '(cn, cd) => group_names cn cd) cs) inv ->
    Forall (fun c => groups inv !! gname c = Some c) acc ->
    consistent inv' /\
    Forall (fun c => groups inv' !! gname c = Some c) children /\
    (forall k, k ∉ flat_map (fun '(cn, cd) => group_names cn cd) cs ->
               groups inv' !! k = groups inv !! k).
Proof.
  induction 1 as [|[cn cd] cs Hhead _ IH]; intros acc inv children inv' Hrun Hc Hnd Hfr Hacc.
  - simpl in Hrun. injection Hrun as <- <-. done.
  - simpl in Hrun, Hnd, Hfr.
    destruct (_parse_group cn cd inv) as [c inv1] eqn:Hparse.
    apply NoDup_app in Hnd as (Hnd1 & Hdisj & Hnd2).
    destruct (Hhead inv c inv1 Hparse Hc Hnd1) as (Hc1 & Hname & Hcn & Hframe1).
    { intros k Hk. apply Hfr. apply elem_of_app. by left. }
    assert (<[cn := c]> (groups inv1) = groups inv1) as Hid by (by apply insert_id).
    rewrite Hid in Hrun.
    destruct (IH _ _ _ _ Hrun) as (Hc' & Hch & Hframe').
    + by apply (consistent_same_groups inv1).
    + done.
    + intros k Hk. simpl. rewrite Hframe1.
      * apply Hfr. apply elem_of_app. by right.
      * intros Hk1. by apply (Hdisj k).
    + simpl. apply Forall_app. split.
      * eapply Forall_impl; [exact Hacc|]. simpl. intros a Ha.
        rewrite Hframe1; [done|]. intros Hin.
        assert (groups inv !! gname a = None) as Hnone; [|congruence].
        apply Hfr. apply elem_of_app. by left.
      * constructor; [|done]. simpl. by rewrite Hname.
    + repeat split; [done..|]. intros k Hk. rewrite Hframe'.
      * simpl. apply Hframe1. intros Hin. apply Hk. apply elem_of_app. by left.
      * intros Hin. apply Hk. apply elem_of_app. by right.
Qed.

Lemma parse_group_spec n gd : parse_group_ok n gd.
Proof.
  revert n gd. apply GroupData_nested_ind. intros n hs cs IH inv g inv' Hrun Hc Hnd Hfr.
  simpl in Hrun, Hnd, Hfr.
  destruct (parse_hosts hs [] (hosts inv)) as [ghs hs'] eqn:Hhosts.
  destruct (parse_children _parse_group cs [] (mkInventory hs' (groups inv)))
    as [children inv2] eqn:Hchildren.
  injection Hrun as <- <-.
  apply NoDup_cons in Hnd as [Hn Hnd].
  destruct (parse_children_ok cs IH _ _ _ _ Hchildren) as (Hc2 & Hstored & Hframe).
  - by apply (consistent_same_groups inv).
  - done.
  - intros k Hk. simpl. apply Hfr. by apply elem_of_cons; right.
  - constructor.
  - assert (groups inv2 !! n = None) as Hfresh.
    { rewrite Hframe by done. simpl. apply Hfr. by apply elem_of_cons; left. }
    split; [|split; [|split]].
    + by apply consistent_insert.
    + done.
    + simpl. by rewrite lookup_insert_eq.
    + intros k Hk. simpl. apply not_elem_of_cons in Hk as [Hkn Hk].
      rewrite lookup_insert_ne by done. by rewrite Hframe.
Qed.

(** A document whose group names are pairwise distinct loads into a
    consistent inventory. *)
Lemma parse_inventory_consistent doc :
  NoDup (group_names "all" doc) -> consistent (_parse_inventory (Some doc)).
Proof.
  intros Hnd. unfold _parse_inventory. simpl.
  destruct (_parse_group "all" doc empty) as [g inv'] eqn:Hrun.
  destruct (parse_group_spec "all" doc empty g inv' Hrun) as (Hc & _); [|done| |done].
  - intros n g'. simpl. by rewrite lookup_empty.
  - intros k _. simpl. by rewrite lookup_empty.
Qed.

(** *** The claims on group resolution *)

(** C2, as stated, fails: [web-01] is listed under the child groups [web]
    and [canary] of [prod], and [get_group_hosts "prod"] returns it twice. *)
Lemma get_group_hosts_duplicates :
  exists l, get_group_hosts 1000 fleet "prod" = Return l /\
            occurrences "web-01" l = 2%nat /\ ~ NoDup (name <$> l).
Proof.
  eexists. split; [vm_compute; reflexivity|]. split; [vm_compute; reflexivity|].
  intros Hnd. apply NoDup_cons in Hnd as [Hnotin _]. apply Hnotin.
  apply elem_of_cons; right. apply elem_of_cons; by left.
Qed.

(** C2, amended: on an inventory loaded from a document with distinct group
    names, [get_group_hosts] returns (given the stack for the height of the
    group) the listings below the group, in the order of the document: the
    hosts of the group itself, followed by what the listings below each of
    its child groups are.  In this list every host name occurs as often as
    it is listed in the group and its descendants: once for a host listed
    once, and once per listing otherwise, since nothing collapses
    duplicates. *)
Theorem get_group_hosts_per_listing doc group_name g depth :
  NoDup (group_names "all" doc) ->
  groups (_parse_inventory (Some doc)) !! group_name = Some g ->
  (height g <= depth)%nat ->
  exists l, get_group_hosts depth (_parse_inventory (Some doc)) group_name = Return l /\
    l = listed_hosts g /\
    l = ghosts g ++ flat_map listed_hosts (gchildren g) /\
    (forall host_name, occurrences host_name l = listings host_name g) /\
    (forall host_name, listings host_name g = 1%nat -> occurrences host_name l = 1%nat).
Proof.
  intros Hnd Hg Hdepth. exists (listed_hosts g).
  split; [|split; [|split; [|split]]].
  - apply get_group_hosts_listed; [by apply parse_inventory_consistent|done..].
  - reflexivity.
  - by destruct g.
  - intros host_name. apply occurrences_listed.
  - intros host_name <-. apply occurrences_listed.
Qed.

Lemma get_group_hosts_per_listing_witness :
  exists g, groups fleet !! "web" = Some g /\
  exists l, get_group_hosts 5 fleet "web" = Return l /\
    l = listed_hosts g /\
    l = ghosts g ++ flat_map listed_hosts (gchildren g) /\
    (forall host_name, occurrences host_name l = listings host_name g) /\
    (forall host_name, listings host_name g = 1%nat -> occurrences host_name l = 1%nat).
Proof.
  eexists. split; [vm_compute; reflexivity|].
  apply (get_group_hosts_per_listing fleet_doc "web").
  - apply (bool_decide_unpack _). vm_compute. reflexivity.
  - vm_compute; reflexivity.
  - vm_compute. lia.
Defined.

(** C9, as stated, fails: the loaded inventory [cyclic] has a cyclic child
    reference below [web]; resolution ends with the interpreter's
    [RecursionError], and with no [ConfigError]. *)
Lemma get_group_hosts_cycle_unreported :
  reaches_cycle cyclic "web" /\
  get_group_hosts 1000 cyclic "web" = Raise (Exc RecursionError "maximum recursion depth exceeded") /\
  ~ (exists m, get_group_hosts 1000 cyclic "web" = Raise (Exc ConfigError m)).
Proof.
  assert (child_edge cyclic "web" "web") as Hedge.
  { eexists _, (mkGroup "web" [] []). split; [vm_compute; reflexivity|].
    split; [|done]. simpl. apply elem_of_cons. by left. }
  split; [|split].
  - exists "web". split; [apply rtc_refl|by apply tc_once].
  - vm_compute; reflexivity.
  - intros [m Hm]. vm_compute in Hm. discriminate.
Qed.

(** C9, amended: on every inventory, a group that reaches a cyclic child
    reference is resolved with no cycle detection: whatever stack the
    interpreter grants, the recursion uses it up and the call raises
    [RecursionError]. *)
Theorem get_group_hosts_cycle inv depth group_name :
  reaches_cycle inv group_name ->
  get_group_hosts depth inv group_name = Raise recursion_error.
Proof.
  revert group_name. induction depth as [|d IH]; intros n Hcycle; [done|].
  destruct (reaches_cycle_step inv n Hcycle) as (g & c & Hg & Hin & Hc).
  simpl. unfold get_group. rewrite Hg.
  apply (extend_hosts_cycle _ _ _ c); [|done|by apply IH].
  intros m e. apply get_group_hosts_raise.
Qed.

Lemma get_group_hosts_cycle_witness :
  reaches_cycle cyclic "web" /\
  get_group_hosts 1000 cyclic "web" = Raise recursion_error.
Proof.
  assert (reaches_cycle cyclic "web") as Hcycle.
  { exists "web". split; [apply rtc_refl|]. apply tc_once.
    eexists _, (mkGroup "web" [] []). split; [vm_compute; reflexivity|].
    split; [|done]. simpl. apply elem_of_cons. by left. }
  split; [done|]. by apply (get_group_hosts_cycle cyclic 1000 "web").
Defined.

(** *** Further facts: a document and the inventory loaded from it *)

Lemma parse_hosts_spec hosts_data acc hs :
  parse_hosts hosts_data acc hs =
    (acc ++ ((fun '(host_name, host_data) => _parse_host host_name host_data)
               <$> hosts_data),
     foldl store_host hs
       ((fun '(host_name, host_data) => _parse_host host_name host_data) <$> hosts_data)).
Proof.
  revert acc hs. induction hosts_data as [|[host_name host_data] rest IH];
    intros acc hs; simpl.
  - by rewrite app_nil_r.
  - rewrite IH. by rewrite <- app_assoc.
Qed.

Definition parse_group_hosts_ok (n : string) (gd : GroupData) : Prop :=
  forall inv,
    listed_hosts (_parse_group n gd inv).1 = doc_hosts gd /\
    hosts (_parse_group n gd inv).2 = foldl store_host (hosts inv) (doc_hosts gd).

Lemma parse_children_hosts cs :
  Forall (fun '(cn, cd) => parse_group_hosts_ok cn cd) cs ->
  forall acc inv,
    flat_map listed_hosts (parse_children _parse_group cs acc inv).1 =
      flat_map listed_hosts acc ++ flat_map (fun '(_, cd) => doc_hosts cd) cs /\
    hosts (parse_children _parse_group cs acc inv).2 =
      foldl store_host (hosts inv) (flat_map (fun '(_, cd) => doc_hosts cd) cs).
Proof.
  induction 1 as [|[cn cd] cs Hhead _ IH]; intros acc inv; simpl.
  - by rewrite app_nil_r.
  - destruct (Hhead inv) as [Hlisted Hhosts].
    destruct (_parse_group cn cd inv) as [c inv1]. simpl in *.
    destruct (IH (acc ++ [c])
                (mkInventory (hosts inv1) (<[cn := c]> (groups inv1)))) as [-> ->].
    simpl. rewrite flat_map_app. simpl. rewrite app_nil_r, Hlisted, Hhosts.
    by rewrite <- app_assoc, foldl_app.
Qed.

Lemma parse_group_hosts n gd : parse_group_hosts_ok n gd.
Proof.
  revert n gd. apply GroupData_nested_ind. intros n hs cs IH inv. simpl.
  rewrite parse_hosts_spec. simpl.
  destruct (parse_children_hosts cs IH []
              (mkInventory
                 (foldl store_host (hosts inv)
                    ((fun '(host_name, host_data) => _parse_host host_name host_data)
                       <$> hs))
                 (groups inv))) as [Hlisted Hhosts].
  destruct (parse_children _parse_group cs [] _) as [children inv2]. simpl in *.
  rewrite Hlisted, Hhosts. by rewrite foldl_app.
Qed.

Lemma last_filter_cons (P : Host -> Prop) `{!forall h, Decision (P h)} h l :
  last (filter P (h :: l)) =
    match last (filter P l) with
    | Some h' => Some h'
    | None => if decide (P h) then Some h else None
    end.
Proof.
  rewrite filter_cons. destruct (decide (P h)); [|by destruct (last (filter P l))].
  destruct (filter P l) as [|h' l'] eqn:Hl; [done|].
  change (last (h :: h' :: l')) with (last (h' :: l')).
  destruct (last (h' :: l')) eqn:Hlast; [done|].
  by apply last_None in Hlast.
Qed.

Lemma foldl_store_host_lookup l hs n :
  foldl store_host hs l !! n =
    match last (filter (fun h => name h = n) l) with
    | Some h => Some h
    | None => hs !! n
    end.
Proof.
  revert hs. induction l as [|h rest IH]; intros hs; [done|].
  simpl. rewrite IH, last_filter_cons.
  destruct (last (filter (fun h' => name h' = n) rest)); [done|].
  unfold store_host. destruct (decide (name h = n)) as [<-|Hne].
  - by rewrite lookup_insert_eq.
  - by rewrite lookup_insert_ne.
Qed.

(** X15: after a document is loaded, [get_host] answers for a name with
    the last of the entries that the document lists under that name, in the
    order of the document ([None] when it lists none): a host listed in
    several groups is stored once, as its last entry reads. *)
Theorem get_host_last_listing all_data host_name :
  get_host (_parse_inventory all_data) host_name =
    last (filter (fun h => name h = host_name)
            (doc_hosts (default (GD [] []) all_data))).
Proof.
  unfold get_host, _parse_inventory.
  destruct (parse_group_hosts "all" (default (GD [] []) all_data) empty) as [_ ->].
  rewrite foldl_store_host_lookup. simpl.
  destruct (last _); [done|apply lookup_empty].
Qed.

(** X16: on an inventory loaded from a document with distinct group names,
    [get_group_hosts] for the root group [all] returns, given the stack for
    the height of the group, every host entry of the document as
    [_parse_host] reads it, once per entry and in the order of the
    document. *)
Theorem get_group_hosts_all doc :
  NoDup (group_names "all" doc) ->
  exists g, groups (_parse_inventory (Some doc)) !! "all" = Some g /\
    forall depth, (height g <= depth)%nat ->
      get_group_hosts depth (_parse_inventory (Some doc)) "all"
        = Return (doc_hosts doc).
Proof.
  intros Hnd. pose proof (parse_inventory_consistent doc Hnd) as Hc.
  unfold _parse_inventory in *. simpl in *.
  destruct (parse_group_hosts "all" doc empty) as [Hlisted _].
  destruct (_parse_group "all" doc empty) as [g inv'] eqn:Hrun. simpl in *.
  destruct (parse_group_spec "all" doc empty g inv' Hrun) as (_ & _ & Hall & _);
    [| done | |].
  - intros n g'. simpl. by rewrite lookup_empty.
  - intros k _. simpl. by rewrite lookup_empty.
  - exists g. split; [done|]. intros depth Hdepth.
    rewrite <- Hlisted. by apply get_group_hosts_listed.
Qed.

(** *** Further facts: adding and removing hosts *)

Lemma list_remove_last h l :
  Forall (fun h' => name h' <> name h) l -> list_remove h (l ++ [h]) = Some l.
Proof.
  induction 1 as [|y rest Hy _ IH]; simpl.
  - by rewrite decide_True.
  - rewrite decide_False by (by intros ->). by rewrite IH.
Qed.

(** X17: adding a host under a name that the inventory does not know, and
    removing it again by its name, gives back the inventory as it was:
    [remove_host] answers [True], and [self.hosts] and [self.all_hosts] are
    what they were before. *)
Theorem add_then_remove_host r h :
  hosts (inventory r) !! name h = None ->
  Forall (fun h' => name h' <> name h) (all_hosts r) ->
  remove_host (add_host r h).1 (name h) = (r, true).
Proof.
  intros Hfresh Hnames. unfold remove_host, add_host, store_host. simpl.
  rewrite lookup_insert_eq, (list_remove_last _ _ Hnames).
  rewrite delete_insert_id by done. by destruct r as [[hs gs] l].
Qed.

Lemma list_remove_stale x a l :
  exists l', list_remove x (l ++ [a; x]) = Some l' /\ (a ∈ l' \/ x ∈ l').
Proof.
  induction l as [|y rest (l' & IH & Hin)]; simpl.
  - destruct (decide (a = x)) as [->|Hne].
    + exists [x]. split; [done|]. right. apply list_elem_of_here.
    + rewrite decide_True by done. exists [a]. split; [done|]. left.
      apply list_elem_of_here.
  - destruct (decide (y = x)) as [->|Hne].
    + eexists. split; [done|]. left. apply elem_of_app. right. apply list_elem_of_here.
    + rewrite IH. exists (y :: l'). split; [done|].
      destruct Hin; [left|right]; by apply list_elem_of_further.
Qed.

(** X18: [add_host] appends to [self.all_hosts] also when the name is
    known already.  After a host was added twice under one name,
    [remove_host] answers [True] and [get_host] no longer finds the name,
    but [get_all_hosts] still lists a host of that name. *)
Theorem add_host_twice_leaves_stale_entry r h1 h2 :
  name h2 = name h1 ->
  let added := (add_host (add_host r h1).1 h2).1 in
  let removed := remove_host added (name h1) in
  removed.2 = true /\
  get_host (inventory removed.1) (name h1) = None /\
  exists h, h ∈ get_all_hosts removed.1 /\ name h = name h1.
Proof.
  intros Hname. unfold remove_host, add_host, store_host, get_host, get_all_hosts.
  simpl. rewrite Hname, lookup_insert_eq, <- app_assoc. simpl.
  destruct (list_remove_stale h2 h1 (all_hosts r)) as (l' & -> & Hin). simpl.
  split; [done|]. split; [apply lookup_delete_eq|].
  destruct Hin as [Hin|Hin]; eauto.
Qed.

(** *** The further facts on the examples *)

(** A host that the document [fleet_doc] does not list, and the same name
    at another address. *)
Definition db_01 : Host := _parse_host "db-01" {[ "ansible_host" := VStr "10.0.0.7" ]}.

Definition db_01_moved : Host :=
  _parse_host "db-01" {[ "ansible_host" := VStr "10.0.0.8" ]}.

(** The inventory object after [fleet_doc] was loaded. *)
Definition fleet_registry : registry :=
  mkRegistry fleet [_parse_host "web-01" {[ "ansible_host" := VStr "10.0.0.1" ]};
                    _parse_host "web-02" {[ "ansible_host" := VStr "10.0.0.2" ]}].

Lemma get_group_hosts_all_witness :
  exists g, groups fleet !! "all" = Some g /\
    forall depth, (height g <= depth)%nat ->
      get_group_hosts depth fleet "all" = Return (doc_hosts fleet_doc).
Proof.
  apply (get_group_hosts_all fleet_doc).
  apply (bool_decide_unpack _). vm_compute. reflexivity.
Defined.

Lemma add_then_remove_host_witness :
  remove_host (add_host fleet_registry db_01).1 "db-01" = (fleet_registry, true).
Proof.
  apply (add_then_remove_host fleet_registry db_01).
  - vm_compute. reflexivity.
  - apply (bool_decide_unpack _). vm_compute. reflexivity.
Defined.

Lemma add_host_twice_leaves_stale_entry_witness :
  (remove_host (add_host (add_host fleet_registry db_01).1 db_01_moved).1 "db-01").2
    = true /\
  get_host
    (inventory
       (remove_host (add_host (add_host fleet_registry db_01).1 db_01_moved).1
          "db-01").1) "db-01" = None /\
  exists h,
    h ∈ get_all_hosts
          (remove_host (add_host (add_host fleet_registry db_01).1 db_01_moved).1
             "db-01").1 /\
    name h = "db-01".
Proof.
  apply (add_host_twice_leaves_stale_entry fleet_registry db_01 db_01_moved).
  reflexivity.
Defined.

End Inventory.

(** ** The values that cross the modules of the engine *)
Module Run.

(** A host as the orchestrator and the task runner receive it.  Both are
    annotated with [Dict[str, Any]] and read the host with [.get]; the
    inventory hands out [Host] instances, which have no [.get]. *)
Inductive host : Type :=
| HostMapping (fields : gmap string val)
| HostInstance (h : Inventory.Host).

#[global] Instance host_eq_dec : EqDecision host.
Proof. solve_decision. Defined.

Definition no_attribute (class attribute : string) : exc :=
  Exc AttributeError
    ("'" +:+ class +:+ "' object has no attribute '" +:+ attribute +:+ "'").

(** [host.get(key, default)] *)
Definition host_get (h : host) (key : string) (default : val) : res val :=
  match h with
  | HostMapping fields => Return (dict_get fields key default)
  | HostInstance _ => Raise (no_attribute "Host" "get")
  end.

(** [class RunConfig] of orchestrator.py; [None] for [limit], [tags] and
    [skip_tags] is their default. *)
Record RunConfig : Type := mkRunConfig {
  playbook : string;
  target_hosts : list string;
  target_groups : list string;
  limit : option Z;
  forks : Z;
  batch_size : Z;
  batch_delay : Z;
  tags : option (list string);
  skip_tags : option (list string)
}.

(** One entry of a playbook's [tasks] list, by the keys the engine reads.
    [ignore_errors] is declared by the playbook schema; no function of
    [siemply.core] reads it. *)
Record task_config : Type := mkTask {
  task_name : option string;
  task_type : option string;
  task_args : gmap string val;
  task_when : option val;
  task_only_if : option val;
  task_tags : list string;
  ignore_errors : bool
}.

(** [class TaskResult] of task_runner.py; the clock readings and the facts
    are left out. *)
Record TaskResult : Type := mkTaskResult {
  name : string;
  status : val;
  output : val;
  error : val;
  changed : val
}.

End Run.
Export Run.

(** ** secrets.py *)
Module Secrets.

(** What [client.secrets.kv.v2.read_secret_version] answers: a falsy
    response, a response without a [data] key, or a response with one,
    whose [data] entry may hold the inner [data] mapping that is read with
    [.get('value')]. *)
Inductive response : Type :=
| RespEmpty
| RespNoData
| RespData (inner : option (gmap string val)).

(** The remote store as [VaultSecretsBackend] sees it: [_get_client] raises
    (library missing, authentication refused, store unreachable), or it
    yields a client whose reads answer or raise. *)
Inductive vault_server : Type :=
| VaultDown (e : exc)
| VaultUp (read_secret_version : string -> res response).

(** What the backends read: the process environment, the decrypted content
    of the secrets file, and the remote store. *)
Record world : Type := mkWorld {
  environ : gmap string string;
  secrets_file : gmap string string;
  vault : vault_server
}.

(** The three [SecretsBackend] classes of the module, and any further
    subclass by its [get_secret] method. *)
Inductive SecretsBackend : Type :=
| EnvironmentSecretsBackend (prefix : string)
| FileSecretsBackend
| VaultSecretsBackend (vault_path : string)
| OtherBackend (get_secret : string -> res val).

Definition of_option (o : option string) : val :=
  match o with
  | Some s => VStr s
  | None => VNone
  end.

(** [EnvironmentSecretsBackend.get_secret] *)
Definition env_get_secret (prefix : string) (w : world) (key : string) : res val :=
  let env_key := prefix +:+ upper key in
  Return (of_option (environ w !! env_key)).

(** [FileSecretsBackend.get_secret], after [_load_secrets]. *)
Definition file_get_secret (w : world) (key : string) : res val :=
  Return (of_option (secrets_file w !! key)).

(** [VaultSecretsBackend.get_secret]: every exception of the client or of
    the read is caught, logged, and answered with [None]. *)
Definition vault_get_secret (vault_path : string) (w : world) (key : string) : res val :=
  let body : res val :=
    match vault w with
    | VaultDown e => Raise e
    | VaultUp read_secret_version =>
        let secret_path := vault_path +:+ "/" +:+ key in
        match read_secret_version secret_path with
        | Raise e => Raise e
        | Return (RespData (Some inner)) => Return (dict_get inner "value" VNone)
        | Return (RespData None) => Raise (Exc KeyError "'data'")
        | Return _ => Return VNone
        end
    end in
  match body with
  | Return v => Return v
  | Raise _ => Return VNone
  end.

Definition backend_get_secret (b : SecretsBackend) (w : world) (key : string) : res val :=
  match b with
  | EnvironmentSecretsBackend prefix => env_get_secret prefix w key
  | FileSecretsBackend => file_get_secret w key
  | VaultSecretsBackend vault_path => vault_get_secret vault_path w key
  | OtherBackend get_secret => get_secret key
  end.

(** [class SecretsManager]: [self.backends] (the entry [vault] is [None]
    until it is configured) and [self.default_backend]. *)
Record manager : Type := mkManager {
  backends : gmap string (option SecretsBackend);
  default_backend : string
}.

(** [backend or self.default_backend] *)
Definition backend_name_of (m : manager) (backend : option string) : string :=
  match backend with
  | Some b => if String.eqb b "" then default_backend m else b
  | None => default_backend m
  end.

(** [SecretsManager.get_secret] *)
Definition get_secret (m : manager) (w : world) (key : string)
    (backend : option string) : res val :=
  let backend_name := backend_name_of m backend in
  match backends m !! backend_name with
  | None => Return VNone
  | Some None => Return VNone
  | Some (Some backend_instance) =>
      match backend_get_secret backend_instance w key with
      | Return v => Return v
      | Raise _ => Return VNone
      end
  end.

(** The backend instance a call is routed to. *)
Definition selected (m : manager) (backend : option string) : option SecretsBackend :=
  match backends m !! backend_name_of m backend with
  | Some (Some b) => Some b
  | _ => None
  end.

(** The backend fails on this key: its store cannot be reached, or its
    read raises. *)
Definition backend_fails (b : SecretsBackend) (w : world) (key : string) : Prop :=
  match b with
  | EnvironmentSecretsBackend _ => False
  | FileSecretsBackend => False
  | VaultSecretsBackend vault_path =>
      match vault w with
      | VaultDown _ => True
      | VaultUp read => exists e, read (vault_path +:+ "/" +:+ key) = Raise e
      end
  | OtherBackend get => exists e, get key = Raise e
  end.

(** A manager as [__init__] and [_load_config] build it when the remote
    store is enabled, and two states of the world: the store down, and the
    store up without the secret. *)
Definition configured : manager :=
  mkManager
    {[ "env" := Some (EnvironmentSecretsBackend "SIEMPLY_");
       "file" := Some FileSecretsBackend;
       "vault" := Some (VaultSecretsBackend "secret/siemply") ]}
    "env".

Definition store_down : world :=
  mkWorld ∅ ∅ (VaultDown (Exc OtherException "Vault authentication failed")).

Definition store_up_without_secret : world :=
  mkWorld ∅ ∅ (VaultUp (fun _ => Return RespEmpty)).

(** *** Writing to the environment *)

(** The character that ends a C string. *)
Definition nul : string := String (Ascii.ascii_of_nat 0) EmptyString.

(** [os.environ[env_key] = value], as CPython on POSIX refuses it: a name
    or a value with an embedded null byte, an empty name, a name with an
    equals sign. *)
Definition putenv_error (env_key value : string) : option exc :=
  if contains nul env_key || contains nul value
  then Some (Exc ValueError "embedded null byte")
  else if String.eqb env_key "" || contains "=" env_key
  then Some (Exc ValueError "illegal environment variable name")
  else None.

(** [key.isascii()].  On such a key [upper] is [str.upper], which maps
    characters beyond ASCII as well. *)
Fixpoint isascii (s : string) : bool :=
  match s with
  | EmptyString => true
  | String c rest => (Ascii.nat_of_ascii c <? 128)%nat && isascii rest
  end.

(** [EnvironmentSecretsBackend.set_secret] *)
Definition env_set_secret (prefix key value : string) : M world bool :=
  fun w =>
    let env_key := prefix +:+ upper key in
    match putenv_error env_key value with
    | Some e => (Raise e, w)
    | None =>
        (Return true,
         mkWorld (<[env_key := value]> (environ w)) (secrets_file w) (vault w))
    end.

(** [EnvironmentSecretsBackend.delete_secret] *)
Definition env_delete_secret (prefix key : string) : M world bool :=
  fun w =>
    let env_key := prefix +:+ upper key in
    match environ w !! env_key with
    | Some _ =>
        (Return true, mkWorld (delete env_key (environ w)) (secrets_file w) (vault w))
    | None => (Return false, w)
    end.

(** *** The claim on backend failures *)

(** [get_secret] never raises. *)
Lemma get_secret_returns m w key backend :
  exists v, get_secret m w key backend = Return v.
Proof.
  unfold get_secret.
  destruct (backends m !! backend_name_of m backend) as [[b|]|]; eauto.
  destruct (backend_get_secret b w key); eauto.
Qed.

(** C7, as stated, fails: with the remote store down, [get_secret] raises no
    [SecretsError] and returns [None], which is also its answer when the
    store is up and the secret missing. *)
Lemma get_secret_store_down_is_none :
  backend_fails (VaultSecretsBackend "secret/siemply") store_down "db_password" /\
  get_secret configured store_down "db_password" (Some "vault") = Return VNone /\
  get_secret configured store_up_without_secret "db_password" (Some "vault") = Return VNone /\
  ~ (exists m, get_secret configured store_down "db_password" (Some "vault")
               = Raise (Exc SecretsError m)).
Proof.
  split; [exact I|]. split; [vm_compute; reflexivity|].
  split; [vm_compute; reflexivity|].
  intros [m Hm]. vm_compute in Hm. discriminate Hm.
Qed.

(** C7, amended: a backend failure does not crash the caller of
    [get_secret]; it is caught (inside the remote-store backend, or by the
    manager) and surfaces as the return value [None], the value that a
    missing secret yields as well. *)
Theorem get_secret_backend_failure m w key backend b :
  selected m backend = Some b ->
  backend_fails b w key ->
  get_secret m w key backend = Return VNone.
Proof.
  unfold selected, get_secret. intros Hsel Hfail.
  destruct (backends m !! backend_name_of m backend) as [[b'|]|]; try discriminate.
  injection Hsel as ->.
  destruct b as [prefix| |vault_path|get]; simpl in *; try contradiction.
  - unfold vault_get_secret. destruct (vault w) as [e|read]; [done|].
    destruct Hfail as [e ->]. done.
  - destruct Hfail as [e ->]. done.
Qed.

Lemma get_secret_backend_failure_witness :
  get_secret configured store_down "db_password" (Some "vault") = Return VNone.
Proof.
  apply (get_secret_backend_failure configured store_down "db_password"
           (Some "vault") (VaultSecretsBackend "secret/siemply")).
  - vm_compute; reflexivity.
  - exact I.
Defined.

(** *** Further facts: secrets in the environment *)

Lemma append_inj_l prefix a b : prefix +:+ a = prefix +:+ b -> a = b.
Proof.
  induction prefix as [|c prefix IH]; simpl; [done|]. intros [= H]. by apply IH.
Qed.

(** X19: among the keys of ASCII characters, a secret that [set_secret] of
    the environment backend stored is what [get_secret] returns afterwards,
    under the key it was stored with and under every key that differs from
    it in case only; the keys that differ otherwise read as before, and
    nothing but the environment changes. *)
Theorem env_set_then_get prefix key value w :
  isascii key = true ->
  putenv_error (prefix +:+ upper key) value = None ->
  exists w',
    env_set_secret prefix key value w = (Return true, w') /\
    secrets_file w' = secrets_file w /\ vault w' = vault w /\
    (forall key', isascii key' = true -> upper key' = upper key ->
       env_get_secret prefix w' key' = Return (VStr value)) /\
    (forall key', isascii key' = true -> upper key' <> upper key ->
       env_get_secret prefix w' key' = env_get_secret prefix w key').
Proof.
  intros _ Hlegal. unfold env_set_secret. rewrite Hlegal. eexists. split; [done|].
  split; [done|]. split; [done|]. unfold env_get_secret. simpl. split.
  - intros key' _ ->. by rewrite lookup_insert_eq.
  - intros key' _ Hne. rewrite lookup_insert_ne; [done|].
    intros Heq. apply Hne. symmetry. by eapply append_inj_l.
Qed.

(** X20: among the keys of ASCII characters, [delete_secret] of the
    environment backend answers [True] exactly when the variable of the key
    was set; afterwards [get_secret] returns [None] for the key, and the
    keys that differ from it otherwise than in case read as before. *)
Theorem env_delete_then_get prefix key w :
  isascii key = true ->
  exists deleted w',
    env_delete_secret prefix key w = (Return deleted, w') /\
    (deleted = true <-> env_get_secret prefix w key <> Return VNone) /\
    env_get_secret prefix w' key = Return VNone /\
    (forall key', isascii key' = true -> upper key' <> upper key ->
       env_get_secret prefix w' key' = env_get_secret prefix w key').
Proof.
  intros _. unfold env_delete_secret, env_get_secret.
  destruct (environ w !! (prefix +:+ upper key)) as [v|] eqn:Hset.
  - eexists true, _. split; [done|]. simpl. split; [done|]. split.
    + by rewrite lookup_delete_eq.
    + intros key' _ Hne. rewrite lookup_delete_ne; [done|].
      intros Heq. apply Hne. symmetry. by eapply append_inj_l.
  - exists false, w. rewrite Hset. simpl. split; [done|]. split; [|done].
    split; [done|]. by intros [].
Qed.

(** A secret stored as [Db_Password] is read as [db_password]. *)
Lemma env_set_then_get_witness :
  exists w',
    env_set_secret "SIEMPLY_" "Db_Password" "s3cret" store_down = (Return true, w') /\
    secrets_file w' = secrets_file store_down /\ vault w' = vault store_down /\
    (forall key', isascii key' = true -> upper key' = upper "Db_Password" ->
       env_get_secret "SIEMPLY_" w' key' = Return (VStr "s3cret")) /\
    (forall key', isascii key' = true -> upper key' <> upper "Db_Password" ->
       env_get_secret "SIEMPLY_" w' key' = env_get_secret "SIEMPLY_" store_down key').
Proof.
  apply (env_set_then_get "SIEMPLY_" "Db_Password" "s3cret" store_down).
  - vm_compute. reflexivity.
  - vm_compute. reflexivity.
Defined.

(** An environment that holds the secret [db_password]. *)
Definition db_password_set : world :=
  mkWorld {[ "SIEMPLY_DB_PASSWORD" := "s3cret" ]} ∅
    (VaultDown (Exc OtherException "Vault authentication failed")).

Lemma env_delete_then_get_witness :
  exists deleted w',
    env_delete_secret "SIEMPLY_" "db_password" db_password_set = (Return deleted, w') /\
    (deleted = true <->
     env_get_secret "SIEMPLY_" db_password_set "db_password" <> Return VNone) /\
    env_get_secret "SIEMPLY_" w' "db_password" = Return VNone /\
    (forall key', isascii key' = true -> upper key' <> upper "db_password" ->
       env_get_secret "SIEMPLY_" w' key' =
       env_get_secret "SIEMPLY_" db_password_set key').
Proof.
  apply (env_delete_then_get "SIEMPLY_" "db_password" db_password_set).
  vm_compute. reflexivity.
Defined.

End Secrets.

(** ** ssh_executor.py *)
Module SSH.

(** [class SSHResult]; the measured duration is left out. *)
Record SSHResult : Type := mkSSHResult {
  exit_code : Z;
  stdout : string;
  stderr : string
}.

(** What [connection.run(command, timeout=timeout)] does: the command
    exits; or the deadline passes and the library raises
    [asyncio.TimeoutError], the exception carrying the output captured
    until then; or anything else is raised. *)
Inductive run_outcome : Type :=
| Exited (exit_status : Z) (out err : string)
| DeadlinePassed (captured_out captured_err : string)
| RunRaised (e : exc).

(** An entry of [self.ssh_profiles], by the keys that decide whether a
    connection is made. *)
Record profile : Type := mkProfile {
  private_key_file : option string;
  bastion_enabled : bool
}.

(** The profile that [_load_ssh_profiles] installs when the profile file
    cannot be read. *)
Definition default_profile : profile := mkProfile None false.

(** The profile inferred from the identity of the host. *)
Definition inferred_profile (host_id : string) : string :=
  if contains "prod" (lower host_id) then "prod"
  else if contains "stage" (lower host_id) then "stage"
  else if contains "dev" (lower host_id) then "dev"
  else "default".

Section Executor.

(** The connections of the SSH library. *)
Context {C : Type}.

(** [asyncssh.connect(hostname, options=options)], the connection to the
    bastion host, and [connection.run]. *)
Variable connect : val -> res C.
Variable connect_bastion : res C.
Variable run : C -> val -> val -> run_outcome.

(** [class SSHExecutor]: the connection cache and the profiles. *)
Record executor : Type := mkExecutor {
  connections : list (val * C);
  ssh_profiles : gmap string profile
}.

(** [self.connections[host_id]], when [host_id in self.connections]. *)
Fixpoint cached (host_id : val) (connections : list (val * C)) : option C :=
  match connections with
  | [] => None
  | (k, c) :: rest => if py_eqb k host_id then Some c else cached host_id rest
  end.

(** [get_connection].  The options of the connection, the passphrase
    among them, only feed [asyncssh.connect]; their lookup cannot raise
    and is left out. *)
Definition get_connection (h : host) (profile_name : option string) : M executor C :=
  fun ex =>
    match (unknown <- host_get h "name" (VStr "unknown") ;;
           host_get h "ansible_host" unknown)%py with
    | Raise e => (Raise e, ex)
    | Return host_id =>
        match cached host_id (connections ex) with
        | Some connection => (Return connection, ex)
        | None =>
            let body : res C :=
              (profile_name <-
                 match profile_name, host_id with
                 | Some p, VStr s =>
                     Return (if String.eqb p "" then inferred_profile s else p)
                 | Some p, _ =>
                     if String.eqb p ""
                     then Raise (no_attribute (class_name host_id) "lower")
                     else Return p
                 | None, VStr s => Return (inferred_profile s)
                 | None, _ => Raise (no_attribute (class_name host_id) "lower")
                 end ;;
               let profile :=
                 default (default default_profile (ssh_profiles ex !! "default"))
                   (ssh_profiles ex !! profile_name) in
               name_or_none <- host_get h "name" VNone ;;
               hostname <- host_get h "ansible_host" name_or_none ;;
               key_file <- host_get h "ansible_ssh_private_key_file"
                             (match private_key_file profile with
                              | Some f => VStr f
                              | None => VNone
                              end) ;;
               if negb (truthy key_file)
               then Raise (Exc ValueError
                             ("No private key file specified for host " +:+ fmt host_id))
               else if bastion_enabled profile
               then (_ <- connect_bastion ;;
                     Raise (Exc NotImplementedError
                              "Bastion host support not yet implemented"))
               else connect hostname)%py in
            match body with
            | Return connection =>
                (Return connection,
                 mkExecutor (connections ex ++ [(host_id, connection)]) (ssh_profiles ex))
            | Raise e => (Raise e, ex)
            end
        end
    end.

(** The result of the clause [except asyncio.TimeoutError]. *)
Definition timeout_result (timeout : val) : SSHResult :=
  mkSSHResult 124 "" ("Command timed out after " +:+ fmt timeout +:+ " seconds").

(** The two [except] clauses of [execute_command], by the class of the
    exception. *)
Definition on_exception (e : exc) (timeout : val) : SSHResult :=
  match kind e with
  | TimeoutError => timeout_result timeout
  | _ => mkSSHResult 1 "" (msg e)
  end.

(** Both [except] clauses log a line before they answer, and the line
    reads the host with [host.get('ansible_host', 'unknown')]: on a host
    without [.get] the clause raises in its turn, and nothing catches
    that. *)
Definition logged_answer (h : host) (answer : SSHResult) : res SSHResult :=
  (_ <- host_get h "ansible_host" (VStr "unknown") ;;
   Return answer)%py.

(** [SSHExecutor.execute_command] *)
Definition execute_command (h : host) (command : val) (timeout : val)
    (profile_name : option string) : M executor SSHResult :=
  fun ex =>
    match get_connection h profile_name ex with
    | (Raise e, ex') => (logged_answer h (on_exception e timeout), ex')
    | (Return connection, ex') =>
        match run connection command timeout with
        | Exited exit_status out err =>
            (Return (mkSSHResult exit_status out err), ex')
        | DeadlinePassed _ _ => (logged_answer h (timeout_result timeout), ex')
        | RunRaised e => (logged_answer h (on_exception e timeout), ex')
        end
    end.

(** *** Closing connections *)

(** [await connection.close()] *)
Variable close : C -> res unit.

(** [host.get('ansible_host', host.get('name', 'unknown'))]: the key of a
    host in the cache. *)
Definition connection_key (h : host) : res val :=
  (unknown <- host_get h "name" (VStr "unknown") ;;
   host_get h "ansible_host" unknown)%py.

(** [del self.connections[host_id]] *)
Definition del_connection (host_id : val) (connections : list (val * C))
    : list (val * C) :=
  filter (fun kc => py_eqb kc.1 host_id = false) connections.

(** [close_connection]: the entry is deleted after [close] has returned;
    when [close] raises, the exception is logged and the entry stays. *)
Definition close_connection (h : host) : M executor unit :=
  fun ex =>
    match connection_key h with
    | Raise e => (Raise e, ex)
    | Return host_id =>
        match cached host_id (connections ex) with
        | None => (Return tt, ex)
        | Some connection =>
            match close connection with
            | Return _ =>
                (Return tt,
                 mkExecutor (del_connection host_id (connections ex)) (ssh_profiles ex))
            | Raise _ => (Return tt, ex)
            end
        end
    end.

(** The loop of [close_all_connections], over the keys that the cache had
    when the loop began. *)
Fixpoint close_each (host_ids : list val) (connections : list (val * C))
    : list (val * C) :=
  match host_ids with
  | [] => connections
  | host_id :: rest =>
      match cached host_id connections with
      | Some connection =>
          match close connection with
          | Return _ => close_each rest (del_connection host_id connections)
          | Raise _ => close_each rest connections
          end
      | None => close_each rest connections
      end
  end.

(** [close_all_connections] *)
Definition close_all_connections : M executor unit :=
  fun ex =>
    (Return tt,
     mkExecutor (close_each (connections ex).*1 (connections ex)) (ssh_profiles ex)).

(** [close] raises on this connection. *)
Definition refuses_close (connection : C) : bool :=
  match close connection with
  | Raise _ => true
  | Return _ => false
  end.

(** *** The claim on timeouts *)

(** A connection is only made for a host that is a mapping. *)
Lemma get_connection_mapping h profile_name ex connection ex' :
  get_connection h profile_name ex = (Return connection, ex') ->
  exists fields, h = HostMapping fields.
Proof.
  destruct h as [fields|inst]; [by eauto|].
  unfold get_connection. simpl. discriminate.
Qed.

(** On a host that is a mapping, [execute_command] never raises. *)
Lemma execute_command_returns fields command timeout profile_name ex :
  exists r ex',
    execute_command (HostMapping fields) command timeout profile_name ex
      = (Return r, ex').
Proof.
  unfold execute_command, logged_answer.
  destruct (get_connection (HostMapping fields) profile_name ex) as [[c|e] ex'];
    [|by eauto].
  destruct (run c command timeout); simpl; eauto.
Qed.

(** On a [Host] instance it raises: [get_connection] fails at its first
    line, and the [except] clause at the line that it logs. *)
Lemma execute_command_instance_raises inst command timeout profile_name ex :
  execute_command (HostInstance inst) command timeout profile_name ex
    = (Raise (no_attribute "Host" "get"), ex).
Proof. unfold execute_command, get_connection. simpl. reflexivity. Qed.

(** C6, amended: a command that exceeds its timeout makes
    [execute_command] return, and not raise, a synthetic result with the
    reserved exit code 124, an empty [stdout], and the timeout message as
    [stderr]; what was captured before the deadline is not part of it. *)
Theorem execute_command_timeout h command timeout profile_name ex
    connection ex' captured_out captured_err :
  get_connection h profile_name ex = (Return connection, ex') ->
  run connection command timeout = DeadlinePassed captured_out captured_err ->
  execute_command h command timeout profile_name ex =
    (Return (mkSSHResult 124 ""
               ("Command timed out after " +:+ fmt timeout +:+ " seconds")), ex').
Proof.
  intros Hconnection Hrun.
  destruct (get_connection_mapping _ _ _ _ _ Hconnection) as [fields ->].
  unfold execute_command. by rewrite Hconnection, Hrun.
Qed.

(** *** Further facts about the connection cache *)

Lemma cached_app_absent host_id connections connection :
  cached host_id connections = None ->
  cached host_id (connections ++ [(host_id, connection)]) = Some connection.
Proof.
  induction connections as [|[k c] rest IH]; simpl.
  - by rewrite py_eqb_refl.
  - destruct (py_eqb k host_id); [done|exact IH].
Qed.

Lemma get_connection_outcome h profile_name ex r ex' :
  get_connection h profile_name ex = (r, ex') ->
  match r with
  | Raise _ => ex' = ex
  | Return connection =>
      exists host_id, connection_key h = Return host_id /\
        cached host_id (connections ex') = Some connection
  end.
Proof.
  unfold get_connection. fold (connection_key h).
  destruct (connection_key h) as [host_id|e] eqn:Hkey; [|by intros [= <- <-]].
  destruct (cached host_id (connections ex)) as [c|] eqn:Hcached.
  - intros [= <- <-]. by exists host_id.
  - case_match; intros [= <- <-]; [|done].
    exists host_id. split; [done|]. simpl. by apply cached_app_absent.
Qed.

(** X11: a connection that [get_connection] returned is in the cache under
    the identity of the host: every later call for a host of that identity
    gets the same connection and leaves the cache as it is, whatever profile
    it asks for and whatever key file the host names then; and a call that
    raises leaves the cache as it was, so that the next call tries again. *)
Theorem connections_are_reused h profile_name ex r ex' :
  get_connection h profile_name ex = (r, ex') ->
  match r with
  | Return connection =>
      forall h' profile_name',
        connection_key h' = connection_key h ->
        get_connection h' profile_name' ex' = (Return connection, ex')
  | Raise _ => ex' = ex
  end.
Proof.
  intros Hrun. pose proof (get_connection_outcome _ _ _ _ _ Hrun) as Hout.
  destruct r as [connection|e]; [|done].
  destruct Hout as (host_id & Hkey & Hcached).
  intros h' profile_name' Hsame. unfold get_connection. fold (connection_key h').
  by rewrite Hsame, Hkey, Hcached.
Qed.

(** X12: a command for a host that is not connected and that names no key
    file, under profiles that name none either, is answered with exit code
    1 and the message of the [ValueError]; no connection is attempted and
    the cache stays as it is. *)
Theorem execute_command_without_key fields command timeout profile_name ex s :
  connection_key (HostMapping fields) = Return (VStr s) ->
  cached (VStr s) (connections ex) = None ->
  fields !! "ansible_ssh_private_key_file" = None ->
  (forall n p, ssh_profiles ex !! n = Some p -> private_key_file p = None) ->
  execute_command (HostMapping fields) command timeout profile_name ex =
    (Return (mkSSHResult 1 "" ("No private key file specified for host " +:+ s)), ex).
Proof.
  intros Hkey Hcached Hhost Hprofiles.
  unfold connection_key in Hkey. simpl in Hkey. injection Hkey as Hkey.
  unfold execute_command, get_connection. simpl. rewrite Hkey, Hcached.
  assert (forall pn,
            private_key_file
              (default (default default_profile (ssh_profiles ex !! "default"))
                 (ssh_profiles ex !! pn)) = None) as Hnone.
  { intros pn. destruct (ssh_profiles ex !! pn) as [p|] eqn:Hp; simpl; [by eapply Hprofiles|].
    destruct (ssh_profiles ex !! "default") as [p|] eqn:Hd; simpl; [by eapply Hprofiles|done]. }
  assert (forall v, dict_get fields "ansible_ssh_private_key_file" v = v) as Hget.
  { intros v. unfold dict_get. by rewrite Hhost. }
  destruct profile_name as [p|]; simpl; by rewrite Hget, Hnone.
Qed.

Lemma del_connection_absent host_id (connections : list (val * C)) :
  Forall (fun k => py_eqb k host_id = false) connections.*1 ->
  del_connection host_id connections = connections.
Proof.
  unfold del_connection. induction connections as [|[k c] rest IH]; [done|].
  simpl. intros Hall. apply Forall_cons in Hall as [Hk Hrest].
  rewrite filter_cons. simpl. rewrite decide_True by done. by rewrite IH.
Qed.

Lemma cached_after pre host_id connection post :
  Forall (fun k => py_eqb k host_id = false) pre.*1 ->
  cached host_id (pre ++ (host_id, connection) :: post) = Some connection.
Proof.
  induction pre as [|[k c] rest IH]; simpl.
  - by rewrite py_eqb_refl.
  - intros Hall. apply Forall_cons in Hall as [-> Hrest]. by apply IH.
Qed.

Lemma close_each_spec post :
  forall pre, distinct (pre ++ post).*1 ->
    close_each post.*1 (pre ++ post) =
      pre ++ filter (fun kc => refuses_close kc.2 = true) post.
Proof.
  induction post as [|[k c] post IH]; intros pre Hdist; simpl.
  - by rewrite filter_nil.
  - rewrite fmap_app in Hdist. simpl in Hdist.
    apply distinct_app in Hdist as (Hpre & [Hk Hpost] & Hcross).
    assert (Forall (fun a => py_eqb a k = false) pre.*1) as Hbefore.
    { eapply Forall_impl; [exact Hcross|]. simpl. intros a Ha.
      by apply Forall_cons in Ha as [? _]. }
    rewrite (cached_after _ _ _ _ Hbefore). rewrite filter_cons. simpl.
    destruct (close c) as [[]|e] eqn:Hclose.
    + assert (refuses_close c = false) as Hrefuses
        by (unfold refuses_close; by rewrite Hclose).
      rewrite decide_False by (by rewrite Hrefuses).
      assert (del_connection k (pre ++ (k, c) :: post) = pre ++ post) as ->.
      { unfold del_connection. rewrite filter_app, filter_cons. simpl.
        rewrite py_eqb_refl. rewrite decide_False by done.
        fold (del_connection k pre). fold (del_connection k post).
        rewrite !del_connection_absent; [done| |done].
        eapply Forall_impl; [exact Hk|]. simpl. intros b Hb. by rewrite py_eqb_sym. }
      apply IH. rewrite fmap_app. apply distinct_app. split; [done|]. split; [done|].
      eapply Forall_impl; [exact Hcross|]. simpl. intros a Ha.
      by apply Forall_cons in Ha as [_ ?].
    + assert (refuses_close c = true) as Hrefuses
        by (unfold refuses_close; by rewrite Hclose).
      rewrite decide_True by done.
      replace (pre ++ (k, c) :: post) with ((pre ++ [(k, c)]) ++ post)
        by (by rewrite <- app_assoc).
      rewrite IH; [by rewrite <- app_assoc|].
      rewrite <- app_assoc, fmap_app. simpl.
      apply distinct_app. split; [done|]. split; [by split|done].
Qed.

(** X13: [close_all_connections] returns, and leaves in the cache exactly
    the connections on which [close] raised, in their order: a connection
    that refuses to close is kept, and will be handed out again. *)
Theorem close_all_connections_keeps_failures ex :
  distinct (connections ex).*1 ->
  close_all_connections ex =
    (Return tt,
     mkExecutor (filter (fun kc => refuses_close kc.2 = true) (connections ex))
       (ssh_profiles ex)).
Proof.
  intros Hdist. unfold close_all_connections. f_equal. f_equal.
  by apply (close_each_spec (connections ex) []).
Qed.

Lemma cached_del_same host_id (connections : list (val * C)) :
  cached host_id (del_connection host_id connections) = None.
Proof.
  unfold del_connection. induction connections as [|[k c] rest IH]; [done|].
  rewrite filter_cons. simpl. destruct (py_eqb k host_id) eqn:Hk.
  - by rewrite decide_False.
  - rewrite decide_True by done. simpl. by rewrite Hk.
Qed.

Lemma cached_del_other host_id k (connections : list (val * C)) :
  py_eqb k host_id = false ->
  cached k (del_connection host_id connections) = cached k connections.
Proof.
  intros Hne. unfold del_connection.
  induction connections as [|[k' c] rest IH]; [done|].
  rewrite filter_cons. simpl. destruct (py_eqb k' host_id) eqn:Hk'.
  - rewrite decide_False by done. rewrite IH.
    destruct (py_eqb k' k) eqn:Hkk; [|done].
    rewrite (py_eqb_trans k k' host_id) in Hne; [done| |done].
    by rewrite py_eqb_sym.
  - rewrite decide_True by done. simpl. by rewrite IH.
Qed.

(** X14: [close_connection] on a host given as a mapping returns.  Without
    a cached connection for the host nothing changes; when [close] raises,
    the entry stays in the cache; when it returns, the host has no entry any
    more, so that the next command connects anew, and the entries of the
    other hosts are as they were. *)
Theorem close_connection_forgets fields ex :
  exists ex' host_id,
    close_connection (HostMapping fields) ex = (Return tt, ex') /\
    connection_key (HostMapping fields) = Return host_id /\
    ssh_profiles ex' = ssh_profiles ex /\
    match cached host_id (connections ex) with
    | None => ex' = ex
    | Some connection =>
        if refuses_close connection then ex' = ex
        else cached host_id (connections ex') = None /\
             forall k, py_eqb k host_id = false ->
               cached k (connections ex') = cached k (connections ex)
    end.
Proof.
  unfold close_connection, connection_key, refuses_close. simpl.
  set (host_id := dict_get fields "ansible_host" (dict_get fields "name" (VStr "unknown"))).
  destruct (cached host_id (connections ex)) as [c|] eqn:Hcached.
  - destruct (close c) as [[]|e] eqn:Hclose.
    + eexists _, host_id. split; [done|]. split; [done|]. split; [done|].
      rewrite Hcached, Hclose. simpl. split; [apply cached_del_same|].
      intros k Hk. by apply cached_del_other.
    + exists ex, host_id. split; [done|]. split; [done|]. split; [done|].
      by rewrite Hcached, Hclose.
  - exists ex, host_id. split; [done|]. split; [done|]. split; [done|].
    by rewrite Hcached.
Qed.

End Executor.

(** A host with a key file, an executor that has not connected yet, and a
    command that prints [step 1 done] and then outlives its deadline. *)
Definition build_host : host :=
  HostMapping {[ "ansible_host" := VStr "10.0.0.9";
                 "ansible_ssh_private_key_file" := VStr "~/.ssh/id_ed25519" ]}.

Definition unconnected : @executor nat := mkExecutor [] ∅.

Definition slow_build (connection : nat) (command timeout : val) : run_outcome :=
  DeadlinePassed "step 1 done" "".

(** C6, as stated, fails: the command printed [step 1 done] before its
    deadline of 5 seconds, and the result has an empty [stdout]. *)
Lemma execute_command_timeout_drops_output :
  slow_build 1 (VStr "make all") (VInt 5) = DeadlinePassed "step 1 done" "" /\
  execute_command (fun _ => Return 1%nat) (Return 0%nat) slow_build
    build_host (VStr "make all") (VInt 5) None unconnected =
  (Return (mkSSHResult 124 "" "Command timed out after 5 seconds"),
   mkExecutor [(VStr "10.0.0.9", 1%nat)] ∅).
Proof. split; [reflexivity|]. vm_compute. reflexivity. Qed.

Lemma execute_command_timeout_witness :
  execute_command (fun _ => Return 1%nat) (Return 0%nat) slow_build
    build_host (VStr "make all") (VInt 5) None unconnected =
  (Return (mkSSHResult 124 "" "Command timed out after 5 seconds"),
   mkExecutor [(VStr "10.0.0.9", 1%nat)] ∅).
Proof.
  apply (execute_command_timeout (fun _ => Return 1%nat) (Return 0%nat) slow_build
           build_host (VStr "make all") (VInt 5) None unconnected 1%nat
           (mkExecutor [(VStr "10.0.0.9", 1%nat)] ∅) "step 1 done" "").
  - vm_compute. reflexivity.
  - reflexivity.
Defined.

(** *** The further facts on the examples *)

(** The build host as a later caller names it: no key file any more. *)
Definition build_host_bare : host :=
  HostMapping {[ "ansible_host" := VStr "10.0.0.9" ]}.

(** A host that is not connected and has no key file. *)
Definition keyless_host_fields : gmap string val :=
  {[ "name" := VStr "db-01"; "ansible_host" := VStr "10.0.0.7" ]}.

(** Two cached connections, of which the first refuses to close. *)
Definition two_connections : @executor nat :=
  mkExecutor [(VStr "10.0.0.1", 1%nat); (VStr "10.0.0.2", 2%nat)] ∅.

Definition first_refuses (connection : nat) : res unit :=
  if Nat.eqb connection 1 then Raise (Exc OSError "Broken pipe") else Return tt.

Lemma connections_are_reused_witness :
  get_connection (fun _ => Return 1%nat) (Return 0%nat) build_host_bare (Some "prod")
    (mkExecutor [(VStr "10.0.0.9", 1%nat)] ∅) =
  (Return 1%nat, mkExecutor [(VStr "10.0.0.9", 1%nat)] ∅).
Proof.
  apply (connections_are_reused (fun _ => Return 1%nat) (Return 0%nat) build_host None
           unconnected (Return 1%nat) (mkExecutor [(VStr "10.0.0.9", 1%nat)] ∅)).
  - vm_compute. reflexivity.
  - vm_compute. reflexivity.
Defined.

Lemma execute_command_without_key_witness :
  execute_command (fun _ => Return 1%nat) (Return 0%nat) slow_build
    (HostMapping keyless_host_fields) (VStr "uptime") (VInt 5) None unconnected =
  (Return (mkSSHResult 1 "" "No private key file specified for host 10.0.0.7"),
   unconnected).
Proof.
  apply (execute_command_without_key (fun _ => Return 1%nat) (Return 0%nat) slow_build
           keyless_host_fields (VStr "uptime") (VInt 5) None unconnected "10.0.0.7").
  - vm_compute. reflexivity.
  - reflexivity.
  - vm_compute. reflexivity.
  - intros n p Hp. simpl in Hp. rewrite lookup_empty in Hp. discriminate Hp.
Defined.

Lemma close_all_connections_keeps_failures_witness :
  close_all_connections first_refuses two_connections =
  (Return tt, mkExecutor [(VStr "10.0.0.1", 1%nat)] ∅).
Proof.
  apply (close_all_connections_keeps_failures first_refuses two_connections).
  simpl. split; [|done]. constructor; [|done]. vm_compute. reflexivity.
Defined.

End SSH.

(** ** audit.py *)
Module Audit.

(** [class TaskExecution], a row of the table [task_executions]. *)
Record TaskExecution : Type := mkTaskExecution {
  task_id : string;
  run_id : string;
  host : val;
  task_name : string;
  task_type : string;
  status : val;
  output : val;
  error : val;
  changed : val
}.

(** [_generate_task_id]: the random identifier is replaced by the number
    of the row. *)
Definition _generate_task_id (db : list TaskExecution) : string :=
  "task-" +:+ str_of_Z (Z.of_nat (length db)).

(** [AuditLogger.log_task_execution(host, task_config, task_result, run_id)].
    [run_id] has no default: a call that does not pass it ([None] here) is
    refused by the interpreter before the body runs. *)
Definition log_task_execution (h : Run.host) (tc : task_config)
    (task_result : TaskResult) (run_id : option string)
    : M (list TaskExecution) string :=
  match run_id with
  | None =>
      raise (Exc TypeError
        "log_task_execution() missing 1 required positional argument: 'run_id'")
  | Some run_id =>
      fun db =>
        let task_id := _generate_task_id db in
        match host_get h "name" (VStr "unknown") with
        | Raise e => (Raise e, db)
        | Return name_or_unknown =>
            match host_get h "ansible_host" name_or_unknown with
            | Raise e => (Raise e, db)
            | Return host_id =>
                let execution :=
                  mkTaskExecution task_id run_id host_id
                    (default "unnamed_task" (Run.task_name tc))
                    (default "command" (Run.task_type tc))
                    (Run.status task_result) (Run.output task_result)
                    (Run.error task_result) (Run.changed task_result) in
                (Return task_id, db ++ [execution])
            end
        end
  end.

End Audit.

(** ** task_runner.py *)
Module TaskRunner.

(** What [ssh_executor.execute_command] answers with.  The handlers read
    the answer by subscript ([result['exit_code']]); the [SSHResult]
    instance that [SSHExecutor] returns is not subscriptable. *)
Inductive cmd_result : Type :=
| ResultMapping (r : SSH.SSHResult)
| ResultInstance (r : SSH.SSHResult).

Definition subscript {A} (result : cmd_result) (field : SSH.SSHResult -> A) : res A :=
  match result with
  | ResultMapping r => Return (field r)
  | ResultInstance _ =>
      Raise (Exc TypeError "'SSHResult' object is not subscriptable")
  end.

(** What a handler returns: a mapping, or [None] when its body ends
    without a [return]. *)
Definition handler_result : Type := option (gmap string val).

(** The names under which [__init__] registers handlers besides [command]
    and [file]. *)
Definition other_task_types : list string :=
  [ "package"; "service"; "archive"; "template"; "script"; "checkpoint";
    "splunk_precheck"; "splunk_download"; "splunk_install"; "splunk_backup";
    "splunk_restore"; "splunk_health_check"; "splunk_version_check";
    "splunk_status_check"; "splunk_wait_ready"; "splunk_verify_package";
    "splunk_verify_backup"; "splunk_restore_config"; "splunk_set_permissions";
    "splunk_cleanup_backups"; "splunk_validate_upgrade" ].

(** *** Collaborators and inputs for the examples *)

(** The world of the examples: how the SSH library connects and how the
    hosts answer a command, the executor, the commands that were carried
    out, and the audit table. *)
Record world : Type := mkWorld {
  connect : val -> res nat;
  run : nat -> val -> val -> SSH.run_outcome;
  executor : @SSH.executor nat;
  carried_out : list val;
  audit_db : list Audit.TaskExecution
}.

(** [SSHExecutor.execute_command] on the world of the examples; a command
    that exits with code 0 was carried out. *)
Definition send (h : host) (cmd timeout : val) : M world SSH.SSHResult :=
  fun w =>
    match SSH.execute_command (connect w)
            (Raise (Exc OSError "Bastion host configuration incomplete"))
            (run w) h cmd timeout None (executor w) with
    | (Return r, ex) =>
        (Return r,
         mkWorld (connect w) (run w) ex
           (if Z.eqb (SSH.exit_code r) 0 then carried_out w ++ [cmd] else carried_out w)
           (audit_db w))
    | (Raise e, ex) =>
        (Raise e, mkWorld (connect w) (run w) ex (carried_out w) (audit_db w))
    end.

(** [SSHExecutor.execute_command] as the collaborator of the task runner:
    its answer is an [SSHResult] instance. *)
Definition ssh_executor (h : host) (cmd timeout : val) : M world cmd_result :=
  fun w =>
    match send h cmd timeout w with
    | (Return r, w') => (Return (ResultInstance r), w')
    | (Raise e, w') => (Raise e, w')
    end.

(** An executor with the same behaviour whose answers are mappings, as the
    handlers read them. *)
Definition ssh_executor_mapping (h : host) (cmd timeout : val) : M world cmd_result :=
  fun w =>
    match send h cmd timeout w with
    | (Return r, w') => (Return (ResultMapping r), w')
    | (Raise e, w') => (Raise e, w')
    end.

(** [AuditLogger.log_task_execution] as the collaborator of the task
    runner. *)
Definition audit_logger (h : host) (tc : task_config) (task_result : TaskResult)
    (run_id : option string) : M world string :=
  fun w =>
    let '(r, db) := Audit.log_task_execution h tc task_result run_id (audit_db w) in
    (r, mkWorld (connect w) (run w) (executor w) (carried_out w) db).

(** An audit logger whose [run_id] parameter has a default. *)
Definition audit_logger_default (h : host) (tc : task_config) (task_result : TaskResult)
    (run_id : option string) : M world string :=
  audit_logger h tc task_result (Some (default "" run_id)).

(** [eval] on the three expressions of the examples: two literals and a
    name that is not defined. *)
Definition eval_table (expression : string) : res val :=
  if String.eqb expression "True" then Return (VBool true)
  else if String.eqb expression "False" then Return (VBool false)
  else Raise (Exc NameError ("name '" +:+ expression +:+ "' is not defined")).

(** The handlers that are not modelled; no example dispatches to them. *)
Definition unmodelled_handler (task_type : string) (args : gmap string val)
    (h : host) (rc : RunConfig) : M world handler_result :=
  raise (Exc NotImplementedError task_type).

(** Hosts that carry out every command and print nothing. *)
Definition quiet_hosts : world :=
  mkWorld (fun _ => Return 0%nat) (fun _ _ _ => SSH.Exited 0 "" "")
    (SSH.mkExecutor [] ∅) [] [].

(** The same hosts after [web-01] carried out [commands]. *)
Definition web_01_did (commands : list val) : world :=
  mkWorld (connect quiet_hosts) (run quiet_hosts)
    (SSH.mkExecutor [(VStr "10.0.0.1", 0%nat)] ∅) commands [].

Definition web_01_fields : gmap string val :=
  {[ "name" := VStr "web-01"; "ansible_host" := VStr "10.0.0.1";
     "ansible_ssh_private_key_file" := VStr "~/.ssh/id_ed25519" ]}.

Definition web_01 : host := HostMapping web_01_fields.

Definition web_02_fields : gmap string val :=
  {[ "name" := VStr "web-02"; "ansible_host" := VStr "10.0.0.2";
     "ansible_ssh_private_key_file" := VStr "~/.ssh/id_ed25519" ]}.

Definition web_02 : host := HostMapping web_02_fields.

(** Hosts of which [web-02] refuses the connection. *)
Definition web_02_down : world :=
  mkWorld
    (fun hostname => if py_eqb hostname (VStr "10.0.0.2")
                     then Raise (Exc OSError "Connection refused")
                     else Return 0%nat)
    (fun _ _ _ => SSH.Exited 0 "" "")
    (SSH.mkExecutor [] ∅) [] [].

(** A rolling run on the group [prod-web], one host per batch, with a
    delay of 30 seconds. *)
Definition site_run : RunConfig :=
  mkRunConfig "site.yml" [] ["prod-web"] None 10 1 30 None None.

(** The same run restricted to the tasks tagged [deploy]. *)
Definition deploy_run : RunConfig :=
  mkRunConfig "site.yml" [] ["prod-web"] None 10 1 30 (Some ["deploy"]) None.

Definition echo_ok : task_config :=
  mkTask (Some "say ok") (Some "command") {[ "cmd" := VStr "echo ok" ]}
    None None [] false.

Definition create_motd : task_config :=
  mkTask (Some "motd") (Some "file")
    {[ "path" := VStr "/etc/motd"; "state" := VStr "present";
       "content" := VStr "welcome" ]}
    None None [] false.

(** The mapping that [_execute_command] builds when [echo ok] succeeds
    without output. *)
Definition echo_ok_outcome : gmap string val :=
  {[ "status" := VStr "success"; "output" := VStr ""; "error" := VNone;
     "changed" := VBool true ]}.

(** A task whose [when] condition names a variable that does not exist. *)
Definition guarded : task_config :=
  mkTask (Some "guarded") (Some "command") {[ "cmd" := VStr "echo ok" ]}
    (Some (VStr "undefined_variable")) None [] false.

Section Engine.

(** The world the collaborators act on: the managed hosts, the audit
    store, whatever else they keep. *)
Context {R : Type}.

(** [self.ssh_executor.execute_command(host, cmd, timeout=...)] *)
Variable ssh_execute_command : host -> val -> val -> M R cmd_result.

(** [self.audit.log_task_execution(host, task_config, task_result)]; the
    last argument is the [run_id] that the call passes, or [None] when it
    passes none. *)
Variable audit_log_task_execution :
  host -> task_config -> TaskResult -> option string -> M R string.

(** [eval(condition)]: the value of the expression, or the exception that
    its evaluation raises.  Expressions are taken to have no effect. *)
Variable py_eval : string -> res val.

(** The handlers registered under [other_task_types]. *)
Variable other_handler :
  string -> gmap string val -> host -> RunConfig -> M R handler_result.

(** What the task runner did, in order. *)
Inductive event : Type :=
| Dispatched (task_type : string) (h : host)
| Command (h : host) (cmd : val)
| Audited (h : host) (tc : task_config) (task_result : TaskResult).

Record state : Type := mkState {
  remote : R;
  log : list event
}.

Definition emit (e : event) : M state unit :=
  fun st => (Return tt, mkState (remote st) (log st ++ [e])).

(** A collaborator's call, run on the collaborators' part of the state. *)
Definition call {A} (m : M R A) : M state A :=
  fun st => let '(r, w) := m (remote st) in (r, mkState w (log st)).

Definition execute_command (h : host) (cmd : val) (timeout : val) : M state cmd_result :=
  (_ <~ emit (Command h cmd) ;; call (ssh_execute_command h cmd timeout))%run.

(** The mapping that most handlers build from the answer to their
    command. *)
Definition command_outcome (result : cmd_result) : res (gmap string val) :=
  (exit_code <- subscript result SSH.exit_code ;;
   out <- subscript result SSH.stdout ;;
   exit_code' <- subscript result SSH.exit_code ;;
   err <- (if Z.eqb exit_code' 0 then Return VNone
           else e <- subscript result SSH.stderr ;; Return (VStr e)) ;;
   Return ({[ "status" := VStr (if Z.eqb exit_code 0 then "success" else "failed");
              "output" := VStr out;
              "error" := err;
              "changed" := VBool true ]} : gmap string val))%py.

(** [_execute_command] *)
Definition _execute_command (args : gmap string val) (h : host) (rc : RunConfig)
    : M state handler_result :=
  let cmd := dict_get args "cmd" VNone in
  if negb (truthy cmd) then raise (Exc ValueError "Command not specified")
  else
    let timeout := dict_get args "timeout" (VInt 300) in
    (result <~ execute_command h cmd timeout ;;
     d <~ lift (command_outcome result) ;;
     pure (Some d))%run.

(** [if args.get(key): await execute_command(host, f"{tool} {args[key]} {path}")] *)
Definition set_attribute (args : gmap string val) (h : host)
    (key tool : string) (path : val) : M state unit :=
  let v := dict_get args key VNone in
  if truthy v
  then (_ <~ execute_command h (VStr (tool +:+ " " +:+ fmt v +:+ " " +:+ fmt path))
                 (VInt 300) ;;
        pure tt)%run
  else pure tt.

(** [_execute_file] *)
Definition _execute_file (args : gmap string val) (h : host) (rc : RunConfig)
    : M state handler_result :=
  let path := dict_get args "path" VNone in
  let state := dict_get args "state" (VStr "present") in
  if py_eqb state (VStr "present") then
    let cmd :=
      if truthy (dict_get args "directory" (VBool false))
      then "mkdir -p " +:+ fmt path
      else
        let content := dict_get args "content" (VStr "") in
        "echo '" +:+ fmt content +:+ "' > " +:+ fmt path in
    (result <~ execute_command h (VStr cmd) (VInt 300) ;;
     _ <~ set_attribute args h "owner" "chown" path ;;
     _ <~ set_attribute args h "group" "chgrp" path ;;
     _ <~ set_attribute args h "mode" "chmod" path ;;
     d <~ lift (command_outcome result) ;;
     pure (Some d))%run
  else if py_eqb state (VStr "absent") then
    (result <~ execute_command h (VStr ("rm -rf " +:+ fmt path)) (VInt 300) ;;
     d <~ lift (command_outcome result) ;;
     pure (Some d))%run
  else pure None.

(** [self.task_types] *)
Definition task_types (task_type : string)
    : option (gmap string val -> host -> RunConfig -> M state handler_result) :=
  if String.eqb task_type "command" then Some _execute_command
  else if String.eqb task_type "file" then Some _execute_file
  else if bool_decide (task_type ∈ other_task_types)
       then Some (fun args h rc => call (other_handler task_type args h rc))
       else None.

(** The body of the [try] in [_evaluate_condition]: the three
    substitutions, then [eval]. *)
Definition _evaluate_condition_body (condition : val) (h : host) : res val :=
  match condition with
  | VStr condition =>
      (ansible_host <- host_get h "ansible_host" (VStr "") ;;
       let condition :=
         replace "{{ ansible_host }}" ("'" +:+ fmt ansible_host +:+ "'") condition in
       splunk_type <- host_get h "splunk_type" (VStr "") ;;
       let condition :=
         replace "{{ splunk_type }}" ("'" +:+ fmt splunk_type +:+ "'") condition in
       os_family <- host_get h "os_family" (VStr "") ;;
       let condition :=
         replace "{{ os_family }}" ("'" +:+ fmt os_family +:+ "'") condition in
       py_eval condition)%py
  | _ => Raise (no_attribute (class_name condition) "replace")
  end.

(** [_evaluate_condition]: the bare [except] answers [False] to whatever
    the body raises. *)
Definition _evaluate_condition (condition : val) (h : host) (rc : RunConfig) : val :=
  match _evaluate_condition_body condition h with
  | Return v => v
  | Raise _ => VBool false
  end.

(** [if c: if not await self._evaluate_condition(c, host, run_config): return True] *)
Definition condition_skips (c : option val) (h : host) (rc : RunConfig) : bool :=
  match c with
  | Some c => truthy c && negb (truthy (_evaluate_condition c h rc))
  | None => false
  end.

(** [any(tag in task_tags for tag in tags)] *)
Definition any_tag_in (selected : list string) (of_task : list string) : bool :=
  existsb (fun tag => bool_decide (tag ∈ of_task)) selected.

(** [_should_skip_task] *)
Definition _should_skip_task (tc : task_config) (h : host) (rc : RunConfig) : bool :=
  if condition_skips (task_when tc) h rc then true
  else if condition_skips (task_only_if tc) h rc then true
  else
    let run_tags := default [] (tags rc) in
    let run_skip_tags := default [] (skip_tags rc) in
    if negb (bool_decide (run_tags = [])) && negb (any_tag_in run_tags (task_tags tc))
    then true
    else if negb (bool_decide (run_skip_tags = []))
            && any_tag_in run_skip_tags (task_tags tc)
    then true
    else false.

Definition name_of (tc : task_config) : string := default "unnamed_task" (task_name tc).
Definition type_of (tc : task_config) : string := default "command" (task_type tc).

Definition skipped_result (tc : task_config) : TaskResult :=
  mkTaskResult (name_of tc) (VStr "skipped") (VStr "Task skipped due to condition")
    VNone (VBool false).

Definition failed_result (tc : task_config) (e : exc) : TaskResult :=
  mkTaskResult (name_of tc) (VStr "failed") (VStr "") (VStr (msg e)) (VBool false).

(** The [TaskResult] built from the mapping a handler returned. *)
Definition result_of (tc : task_config) (d : gmap string val) : TaskResult :=
  mkTaskResult (name_of tc)
    (dict_get d "status" (VStr "success"))
    (dict_get d "output" (VStr ""))
    (dict_get d "error" VNone)
    (dict_get d "changed" (VBool false)).

(** The body of the [try] in [execute_task]. *)
Definition execute_task_body (tc : task_config) (h : host) (rc : RunConfig)
    : M state TaskResult :=
  if _should_skip_task tc h rc then pure (skipped_result tc)
  else
    match task_types (type_of tc) with
    | None => raise (Exc ValueError ("Unknown task type: " +:+ type_of tc))
    | Some handler =>
        (_ <~ emit (Dispatched (type_of tc) h) ;;
         result <~ handler (task_args tc) h rc ;;
         match result with
         | None => raise (no_attribute "NoneType" "get")
         | Some d =>
             let task_result := result_of tc d in
             _ <~ emit (Audited h tc task_result) ;;
             _ <~ call (audit_log_task_execution h tc task_result None) ;;
             pure task_result
         end)%run
    end.

(** [execute_task].  The line that logs the start of the task reads the
    host with [.get] before the [try] is entered. *)
Definition execute_task (tc : task_config) (h : host) (rc : RunConfig)
    : M state TaskResult :=
  (_ <~ lift (host_get h "ansible_host" (VStr "unknown")) ;;
   try_except (execute_task_body tc h rc)
     (fun e => pure (failed_result tc e)))%run.

(** A condition that is present, truthy, and whose evaluation raises. *)
Definition raises (c : option val) (h : host) : Prop :=
  exists w e, c = Some w /\ truthy w = true /\ _evaluate_condition_body w h = Raise e.

(** *** A handler with a loop: [_execute_splunk_wait_ready] *)

(** [asyncio.sleep(interval)] *)
Variable sleep : val -> M R unit.

(** [range(retries)]; a [bool] counts as an [int]. *)
Definition attempts (retries : val) : res (list nat) :=
  match as_int retries with
  | Some n => Return (seq 0 (Z.to_nat n))
  | None =>
      Raise (Exc TypeError
               ("'" +:+ class_name retries
                +:+ "' object cannot be interpreted as an integer"))
  end.

(** The two mappings that the handler returns. *)
Definition ready : gmap string val :=
  {[ "status" := VStr "success"; "output" := VStr "Splunk is ready";
     "changed" := VBool false ]}.

Definition not_ready (timeout : val) : gmap string val :=
  {[ "status" := VStr "failed"; "output" := VStr "Splunk did not become ready";
     "error" := VStr ("Timeout after " +:+ fmt timeout +:+ " seconds");
     "changed" := VBool false ]}.

(** [for attempt in range(retries): ...]; [None] when the loop ends without
    a [return]. *)
Fixpoint probe_until_ready (h : host) (cmd interval : val) (retries : Z)
    (todo : list nat) : M state (option (gmap string val)) :=
  match todo with
  | [] => pure None
  | attempt :: rest =>
      (result <~ execute_command h cmd (VInt 300) ;;
       exit_code <~ lift (subscript result SSH.exit_code) ;;
       if Z.eqb exit_code 0 then pure (Some ready)
       else
         (_ <~ (if Z.ltb (Z.of_nat attempt) (retries - 1)
                then call (sleep interval) else pure tt) ;;
          probe_until_ready h cmd interval retries rest))%run
  end.

(** The probe of [_execute_splunk_wait_ready]. *)
Definition ready_probe (mgmt_port : val) : val :=
  VStr ("curl -s http://localhost:" +:+ fmt mgmt_port +:+ "/services/server/info").

(** [_execute_splunk_wait_ready] *)
Definition _execute_splunk_wait_ready (args : gmap string val) (h : host)
    (rc : RunConfig) : M state handler_result :=
  (host_home <~ lift (host_get h "splunk_home" (VStr "/opt/splunk")) ;;
   let splunk_home := dict_get args "splunk_home" host_home in
   host_port <~ lift (host_get h "splunk_mgmt_port" (VInt 8089)) ;;
   let mgmt_port := dict_get args "mgmt_port" host_port in
   let timeout := dict_get args "timeout" (VInt 300) in
   let retries := dict_get args "retries" (VInt 10) in
   let interval := dict_get args "interval" (VInt 30) in
   todo <~ lift (attempts retries) ;;
   found <~ probe_until_ready h (ready_probe mgmt_port) interval
              (default 0%Z (as_int retries)) todo ;;
   match found with
   | Some d => pure (Some d)
   | None => pure (Some (not_ready timeout))
   end)%run.

(** *** The commands of the [file] and [service] handlers *)

(** The command that [_execute_file] sends first for [state=present]. *)
Definition create_command (args : gmap string val) : val :=
  let path := dict_get args "path" VNone in
  if truthy (dict_get args "directory" (VBool false))
  then VStr ("mkdir -p " +:+ fmt path)
  else VStr ("echo '" +:+ fmt (dict_get args "content" (VStr "")) +:+ "' > " +:+ fmt path).

(** The command that sets an attribute of the file, when the task names
    the attribute. *)
Definition attribute_commands (args : gmap string val) (h : host)
    (key tool : string) : list event :=
  let v := dict_get args key VNone in
  if truthy v
  then [Command h (VStr (tool +:+ " " +:+ fmt v +:+ " "
                         +:+ fmt (dict_get args "path" VNone)))]
  else [].

(** The [systemctl] command of [_execute_service] for the state that the
    task names, and the one for its [enabled] flag. *)
Definition service_command (args : gmap string val) : res string :=
  let name := dict_get args "name" VNone in
  let state := dict_get args "state" (VStr "started") in
  if py_eqb state (VStr "started") then Return ("systemctl start " +:+ fmt name)
  else if py_eqb state (VStr "stopped") then Return ("systemctl stop " +:+ fmt name)
  else if py_eqb state (VStr "restarted")
  then Return ("systemctl restart " +:+ fmt name)
  else Raise (Exc ValueError ("Unsupported service state: " +:+ fmt state)).

Definition enable_command (args : gmap string val) : string :=
  if truthy (dict_get args "enabled" VNone)
  then "systemctl enable " +:+ fmt (dict_get args "name" VNone)
  else "systemctl disable " +:+ fmt (dict_get args "name" VNone).

(** [_execute_service] *)
Definition _execute_service (args : gmap string val) (h : host) (rc : RunConfig)
    : M state handler_result :=
  let enabled := dict_get args "enabled" VNone in
  (cmd <~ lift (service_command args) ;;
   result <~ execute_command h (VStr cmd) (VInt 300) ;;
   refused <~
     match enabled with
     | VNone => pure None
     | _ =>
         (enable_result <~ execute_command h (VStr (enable_command args)) (VInt 300) ;;
          enable_exit <~ lift (subscript enable_result SSH.exit_code) ;;
          if Z.eqb enable_exit 0 then pure None
          else
            (out <~ lift (subscript result SSH.stdout) ;;
             err <~ lift (subscript enable_result SSH.stderr) ;;
             pure (Some ({[ "status" := VStr "failed";
                            "output" := VStr out;
                            "error" :=
                              VStr ("Failed to "
                                    +:+ (if truthy enabled then "enable" else "disable")
                                    +:+ " service: " +:+ err);
                            "changed" := VBool true ]} : gmap string val))))
     end ;;
   match refused with
   | Some d => pure (Some d)
   | None => (d <~ lift (command_outcome result) ;; pure (Some d))
   end)%run.

(** *** Facts about the task runner *)

Lemma evaluate_condition_raise w h rc e :
  _evaluate_condition_body w h = Raise e -> _evaluate_condition w h rc = VBool false.
Proof. unfold _evaluate_condition. by intros ->. Qed.

Lemma raises_skips c h rc : raises c h -> condition_skips c h rc = true.
Proof.
  intros (w & e & -> & Htruthy & Hbody). simpl.
  by rewrite Htruthy, (evaluate_condition_raise w h rc e Hbody).
Qed.

Lemma should_skip_when_raises tc h rc :
  raises (task_when tc) h \/ raises (task_only_if tc) h ->
  _should_skip_task tc h rc = true.
Proof.
  unfold _should_skip_task. intros [Hw|Ho].
  - by rewrite (raises_skips _ _ rc Hw).
  - rewrite (raises_skips _ _ rc Ho). by destruct (condition_skips (task_when tc) h rc).
Qed.

(** A skipped task returns at once: nothing is dispatched, run or audited. *)
Lemma execute_task_skipped tc fields rc st :
  _should_skip_task tc (HostMapping fields) rc = true ->
  execute_task tc (HostMapping fields) rc st = (Return (skipped_result tc), st).
Proof.
  intros Hskip. unfold execute_task, and_then, try_except, lift, execute_task_body.
  simpl. by rewrite Hskip.
Qed.

Lemma command_outcome_changed result d :
  command_outcome result = Return d -> d !! "changed" = Some (VBool true).
Proof.
  destruct result as [r|r]; [|discriminate].
  unfold command_outcome. simpl.
  destruct (Z.eqb (SSH.exit_code r) 0); simpl; intros [= <-]; reflexivity.
Qed.

(** *** The claims on the task runner *)

(** C10: when the evaluation of the [when] or of the [only_if] condition of
    a task raises, [_evaluate_condition] answers [False], and [execute_task]
    returns an outcome with status [skipped], the state being what it was:
    no handler was dispatched, no command was run on the host, nothing was
    audited. *)
Theorem condition_exception_skips tc fields rc st :
  raises (task_when tc) (HostMapping fields) \/
  raises (task_only_if tc) (HostMapping fields) ->
  (forall w e, _evaluate_condition_body w (HostMapping fields) = Raise e ->
               _evaluate_condition w (HostMapping fields) rc = VBool false) /\
  exists t, execute_task tc (HostMapping fields) rc st = (Return t, st) /\
            status t = VStr "skipped".
Proof.
  intros Hraises. split.
  - intros w e. apply evaluate_condition_raise.
  - exists (skipped_result tc). split; [|done].
    apply execute_task_skipped. by apply should_skip_when_raises.
Qed.

(** C4, amended: when a task is not skipped and its handler returns a
    mapping, [execute_task] calls [log_task_execution] with the outcome
    built from that mapping, as its last step before it returns. *)
Theorem execute_task_audits_outcome tc fields rc st handler d st1 :
  _should_skip_task tc (HostMapping fields) rc = false ->
  task_types (type_of tc) = Some handler ->
  handler (task_args tc) (HostMapping fields) rc
    (mkState (remote st) (log st ++ [Dispatched (type_of tc) (HostMapping fields)]))
    = (Return (Some d), st1) ->
  exists t st2,
    execute_task tc (HostMapping fields) rc st = (Return t, st2) /\
    log st2 = log st1 ++ [Audited (HostMapping fields) tc (result_of tc d)].
Proof.
  intros Hskip Htype Hrun.
  unfold execute_task, execute_task_body. rewrite Hskip, Htype.
  unfold and_then, try_except, lift, emit, call, pure. simpl. rewrite Hrun. simpl.
  destruct (audit_log_task_execution _ _ _ _ (remote st1)) as [[id|e] w]; simpl; eauto.
Qed.

(** C8, amended: whenever [_execute_file] returns a mapping, for
    [state=present] as for [state=absent], the mapping reports
    [changed=True]; the handler never looks at the state of the host. *)
Theorem execute_file_reports_changed args h rc st d st' :
  _execute_file args h rc st = (Return (Some d), st') ->
  d !! "changed" = Some (VBool true).
Proof.
  unfold _execute_file, and_then, lift, pure.
  repeat case_match; intros; simplify_eq; by eapply command_outcome_changed.
Qed.

(** *** Further facts about the task runner *)

Lemma task_types_unknown task_type :
  task_type ∉ "command" :: "file" :: other_task_types ->
  task_types task_type = None.
Proof.
  intros Hnot. unfold task_types.
  destruct (String.eqb_spec task_type "command") as [->|_].
  { exfalso. apply Hnot. apply elem_of_cons. by left. }
  destruct (String.eqb_spec task_type "file") as [->|_].
  { exfalso. apply Hnot. apply elem_of_cons. right. apply elem_of_cons. by left. }
  rewrite bool_decide_eq_false_2; [done|].
  intros Hin. apply Hnot. by do 2 (apply elem_of_cons; right).
Qed.


(** X7: when the call to the audit logger raises, a task whose handler
    returned a mapping is reported as failed all the same, with the message
    of that exception as its error and [changed=False], whatever the handler
    reported. *)
Theorem audit_failure_fails_task tc fields rc st handler d st1 e w :
  _should_skip_task tc (HostMapping fields) rc = false ->
  task_types (type_of tc) = Some handler ->
  handler (task_args tc) (HostMapping fields) rc
    (mkState (remote st) (log st ++ [Dispatched (type_of tc) (HostMapping fields)]))
    = (Return (Some d), st1) ->
  audit_log_task_execution (HostMapping fields) tc (result_of tc d) None (remote st1)
    = (Raise e, w) ->
  execute_task tc (HostMapping fields) rc st =
    (Return (failed_result tc e),
     mkState w (log st1 ++ [Audited (HostMapping fields) tc (result_of tc d)])).
Proof.
  intros Hskip Htype Hrun Haudit.
  unfold execute_task, execute_task_body. rewrite Hskip, Htype.
  unfold and_then, try_except, lift, emit, call, pure. simpl. rewrite Hrun. simpl.
  by rewrite Haudit.
Qed.

(** X8: a task whose type is not one of the registered ones is reported as
    failed, with the error [Unknown task type: ...]; no handler is
    dispatched, no command is sent and nothing is audited. *)
Theorem unknown_task_type_fails tc fields rc st :
  _should_skip_task tc (HostMapping fields) rc = false ->
  type_of tc ∉ "command" :: "file" :: other_task_types ->
  execute_task tc (HostMapping fields) rc st =
    (Return (failed_result tc (Exc ValueError ("Unknown task type: " +:+ type_of tc))),
     st).
Proof.
  intros Hskip Hunknown.
  unfold execute_task, execute_task_body. rewrite Hskip, (task_types_unknown _ Hunknown).
  unfold and_then, try_except, lift, raise, pure. simpl. by destruct st.
Qed.

Lemma any_tag_in_true selected of_task tag :
  tag ∈ selected -> tag ∈ of_task -> any_tag_in selected of_task = true.
Proof.
  intros Hsel Htask. unfold any_tag_in. apply existsb_exists. exists tag.
  split; [by apply list_elem_of_In|]. by apply bool_decide_eq_true.
Qed.

Lemma any_tag_in_untagged selected : any_tag_in selected [] = false.
Proof.
  unfold any_tag_in. induction selected as [|tag rest IH]; [done|].
  cbn [existsb]. rewrite IH. rewrite bool_decide_eq_false_2; [done|].
  apply not_elem_of_nil.
Qed.

(** X9: the tag filters of a run.  When the run selects tags, a task
    without tags is skipped; a task that carries one of the tags to skip is
    skipped, also when it carries a selected tag; and a task without
    conditions is not skipped by a run that names no tags at all. *)
Theorem should_skip_task_tags tc h rc :
  (forall run_tags, tags rc = Some run_tags -> run_tags <> [] -> task_tags tc = [] ->
     _should_skip_task tc h rc = true) /\
  (forall run_skip_tags tag, skip_tags rc = Some run_skip_tags ->
     tag ∈ run_skip_tags -> tag ∈ task_tags tc ->
     _should_skip_task tc h rc = true) /\
  (task_when tc = None -> task_only_if tc = None ->
   tags rc = None -> skip_tags rc = None ->
     _should_skip_task tc h rc = false).
Proof.
  unfold _should_skip_task. split; [|split].
  - intros run_tags Htags Hne Huntagged. rewrite Htags, Huntagged. simpl.
    rewrite any_tag_in_untagged, bool_decide_eq_false_2 by done. simpl.
    by repeat case_match.
  - intros run_skip_tags tag Hskip Hin Htask. rewrite Hskip. simpl.
    rewrite (any_tag_in_true _ _ tag Hin Htask).
    rewrite (bool_decide_eq_false_2 (run_skip_tags = [])).
    + simpl. by repeat case_match.
    + intros ->. by apply elem_of_nil in Hin.
  - intros -> -> -> ->. done.
Qed.

Lemma probe_until_ready_log h cmd interval retries todo st r st' :
  probe_until_ready h cmd interval retries todo st = (r, st') ->
  exists k, (k <= length todo)%nat /\
    log st' = log st ++ replicate k (Command h cmd) /\
    match r with
    | Return (Some d) => d = ready /\ (1 <= k)%nat
    | Return None => k = length todo
    | Raise _ => True
    end.
Proof.
  revert st. induction todo as [|attempt rest IH]; intros st; simpl.
  - intros [= <- <-]. exists 0%nat. simpl. by rewrite app_nil_r.
  - unfold execute_command, and_then, emit, call, lift, pure. simpl.
    destruct (ssh_execute_command h cmd (VInt 300) (remote st)) as [[result|e] w]; simpl.
    + destruct (subscript result SSH.exit_code) as [exit_code|e]; simpl.
      * destruct (Z.eqb exit_code 0).
        -- intros [= <- <-]. exists 1%nat. simpl. split; [lia|]. split; done.
        -- assert (forall st1 : state,
                     log st1 = log st ++ [Command h cmd] ->
                     probe_until_ready h cmd interval retries rest st1 = (r, st') ->
                     exists k, (k <= S (length rest))%nat /\
                       log st' = log st ++ replicate k (Command h cmd) /\
                       match r with
                       | Return (Some d) => d = ready /\ (1 <= k)%nat
                       | Return None => k = S (length rest)
                       | Raise _ => True
                       end) as Hrest.
           { intros st1 Hlog Hrun. destruct (IH _ Hrun) as (k & Hk & Hlog' & Hr).
             exists (S k). split; [lia|]. split.
             - rewrite Hlog', Hlog. simpl. by rewrite <- app_assoc.
             - destruct r as [[d|]|e]; [|lia|done]. destruct Hr as [-> _]. split; [done|lia]. }
           destruct (Z.ltb (Z.of_nat attempt) (retries - 1)); simpl.
           ++ destruct (sleep interval w) as [[[]|e] w']; simpl.
              ** by apply Hrest.
              ** intros [= <- <-]. exists 1%nat. simpl. split; [lia|]. split; done.
           ++ by apply Hrest.
      * intros [= <- <-]. exists 1%nat. simpl. split; [lia|]. split; done.
    + intros [= <- <-]. exists 1%nat. simpl. split; [lia|]. split; done.
Qed.

(** X10: [_execute_splunk_wait_ready] sends its probe at most [retries]
    times, and nothing else.  It reports success as soon as a probe exits
    with code 0, after at least one probe; it reports failure only after all
    [retries] probes, none of them ([retries <= 0]) included, and names the
    [timeout] argument in the error, which bounds nothing. *)
Theorem wait_ready_probes args fields rc st r st' :
  _execute_splunk_wait_ready args (HostMapping fields) rc st = (r, st') ->
  let retries := default 0%Z (as_int (dict_get args "retries" (VInt 10))) in
  let probe :=
    ready_probe (dict_get args "mgmt_port" (dict_get fields "splunk_mgmt_port" (VInt 8089))) in
  exists k, (k <= Z.to_nat retries)%nat /\
    log st' = log st ++ replicate k (Command (HostMapping fields) probe) /\
    match r with
    | Return (Some d) =>
        (d = ready /\ (1 <= k)%nat) \/
        (d = not_ready (dict_get args "timeout" (VInt 300)) /\ k = Z.to_nat retries)
    | Return None => False
    | Raise _ => True
    end.
Proof.
  unfold _execute_splunk_wait_ready, and_then, lift, pure, attempts. simpl.
  destruct (as_int (dict_get args "retries" (VInt 10))) as [n|]; simpl.
  - destruct (probe_until_ready _ _ _ _ _ st) as [[found|e] st1] eqn:Hloop.
    + destruct (probe_until_ready_log _ _ _ _ _ _ _ _ Hloop) as (k & Hk & Hlog & Hr).
      rewrite length_seq in Hk, Hr.
      destruct found as [d|]; intros [= <- <-]; exists k;
        (split; [done|]); (split; [done|]); [by left|by right].
    + intros [= <- <-].
      destruct (probe_until_ready_log _ _ _ _ _ _ _ _ Hloop) as (k & Hk & Hlog & _).
      rewrite length_seq in Hk. by exists k.
  - intros [= <- <-]. exists 0%nat. simpl. by rewrite app_nil_r.
Qed.

Lemma set_attribute_log args h key tool st r st' :
  set_attribute args h key tool (dict_get args "path" VNone) st = (r, st') ->
  log st' = log st ++ attribute_commands args h key tool.
Proof.
  unfold set_attribute, attribute_commands.
  destruct (truthy (dict_get args key VNone)).
  - unfold and_then, execute_command, and_then, emit, call, pure. simpl.
    destruct (ssh_execute_command _ _ _ _) as [[result|e] w]; by intros [= _ <-].
  - intros [= _ <-]. by rewrite app_nil_r.
Qed.

(** X22: for [state=present], the mapping that [_execute_file] returns is
    built from the answer to its first command alone.  The commands that set
    the owner, the group and the mode are sent after it, in this order and
    also when the first command failed, and what they answer is not looked
    at: a refused [chown] leaves the task a success. *)
Theorem execute_file_ignores_attributes args h rc st d st' :
  py_eqb (dict_get args "state" (VStr "present")) (VStr "present") = true ->
  _execute_file args h rc st = (Return (Some d), st') ->
  exists result w,
    ssh_execute_command h (create_command args) (VInt 300) (remote st)
      = (Return result, w) /\
    command_outcome result = Return d /\
    log st' =
      log st ++ [Command h (create_command args)]
      ++ attribute_commands args h "owner" "chown"
      ++ attribute_commands args h "group" "chgrp"
      ++ attribute_commands args h "mode" "chmod".
Proof.
  intros Hpresent. unfold _execute_file. rewrite Hpresent.
  assert ((if truthy (dict_get args "directory" (VBool false))
           then VStr ("mkdir -p " +:+ fmt (dict_get args "path" VNone))
           else VStr ("echo '" +:+ fmt (dict_get args "content" (VStr "")) +:+ "' > "
                      +:+ fmt (dict_get args "path" VNone))) = create_command args)
    as Hcmd by done.
  replace (VStr (if truthy (dict_get args "directory" (VBool false))
                 then "mkdir -p " +:+ fmt (dict_get args "path" VNone)
                 else "echo '" +:+ fmt (dict_get args "content" (VStr "")) +:+ "' > "
                      +:+ fmt (dict_get args "path" VNone)))
    with (create_command args)
    by (unfold create_command; by destruct (truthy (dict_get args "directory" _))).
  unfold and_then at 1, execute_command at 1, and_then at 1, emit, call. simpl.
  destruct (ssh_execute_command h (create_command args) (VInt 300) (remote st))
    as [[result|e] w]; simpl; [|done].
  unfold and_then at 1.
  destruct (set_attribute args h "owner" "chown" _ _) as [[[]|e] st1] eqn:Howner; [|done].
  unfold and_then at 1.
  destruct (set_attribute args h "group" "chgrp" _ _) as [[[]|e] st2] eqn:Hgroup; [|done].
  unfold and_then at 1.
  destruct (set_attribute args h "mode" "chmod" _ _) as [[[]|e] st3] eqn:Hmode; [|done].
  unfold and_then, lift, pure.
  destruct (command_outcome result) as [d'|e] eqn:Hout; [|done].
  intros [= <- <-]. exists result, w. split; [done|]. split; [done|].
  rewrite (set_attribute_log _ _ _ _ _ _ _ Hmode), (set_attribute_log _ _ _ _ _ _ _ Hgroup),
    (set_attribute_log _ _ _ _ _ _ _ Howner). simpl. by rewrite <- !app_assoc.
Qed.

(** X23: a [service] task that names [enabled] succeeds only if both of its
    commands do: the [systemctl] command of the state and the one that
    enables or disables the service are both sent, and the status of the
    mapping returned is [success] exactly when both exit codes are 0. *)
Theorem service_needs_both_commands args h rc st cmd answer w enable_answer w' :
  dict_get args "enabled" VNone <> VNone ->
  service_command args = Return cmd ->
  ssh_execute_command h (VStr cmd) (VInt 300) (remote st)
    = (Return (ResultMapping answer), w) ->
  ssh_execute_command h (VStr (enable_command args)) (VInt 300) w
    = (Return (ResultMapping enable_answer), w') ->
  exists d,
    _execute_service args h rc st =
      (Return (Some d),
       mkState w' (log st ++ [Command h (VStr cmd);
                              Command h (VStr (enable_command args))])) /\
    (d !! "status" = Some (VStr "success") <->
     SSH.exit_code answer = 0%Z /\ SSH.exit_code enable_answer = 0%Z).
Proof.
  intros Henabled Hcmd Hfirst Hsecond. unfold _execute_service. rewrite Hcmd.
  unfold and_then at 1, lift at 1.
  unfold and_then at 1, execute_command at 1, and_then at 1, emit, call. simpl.
  rewrite Hfirst. simpl.
  assert (forall k : option (gmap string val) -> M state handler_result,
            and_then
              match dict_get args "enabled" VNone with
              | VNone => pure None
              | _ =>
                  (enable_result <~ execute_command h (VStr (enable_command args))
                                      (VInt 300) ;;
                   enable_exit <~ lift (subscript enable_result SSH.exit_code) ;;
                   if Z.eqb enable_exit 0 then pure None
                   else
                     (out <~ lift (subscript (ResultMapping answer) SSH.stdout) ;;
                      err <~ lift (subscript enable_result SSH.stderr) ;;
                      pure (Some ({[ "status" := VStr "failed";
                                     "output" := VStr out;
                                     "error" :=
                                       VStr ("Failed to "
                                             +:+ (if truthy (dict_get args "enabled" VNone)
                                                  then "enable" else "disable")
                                             +:+ " service: " +:+ err);
                                     "changed" := VBool true ]} : gmap string val))))%run
              end k
              (mkState w (log st ++ [Command h (VStr cmd)])) =
            k (if Z.eqb (SSH.exit_code enable_answer) 0 then None
               else Some {[ "status" := VStr "failed";
                            "output" := VStr (SSH.stdout answer);
                            "error" :=
                              VStr ("Failed to "
                                    +:+ (if truthy (dict_get args "enabled" VNone)
                                         then "enable" else "disable")
                                    +:+ " service: " +:+ SSH.stderr enable_answer);
                            "changed" := VBool true ]})
              (mkState w' ((log st ++ [Command h (VStr cmd)])
                           ++ [Command h (VStr (enable_command args))]))) as Hblock.
  { intros k. destruct (dict_get args "enabled" VNone); [done|..];
      unfold and_then, execute_command, and_then, emit, call, lift, pure; simpl;
      rewrite Hsecond; simpl; by destruct (Z.eqb (SSH.exit_code enable_answer) 0). }
  rewrite Hblock. rewrite <- app_assoc. simpl.
  unfold and_then, lift, pure, command_outcome. simpl.
  destruct (Z.eqb_spec (SSH.exit_code enable_answer) 0) as [Hok|Hfail];
    destruct (Z.eqb_spec (SSH.exit_code answer) 0) as [Hok'|Hfail'];
    eexists; (split; [reflexivity|]); split;
    try (intros Hs; vm_compute in Hs; discriminate Hs);
    try (intros [? ?]; done); done.
Qed.

End Engine.

(** *** The claims on the examples *)

Lemma condition_exception_skips_witness :
  exists t,
    execute_task ssh_executor audit_logger eval_table unmodelled_handler
      guarded web_01 site_run (mkState quiet_hosts []) =
      (Return t, mkState quiet_hosts []) /\
    status t = VStr "skipped".
Proof.
  apply (condition_exception_skips ssh_executor audit_logger eval_table
           unmodelled_handler guarded web_01_fields site_run).
  left. exists (VStr "undefined_variable").
  exists (Exc NameError "name 'undefined_variable' is not defined").
  repeat split; vm_compute; reflexivity.
Defined.

(** C4, as stated, fails: a task that the tag filter of the run skips
    returns its [skipped] outcome and [log_task_execution] is not called;
    the audit table stays empty. *)
Lemma skipped_task_is_not_audited :
  exists t st,
    execute_task ssh_executor audit_logger eval_table unmodelled_handler
      echo_ok web_01 deploy_run (mkState quiet_hosts []) = (Return t, st) /\
    status t = VStr "skipped" /\ log st = [] /\ audit_db (remote st) = [].
Proof. eexists _, _. split; [vm_compute; reflexivity|]. by repeat split. Qed.

Lemma execute_task_audits_outcome_witness :
  exists t st2,
    execute_task ssh_executor_mapping audit_logger eval_table unmodelled_handler
      echo_ok web_01 site_run (mkState quiet_hosts []) = (Return t, st2) /\
    log st2 =
      [Dispatched "command" web_01; Command web_01 (VStr "echo ok")] ++
      [Audited web_01 echo_ok (result_of echo_ok echo_ok_outcome)].
Proof.
  apply (execute_task_audits_outcome ssh_executor_mapping audit_logger eval_table
           unmodelled_handler echo_ok web_01_fields site_run
           (mkState quiet_hosts []) (_execute_command ssh_executor_mapping)
           echo_ok_outcome
           (mkState (web_01_did [VStr "echo ok"])
              [Dispatched "command" web_01; Command web_01 (VStr "echo ok")])).
  - vm_compute; reflexivity.
  - reflexivity.
  - vm_compute; reflexivity.
Defined.

(** C8, as stated, fails.  With an executor that answers in mappings, the
    task that creates [/etc/motd] reports [changed=True] again when it is
    re-run on the host that already carried it out; with the executor of
    the repository, whose answer the handler cannot subscript, the first
    run ends as a failed outcome with [changed=False]. *)
Lemma file_present_rerun_reports_changed :
  (exists d1 st1 d2 st2,
     _execute_file ssh_executor_mapping (task_args create_motd) web_01 site_run
       (mkState quiet_hosts []) = (Return (Some d1), st1) /\
     carried_out (remote st1) = [VStr "echo 'welcome' > /etc/motd"] /\
     _execute_file ssh_executor_mapping (task_args create_motd) web_01 site_run st1
       = (Return (Some d2), st2) /\
     d2 !! "changed" = Some (VBool true)) /\
  (exists t st,
     execute_task ssh_executor audit_logger eval_table unmodelled_handler
       create_motd web_01 site_run (mkState quiet_hosts []) = (Return t, st) /\
     status t = VStr "failed" /\ changed t = VBool false).
Proof.
  split.
  - exists echo_ok_outcome.
    exists (mkState (web_01_did [VStr "echo 'welcome' > /etc/motd"])
              [Command web_01 (VStr "echo 'welcome' > /etc/motd")]).
    exists echo_ok_outcome.
    exists (mkState
              (web_01_did
                 [VStr "echo 'welcome' > /etc/motd"; VStr "echo 'welcome' > /etc/motd"])
              [Command web_01 (VStr "echo 'welcome' > /etc/motd");
               Command web_01 (VStr "echo 'welcome' > /etc/motd")]).
    split; [vm_compute; reflexivity|]. split; [reflexivity|].
    split; vm_compute; reflexivity.
  - exists (failed_result create_motd
              (Exc TypeError "'SSHResult' object is not subscriptable")).
    exists (mkState (web_01_did [VStr "echo 'welcome' > /etc/motd"])
              [Dispatched "file" web_01;
               Command web_01 (VStr "echo 'welcome' > /etc/motd")]).
    split; [vm_compute; reflexivity|]. split; reflexivity.
Qed.

Lemma execute_file_reports_changed_witness :
  exists d st,
    _execute_file ssh_executor_mapping (task_args create_motd) web_01 site_run
      (mkState quiet_hosts []) = (Return (Some d), st) /\
    d !! "changed" = Some (VBool true).
Proof.
  exists echo_ok_outcome.
  exists (mkState (web_01_did [VStr "echo 'welcome' > /etc/motd"])
            [Command web_01 (VStr "echo 'welcome' > /etc/motd")]).
  assert (_execute_file ssh_executor_mapping (task_args create_motd) web_01 site_run
            (mkState quiet_hosts []) =
          (Return (Some echo_ok_outcome),
           mkState (web_01_did [VStr "echo 'welcome' > /etc/motd"])
             [Command web_01 (VStr "echo 'welcome' > /etc/motd")])) as Hrun
    by (vm_compute; reflexivity).
  split; [exact Hrun|].
  exact (execute_file_reports_changed ssh_executor_mapping _ _ _ _ _ _ Hrun).
Defined.

(** *** The further facts on the examples *)

(** A task of a type that no handler is registered for. *)
Definition reboot : task_config :=
  mkTask (Some "reboot") (Some "reboot") ∅ None None [] false.

(** Hosts on which every command exits with code 7, and a sleep that
    returns at once. *)
Definition never_ready : world :=
  mkWorld (fun _ => Return 0%nat) (fun _ _ _ => SSH.Exited 7 "" "")
    (SSH.mkExecutor [] ∅) [] [].

Definition no_sleep (seconds : val) : M world unit := pure tt.

Lemma audit_failure_fails_task_witness :
  execute_task ssh_executor_mapping audit_logger eval_table unmodelled_handler
    echo_ok web_01 site_run (mkState quiet_hosts []) =
  (Return (failed_result echo_ok
             (Exc TypeError
                "log_task_execution() missing 1 required positional argument: 'run_id'")),
   mkState (web_01_did [VStr "echo ok"])
     ([Dispatched "command" web_01; Command web_01 (VStr "echo ok")] ++
      [Audited web_01 echo_ok (result_of echo_ok echo_ok_outcome)])).
Proof.
  apply (audit_failure_fails_task ssh_executor_mapping audit_logger eval_table
           unmodelled_handler echo_ok web_01_fields site_run
           (mkState quiet_hosts []) (_execute_command ssh_executor_mapping)
           echo_ok_outcome
           (mkState (web_01_did [VStr "echo ok"])
              [Dispatched "command" web_01; Command web_01 (VStr "echo ok")])).
  - vm_compute; reflexivity.
  - reflexivity.
  - vm_compute; reflexivity.
  - vm_compute; reflexivity.
Defined.

Lemma unknown_task_type_fails_witness :
  execute_task ssh_executor audit_logger eval_table unmodelled_handler
    reboot web_01 site_run (mkState quiet_hosts []) =
  (Return (failed_result reboot (Exc ValueError "Unknown task type: reboot")),
   mkState quiet_hosts []).
Proof.
  apply (unknown_task_type_fails ssh_executor audit_logger eval_table
           unmodelled_handler reboot web_01_fields site_run (mkState quiet_hosts [])).
  - vm_compute; reflexivity.
  - apply (bool_decide_unpack _). vm_compute. reflexivity.
Defined.

Lemma wait_ready_probes_witness :
  exists r st',
    _execute_splunk_wait_ready ssh_executor_mapping no_sleep
      {[ "retries" := VInt 2 ]} web_01 site_run (mkState never_ready []) = (r, st') /\
    exists k, (k <= 2)%nat /\
      log st' =
        replicate k (Command web_01
                       (VStr "curl -s http://localhost:8089/services/server/info")) /\
      match r with
      | Return (Some d) =>
          (d = ready /\ (1 <= k)%nat) \/ (d = not_ready (VInt 300) /\ k = 2%nat)
      | Return None => False
      | Raise _ => True
      end.
Proof.
  destruct (_execute_splunk_wait_ready ssh_executor_mapping no_sleep
              {[ "retries" := VInt 2 ]} web_01 site_run (mkState never_ready []))
    as [r st'] eqn:Hrun.
  exists r, st'. split; [reflexivity|].
  exact (wait_ready_probes ssh_executor_mapping no_sleep
           {[ "retries" := VInt 2 ]} web_01_fields site_run
           (mkState never_ready []) r st' Hrun).
Defined.

(** A directory handed over to the user [splunk], and a service that is
    started and enabled. *)
Definition app_directory : gmap string val :=
  {[ "path" := VStr "/opt/app"; "directory" := VBool true;
     "owner" := VStr "splunk" ]}.

Definition enable_splunk : gmap string val :=
  {[ "name" := VStr "splunkd"; "enabled" := VBool true ]}.

Lemma execute_file_ignores_attributes_witness :
  exists d st',
    _execute_file ssh_executor_mapping app_directory web_01 site_run
      (mkState quiet_hosts []) = (Return (Some d), st') /\
    exists result w,
      ssh_executor_mapping web_01 (create_command app_directory) (VInt 300) quiet_hosts
        = (Return result, w) /\
      command_outcome result = Return d /\
      log st' =
        [Command web_01 (VStr "mkdir -p /opt/app");
         Command web_01 (VStr "chown splunk /opt/app")].
Proof.
  destruct (_execute_file ssh_executor_mapping app_directory web_01 site_run
              (mkState quiet_hosts [])) as [[[d|]|e] st'] eqn:Hrun;
    try (vm_compute in Hrun; discriminate Hrun).
  exists d, st'. split; [reflexivity|].
  apply (execute_file_ignores_attributes ssh_executor_mapping app_directory web_01
           site_run (mkState quiet_hosts []) d st'); [|exact Hrun].
  vm_compute. reflexivity.
Defined.

Lemma service_needs_both_commands_witness :
  exists d st',
    _execute_service ssh_executor_mapping enable_splunk web_01 site_run
      (mkState quiet_hosts []) = (Return (Some d), st') /\
    d !! "status" = Some (VStr "success").
Proof.
  pose (first := send web_01 (VStr "systemctl start splunkd") (VInt 300) quiet_hosts).
  pose (second := send web_01 (VStr "systemctl enable splunkd") (VInt 300) first.2).
  destruct (service_needs_both_commands ssh_executor_mapping enable_splunk web_01
              site_run (mkState quiet_hosts []) "systemctl start splunkd"
              (SSH.mkSSHResult 0 "" "") first.2 (SSH.mkSSHResult 0 "" "") second.2)
    as [d [Hrun Hstatus]].
  - vm_compute. discriminate.
  - vm_compute. reflexivity.
  - vm_compute. reflexivity.
  - vm_compute. reflexivity.
  - exists d. eexists. split; [exact Hrun|].
    apply Hstatus. vm_compute. split; reflexivity.
Defined.

End TaskRunner.

(** ** orchestrator.py *)
Module Orchestrator.

(** What [task_runner.execute_task] hands back.  The orchestrator reads it
    with [.get]; the [TaskResult] instance that [TaskRunner] returns has no
    such method. *)
Inductive task_outcome : Type :=
| OutcomeMapping (d : gmap string val)
| OutcomeInstance (t : TaskResult).

(** [task_result.get(key)] *)
Definition outcome_get (o : task_outcome) (key : string) : res val :=
  match o with
  | OutcomeMapping d => Return (dict_get d key VNone)
  | OutcomeInstance _ => Raise (no_attribute "TaskResult" "get")
  end.

(** The per-host mapping [host_results], by its keys [status], [tasks] and
    [error] (absent and [None] read alike); the clock readings are left
    out. *)
Record host_result : Type := mkHostResult {
  host_status : string;
  host_tasks : list task_outcome;
  host_error : val
}.

(** A [dict] from host identity to [host_results], in insertion order. *)
Abbreviation results_dict := (list (val * host_result)).

(** [d[k] = v] *)
Fixpoint dict_set (k : val) (v : host_result) (d : results_dict) : results_dict :=
  match d with
  | [] => [(k, v)]
  | (k', v') :: rest =>
      if py_eqb k' k then (k', v) :: rest else (k', v') :: dict_set k v rest
  end.

(** [d.update(other)] *)
Definition dict_update (d other : results_dict) : results_dict :=
  fold_left (fun d kv => dict_set kv.1 kv.2 d) other d.

(** [class RunResult]; the clock readings are left out. *)
Record RunResult : Type := mkRunResult {
  run_id : string;
  status : string;
  total_hosts : nat;
  successful_hosts : nat;
  failed_hosts : nat;
  skipped_hosts : nat;
  results : results_dict;
  errors : list val;
  warnings : list val
}.

(** The [execution] mapping of a playbook, and the playbook document by its
    three required keys. *)
Record execution : Type := mkExecution {
  strategy : option string;
  execution_batch_size : option Z;
  execution_batch_delay : option Z
}.

Record playbook_doc : Type := mkPlaybook {
  playbook_name : option string;
  playbook_tasks : option (list task_config);
  playbook_execution : option execution
}.

(** What the orchestrator did, in order.  [BatchStarted] is the log line
    of a batch; the other events mark calls and returns. *)
Inductive event : Type :=
| BatchStarted (number size : nat)
| HostStarted (host_id : val)
| TaskCalled (host_id : val) (tc : task_config)
| TaskReturned (host_id : val) (tc : task_config) (o : task_outcome)
| HostFinished (host_id : val)
| Slept (seconds : Z).


(** [len([r for r in results.values() if r.get('status') == s])] *)
Definition count_status (s : string) (results : results_dict) : nat :=
  length (filter (fun kv => host_status kv.2 = s) results).

(** [_calculate_run_status] *)
Definition _calculate_run_status (results : results_dict) : string :=
  let total := length results in
  if (total =? 0)%nat then "skipped"
  else
    let successful := count_status "success" results in
    let failed := count_status "failed" results in
    if (failed =? 0)%nat then "success"
    else if (successful =? 0)%nat then "failed"
    else "partial".

(** [range(0, stop, step)]: [ValueError] for a zero step, nothing for a
    negative one. *)
Fixpoint range_from (fuel i stop step : nat) : list nat :=
  match fuel with
  | O => []
  | S fuel' =>
      if (i <? stop)%nat then i :: range_from fuel' (i + step) stop step else []
  end.

Definition py_range (stop : nat) (step : Z) : res (list nat) :=
  if Z.eqb step 0 then Raise (Exc ValueError "range() arg 3 must not be zero")
  else if Z.ltb step 0 then Return []
  else Return (range_from stop 0 stop (Z.to_nat step)).

(** [hosts[:limit]] *)
Definition slice_to {A} (limit : Z) (l : list A) : list A :=
  if Z.leb 0 limit then take (Z.to_nat limit) l
  else take (length l - Z.to_nat (- limit)) l.

(** [host.get('ansible_host', host.get('name'))] *)
Definition host_identity (h : host) : res val :=
  (name_or_none <- host_get h "name" VNone ;;
   host_get h "ansible_host" name_or_none)%py.

(** [bool(host)]: an instance is truthy, a mapping unless it is empty. *)
Definition host_truthy (h : host) : bool :=
  match h with
  | HostMapping fields => negb (bool_decide (fields = ∅))
  | HostInstance _ => true
  end.

(** [config.batch_size or execution.get('batch_size', 10)] and
    [config.batch_delay or execution.get('batch_delay', 300)]: the value of
    the run configuration unless it is zero. *)
Definition effective_batch_size (rc : RunConfig) (e : execution) : Z :=
  if Z.eqb (batch_size rc) 0 then default 10%Z (execution_batch_size e)
  else batch_size rc.

Definition effective_batch_delay (rc : RunConfig) (e : execution) : Z :=
  if Z.eqb (batch_delay rc) 0 then default 300%Z (execution_batch_delay e)
  else batch_delay rc.

(** The [for] loop of [errors=[...]]: the truthy [error] entries. *)
Definition collect_errors (results : results_dict) : list val :=
  filter (fun v => truthy v = true) (map (fun kv => host_error kv.2) results).

(** *** The schedule of a rolling run, as the specification words it *)




(** The identity of a host given as a mapping. *)
Definition identity_of (fields : gmap string val) : val :=
  dict_get fields "ansible_host" (dict_get fields "name" VNone).




(** The outcome of a task reports the status [failed]. *)
Definition yields_failed (o : task_outcome) : Prop :=
  match o with
  | OutcomeMapping d => py_eqb (dict_get d "status" VNone) (VStr "failed") = true
  | OutcomeInstance t => Run.status t = VStr "failed"
  end.

(** *** The targets of a run, as a reader of the results sees them *)

(** The identities of a list of hosts, when each of them can be read. *)
Fixpoint identities (hosts : list host) : res (list val) :=
  match hosts with
  | [] => Return []
  | h :: rest =>
      (host_id <- host_identity h ;;
       ids <- identities rest ;;
       Return (host_id :: ids))%py
  end.

(** [hosts[:limit]] of [run_playbook], by the length it leaves: no limit
    and the limit 0 keep every host, a positive limit keeps that many of
    the first hosts, a negative one drops that many of the last. *)
Definition limited (limit : option Z) (n : nat) : nat :=
  match limit with
  | None => n
  | Some l =>
      if Z.eqb l 0 then n
      else if Z.ltb 0 l then Nat.min (Z.to_nat l) n
      else (n - Z.to_nat (- l))%nat
  end.

(** The events of a task that was called and has returned. *)
Definition task_events (host_id : val) (done : task_config * task_outcome)
    : list event :=
  [TaskCalled host_id done.1; TaskReturned host_id done.1 done.2].

(** *** Collaborators and inputs for the examples *)

Abbreviation runner_state := (@TaskRunner.state TaskRunner.world).

(** The task runner with the collaborators that [Orchestrator.__init__]
    gives it; its [TaskResult] reaches the orchestrator as an instance. *)
Definition task_runner (tc : task_config) (h : host) (rc : RunConfig)
    : M runner_state task_outcome :=
  fun w =>
    match TaskRunner.execute_task TaskRunner.ssh_executor TaskRunner.audit_logger
            TaskRunner.eval_table TaskRunner.unmodelled_handler tc h rc w with
    | (Return t, w') => (Return (OutcomeInstance t), w')
    | (Raise e, w') => (Raise e, w')
    end.

(** A [TaskResult] as the mapping of its fields. *)
Definition as_mapping (t : TaskResult) : gmap string val :=
  {[ "name" := VStr (Run.name t); "status" := Run.status t;
     "output" := Run.output t; "error" := Run.error t;
     "changed" := Run.changed t ]}.

(** A task runner over collaborators that answer as they are read: the
    executor in mappings, the audit logger without a [run_id], and the
    runner itself in mappings. *)
Definition task_runner_mapping (tc : task_config) (h : host) (rc : RunConfig)
    : M runner_state task_outcome :=
  fun w =>
    match TaskRunner.execute_task TaskRunner.ssh_executor_mapping
            TaskRunner.audit_logger_default
            TaskRunner.eval_table TaskRunner.unmodelled_handler tc h rc w with
    | (Return t, w') => (Return (OutcomeMapping (as_mapping t)), w')
    | (Raise e, w') => (Raise e, w')
    end.

(** An inventory of two hosts in the group [prod-web], handed out as
    mappings. *)
Definition fleet_get_host (host_name : string) : option host :=
  if String.eqb host_name "web-01" then Some TaskRunner.web_01
  else if String.eqb host_name "web-02" then Some TaskRunner.web_02
  else None.

Definition fleet_get_group_hosts (group_name : string) : res (list host) :=
  if String.eqb group_name "prod-web"
  then Return [TaskRunner.web_01; TaskRunner.web_02]
  else Return [].

(** The inventory of the repository as the collaborator: it hands out
    [Host] instances. *)
Definition inventory_get_host (inv : Inventory.t) (host_name : string) : option host :=
  HostInstance <$> Inventory.get_host inv host_name.

Definition inventory_get_group_hosts (inv : Inventory.t) (group_name : string)
    : res (list host) :=
  match Inventory.get_group_hosts 1000 inv group_name with
  | Return hs => Return (HostInstance <$> hs)
  | Raise e => Raise e
  end.

(** A task that fails although its playbook asks to ignore its errors. *)
Definition failing_ignored : task_config :=
  mkTask (Some "A") (Some "command") {[ "cmd" := VStr "false" ]}
    None None [] true.

Definition task_b : task_config :=
  mkTask (Some "B") (Some "command") {[ "cmd" := VStr "echo ok" ]}
    None None [] false.

Definition site : playbook_doc :=
  mkPlaybook (Some "site") (Some [TaskRunner.echo_ok])
    (Some (mkExecution (Some "rolling") None None)).

Definition a_then_b : playbook_doc :=
  mkPlaybook (Some "a then b") (Some [failing_ignored; task_b])
    (Some (mkExecution (Some "rolling") None None)).

Definition read_site (path : string) : res playbook_doc :=
  if String.eqb path "site.yml" then Return site
  else Raise (Exc OSError ("No such file or directory: " +:+ path)).

Definition keep_report (rr : RunResult) : M runner_state unit := pure tt.

(** Hosts on which the command [false] fails and every other succeeds. *)
Definition false_fails : TaskRunner.world :=
  TaskRunner.mkWorld (fun _ => Return 0%nat)
    (fun _ cmd _ => if py_eqb cmd (VStr "false")
                    then SSH.Exited 1 "" ""
                    else SSH.Exited 0 "" "")
    (SSH.mkExecutor [] ∅) [] [].

Section Coordinator.

(** The world the collaborators act on. *)
Context {R : Type}.

(** [self.task_runner.execute_task(task_config, host, config)] *)
Variable execute_task : task_config -> host -> RunConfig -> M R task_outcome.

(** [self.inventory.get_host] and [self.inventory.get_group_hosts] *)
Variable inventory_get_host : string -> option host.
Variable inventory_get_group_hosts : string -> res (list host).

(** [yaml.safe_load] of the playbook file, and the writing of the report. *)
Variable read_playbook : string -> res playbook_doc.
Variable write_report : RunResult -> M R unit.

(** [_generate_run_id] *)
Variable generated_run_id : string.

Record state : Type := mkState {
  world : R;
  trail : list event
}.

Definition emit (e : event) : M state unit :=
  fun st => (Return tt, mkState (world st) (trail st ++ [e])).

Definition call {A} (m : M R A) : M state A :=
  fun st => let '(r, w) := m (world st) in (r, mkState w (trail st)).

(** [_load_playbook] *)
Definition _load_playbook (playbook_path : string) : res playbook_doc :=
  (playbook <- read_playbook playbook_path ;;
   match playbook_name playbook, playbook_tasks playbook, playbook_execution playbook with
   | None, _, _ => Raise (Exc ValueError "Playbook missing required field: name")
   | _, None, _ => Raise (Exc ValueError "Playbook missing required field: tasks")
   | _, _, None => Raise (Exc ValueError "Playbook missing required field: execution")
   | _, _, _ => Return playbook
   end)%py.

Definition tasks_of (playbook : playbook_doc) : list task_config :=
  default [] (playbook_tasks playbook).

Definition execution_of (playbook : playbook_doc) : execution :=
  default (mkExecution None None None) (playbook_execution playbook).

(** The first loop of [_resolve_target_hosts]. *)
Fixpoint named_hosts (names : list string) : list host :=
  match names with
  | [] => []
  | host_name :: rest =>
      match inventory_get_host host_name with
      | Some h => if host_truthy h then h :: named_hosts rest else named_hosts rest
      | None => named_hosts rest
      end
  end.

(** The second loop of [_resolve_target_hosts]. *)
Fixpoint group_hosts (group_names : list string) : res (list host) :=
  match group_names with
  | [] => Return []
  | group_name :: rest =>
      (hs <- inventory_get_group_hosts group_name ;;
       hs' <- group_hosts rest ;;
       Return (hs ++ hs'))%py
  end.

(** The third loop of [_resolve_target_hosts]: the first host of every
    identity is kept. *)
Fixpoint unique_hosts (hosts : list host) (seen : list val) : res (list host) :=
  match hosts with
  | [] => Return []
  | h :: rest =>
      (host_id <- host_identity h ;;
       if existsb (py_eqb host_id) seen then unique_hosts rest seen
       else (kept <- unique_hosts rest (host_id :: seen) ;; Return (h :: kept)))%py
  end.

(** [_resolve_target_hosts] *)
Definition _resolve_target_hosts (rc : RunConfig) : res (list host) :=
  (from_groups <- group_hosts (target_groups rc) ;;
   unique_hosts (named_hosts (target_hosts rc) ++ from_groups) [])%py.

(** The state of the loop of [_execute_host_tasks]: the state of the run
    and the mapping [host_results] that the loop updates in place, so that
    what was appended before an exception is still there afterwards. *)
Definition in_host : Type := state * host_result.

Definition on_run {A} (m : M state A) : M in_host A :=
  fun s => let '(r, st) := m s.1 in (r, (st, s.2)).

Definition update_results (f : host_result -> host_result) : M in_host unit :=
  fun s => (Return tt, (s.1, f s.2)).

Definition append_task (o : task_outcome) (hr : host_result) : host_result :=
  mkHostResult (host_status hr) (host_tasks hr ++ [o]) (host_error hr).

Definition mark_failed (error : val) (hr : host_result) : host_result :=
  mkHostResult "failed" (host_tasks hr) error.

(** [for task_config in tasks: ...], with its [break]. *)
Fixpoint run_tasks (host_id : val) (h : host) (rc : RunConfig)
    (tasks : list task_config) : M in_host unit :=
  match tasks with
  | [] => pure tt
  | tc :: rest =>
      (_ <~ on_run (emit (TaskCalled host_id tc)) ;;
       task_result <~ on_run (call (execute_task tc h rc)) ;;
       _ <~ on_run (emit (TaskReturned host_id tc task_result)) ;;
       _ <~ update_results (append_task task_result) ;;
       task_status <~ lift (outcome_get task_result "status") ;;
       if py_eqb task_status (VStr "failed")
       then
         (error <~ lift (outcome_get task_result "error") ;;
          update_results (mark_failed error))
       else run_tasks host_id h rc rest)%run
  end.

(** [_execute_host_tasks] *)
Definition _execute_host_tasks (playbook : playbook_doc) (h : host) (rc : RunConfig)
    : M state host_result :=
  (host_id <~ lift (host_identity h) ;;
   fun st =>
     let '(_, (st', host_results)) :=
       try_except (run_tasks host_id h rc (tasks_of playbook))
         (fun e => update_results (mark_failed (VStr (msg e))))
         (st, mkHostResult "success" [] VNone) in
     (Return host_results, st'))%run.

(** [for host in batch: ...] of [_execute_rolling]. *)
Fixpoint run_batch (playbook : playbook_doc) (rc : RunConfig) (batch : list host)
    (batch_results : results_dict) : M state results_dict :=
  match batch with
  | [] => pure batch_results
  | h :: rest =>
      (host_id <~ lift (host_identity h) ;;
       _ <~ emit (HostStarted host_id) ;;
       host_result <~ try_except (_execute_host_tasks playbook h rc)
                        (fun e => pure (mkHostResult "failed" [] (VStr (msg e)))) ;;
       _ <~ emit (HostFinished host_id) ;;
       run_batch playbook rc rest (dict_set host_id host_result batch_results))%run
  end.

(** [for i in range(0, len(hosts), batch_size): ...] of [_execute_rolling]. *)
Fixpoint run_batches (playbook : playbook_doc) (hosts : list host) (rc : RunConfig)
    (batch_size : nat) (batch_delay : Z) (starts : list nat)
    (results : results_dict) : M state results_dict :=
  match starts with
  | [] => pure results
  | i :: rest =>
      let batch := take batch_size (drop i hosts) in
      (_ <~ emit (BatchStarted (i / batch_size + 1) (length batch)) ;;
       batch_results <~ run_batch playbook rc batch [] ;;
       let results := dict_update results batch_results in
       _ <~ (if (i + batch_size <? length hosts)%nat
             then emit (Slept batch_delay) else pure tt) ;;
       run_batches playbook hosts rc batch_size batch_delay rest results)%run
  end.

(** [_execute_rolling] *)
Definition _execute_rolling (playbook : playbook_doc) (hosts : list host)
    (rc : RunConfig) (batch_size batch_delay : Z) : M state results_dict :=
  (starts <~ lift (py_range (length hosts) batch_size) ;;
   run_batches playbook hosts rc (Z.to_nat batch_size) batch_delay starts [])%run.

(** [_execute_parallel].  The coroutines of all hosts are created first
    and start at the first [await]; they are modelled in the schedule in
    which none of them is suspended before it ends, that is, one after the
    other in the order of the hosts.  The second loop then reads the
    identity of each host and stores the outcome of its coroutine.  The
    loop acquires [asyncio.Semaphore(config.forks)] for one host at a
    time, so that with one fork or more it never waits; the semaphore is
    not modelled, and the definitions are the method for [forks >= 1]
    (with [forks = 0] the method waits for ever at the first host, and with
    a negative value the constructor of the semaphore raises
    [ValueError]). *)
Fixpoint run_coroutines (playbook : playbook_doc) (rc : RunConfig) (hosts : list host)
    : M state (list (res host_result)) :=
  match hosts with
  | [] => pure []
  | h :: rest =>
      fun st =>
        let '(r, st') := _execute_host_tasks playbook h rc st in
        match run_coroutines playbook rc rest st' with
        | (Return rs, st'') => (Return (r :: rs), st'')
        | (Raise e, st'') => (Raise e, st'')
        end
  end.

Fixpoint await_all (hosts : list host) (outcomes : list (res host_result))
    (results : results_dict) : res results_dict :=
  match hosts, outcomes with
  | h :: hosts', r :: outcomes' =>
      (host_id <- host_identity h ;;
       let host_result :=
         match r with
         | Return hr => hr
         | Raise e => mkHostResult "failed" [] (VStr (msg e))
         end in
       await_all hosts' outcomes' (dict_set host_id host_result results))%py
  | _, _ => Return results
  end.

Definition _execute_parallel (playbook : playbook_doc) (hosts : list host)
    (rc : RunConfig) : M state results_dict :=
  (outcomes <~ run_coroutines playbook rc hosts ;;
   lift (await_all hosts outcomes []))%run.

(** [_execute_playbook] *)
Definition _execute_playbook (playbook : playbook_doc) (hosts : list host)
    (rc : RunConfig) : M state results_dict :=
  let execution := execution_of playbook in
  let strategy := default "rolling" (strategy execution) in
  let batch_size := effective_batch_size rc execution in
  let batch_delay := effective_batch_delay rc execution in
  if String.eqb strategy "rolling"
  then _execute_rolling playbook hosts rc batch_size batch_delay
  else if String.eqb strategy "parallel"
  then _execute_parallel playbook hosts rc
  else raise (Exc ValueError ("Unknown execution strategy: " +:+ strategy)).

(** [if config.limit: target_hosts = target_hosts[:config.limit]] *)
Definition apply_limit (rc : RunConfig) (hosts : list host) : list host :=
  match limit rc with
  | Some l => if Z.eqb l 0 then hosts else slice_to l hosts
  | None => hosts
  end.

(** [run_playbook] *)
Definition run_playbook (rc : RunConfig) : M state RunResult :=
  (playbook <~ lift (_load_playbook (playbook rc)) ;;
   target_hosts <~ lift (_resolve_target_hosts rc) ;;
   let target_hosts := apply_limit rc target_hosts in
   results <~ _execute_playbook playbook target_hosts rc ;;
   let status := _calculate_run_status results in
   let run_result :=
     mkRunResult generated_run_id status (length target_hosts)
       (count_status "success" results) (count_status "failed" results)
       (count_status "skipped" results) results (collect_errors results) [] in
   _ <~ call (write_report run_result) ;;
   pure run_result)%run.

(** Every per-host status is [success] or [failed]. *)
Definition settled (hr : host_result) : Prop :=
  host_status hr = "success" \/ host_status hr = "failed".

Definition all_settled (results : results_dict) : Prop :=
  Forall (fun kv => settled kv.2) results.

(** *** Facts about the aggregate status *)

Lemma count_status_zero s results :
  count_status s results = 0%nat <->
  forall host_id hr, (host_id, hr) ∈ results -> host_status hr <> s.
Proof.
  unfold count_status. induction results as [|[k v] rest IH].
  - split; [|done]. intros _ host_id hr Hin. by apply elem_of_nil in Hin.
  - rewrite filter_cons. simpl. destruct (decide (host_status v = s)) as [Heq|Hne]; simpl.
    + split; [done|]. intros Hall. exfalso. apply (Hall k v); [|done].
      apply elem_of_cons. by left.
    + rewrite IH. split.
      * intros Hall host_id hr Hin. apply elem_of_cons in Hin as [[= -> ->]|Hin]; [done|].
        by apply (Hall host_id).
      * intros Hall host_id hr Hin. apply (Hall host_id). apply elem_of_cons. by right.
Qed.

Lemma count_status_settled results :
  all_settled results -> results <> [] ->
  count_status "success" results = 0%nat -> count_status "failed" results <> 0%nat.
Proof.
  intros Hall Hne Hs Hf. destruct results as [|[k v] rest]; [done|].
  apply Forall_cons in Hall as [[Hv|Hv] _]; simpl in Hv.
  - apply (proj1 (count_status_zero _ _) Hs k v); [|done]. apply elem_of_cons. by left.
  - apply (proj1 (count_status_zero _ _) Hf k v); [|done]. apply elem_of_cons. by left.
Qed.

(** The four cases of [_calculate_run_status], on results as the
    strategies build them. *)
Lemma calculate_run_status_cases results :
  all_settled results ->
  (results = [] -> _calculate_run_status results = "skipped") /\
  (results <> [] ->
     (count_status "failed" results = 0%nat ->
        _calculate_run_status results = "success") /\
     (count_status "success" results = 0%nat ->
        _calculate_run_status results = "failed") /\
     (count_status "success" results <> 0%nat ->
      count_status "failed" results <> 0%nat ->
        _calculate_run_status results = "partial")).
Proof.
  intros Hall. split; [by intros ->|]. intros Hne.
  unfold _calculate_run_status.
  assert ((length results =? 0)%nat = false) as ->.
  { apply Nat.eqb_neq. by destruct results. }
  split; [|split].
  - by intros ->.
  - intros Hs. pose proof (count_status_settled results Hall Hne Hs) as Hf.
    rewrite Hs. by apply Nat.eqb_neq in Hf as ->.
  - intros Hs Hf. by apply Nat.eqb_neq in Hs as ->, Hf as ->.
Qed.

Lemma dict_set_settled k v d :
  settled v -> all_settled d -> all_settled (dict_set k v d).
Proof.
  intros Hv. induction 1 as [|[k' v'] rest Hhead Hrest IH]; simpl.
  - apply Forall_cons. split; [done|by apply Forall_nil].
  - destruct (py_eqb k' k); apply Forall_cons; split; done.
Qed.

Lemma dict_update_settled d other :
  all_settled d -> all_settled other -> all_settled (dict_update d other).
Proof.
  intros Hd Hother. revert d Hd. unfold dict_update.
  induction Hother as [|[k v] rest Hhead _ IH]; intros d Hd; simpl; [done|].
  apply IH. by apply dict_set_settled.
Qed.

Lemma dict_set_nonempty k v d : dict_set k v d <> [].
Proof. destruct d as [|[k' v'] rest]; simpl; [done|]. by destruct (py_eqb k' k). Qed.

(** The loop of [_execute_host_tasks] keeps the status settled. *)
Lemma run_tasks_settled host_id h rc tasks st hr r st' hr' :
  run_tasks host_id h rc tasks (st, hr) = (r, (st', hr')) ->
  settled hr -> settled hr'.
Proof.
  revert st hr. induction tasks as [|tc rest IH]; intros st hr; simpl.
  - by intros [= _ _ <-].
  - unfold and_then, on_run, emit, call, update_results, lift. simpl.
    destruct (execute_task tc h rc (world st)) as [[o|e] w]; simpl.
    + destruct (outcome_get o "status") as [task_status|e]; simpl.
      * destruct (py_eqb task_status (VStr "failed")).
        -- destruct (outcome_get o "error"); simpl; intros [= _ _ <-]; [by right|done].
        -- intros Hrun Hs. by eapply IH.
      * by intros [= _ _ <-].
    + by intros [= _ _ <-].
Qed.

Lemma execute_host_tasks_settled playbook h rc st r st' :
  _execute_host_tasks playbook h rc st = (r, st') ->
  match r with
  | Return hr => settled hr
  | Raise _ => st' = st
  end.
Proof.
  unfold _execute_host_tasks, and_then, lift, try_except.
  destruct (host_identity h) as [host_id|e]; [|by intros [= <- <-]].
  destruct (run_tasks host_id h rc (tasks_of playbook) (st, mkHostResult "success" [] VNone))
    as [[[]|e] [st1 hr1]] eqn:Hrun.
  - intros [= <- <-]. eapply run_tasks_settled; [done|by left].
  - unfold update_results. simpl. intros [= <- <-]. by right.
Qed.

Lemma run_batch_settled playbook rc batch batch_results st results st' :
  run_batch playbook rc batch batch_results st = (Return results, st') ->
  all_settled batch_results -> all_settled results.
Proof.
  revert batch_results st. induction batch as [|h rest IH]; intros batch_results st; simpl.
  - by intros [= <- <-].
  - unfold and_then, lift, emit, try_except, pure.
    destruct (host_identity h) as [host_id|e]; [|done]. simpl.
    destruct (_execute_host_tasks playbook h rc _) as [[hr|e] st1] eqn:Hhost; simpl.
    + intros Hrun Hall. eapply IH; [done|]. apply dict_set_settled; [|done].
      by apply (execute_host_tasks_settled _ _ _ _ _ _ Hhost).
    + intros Hrun Hall. eapply IH; [done|]. apply dict_set_settled; [by right|done].
Qed.

Lemma run_batches_settled playbook hosts rc batch_size batch_delay starts results0 st results st' :
  run_batches playbook hosts rc batch_size batch_delay starts results0 st
    = (Return results, st') ->
  all_settled results0 -> all_settled results.
Proof.
  revert results0 st. induction starts as [|i rest IH]; intros results0 st; simpl.
  - by intros [= <- <-].
  - unfold and_then, emit. simpl.
    destruct (run_batch playbook rc _ [] _) as [[batch_results|e] st1] eqn:Hbatch; [|done].
    destruct (i + batch_size <? length hosts)%nat; simpl.
    + intros Hrun Hall. eapply IH; [done|]. apply dict_update_settled; [done|].
      eapply run_batch_settled; [done|constructor].
    + intros Hrun Hall. eapply IH; [done|]. apply dict_update_settled; [done|].
      eapply run_batch_settled; [done|constructor].
Qed.

Lemma run_coroutines_settled playbook rc hosts st outcomes st' :
  run_coroutines playbook rc hosts st = (Return outcomes, st') ->
  Forall (fun r => match r with Return hr => settled hr | Raise _ => True end) outcomes.
Proof.
  revert st outcomes st'. induction hosts as [|h rest IH]; intros st outcomes st'; simpl.
  - intros [= <- _]. constructor.
  - destruct (_execute_host_tasks playbook h rc st) as [r st1] eqn:Hhost.
    destruct (run_coroutines playbook rc rest st1) as [[rs|e] st2] eqn:Hrest; [|done].
    intros [= <- _]. constructor; [|by eapply IH].
    pose proof (execute_host_tasks_settled _ _ _ _ _ _ Hhost) as Hs. by destruct r.
Qed.

Lemma await_all_settled hosts outcomes results0 results :
  await_all hosts outcomes results0 = Return results ->
  Forall (fun r => match r with Return hr => settled hr | Raise _ => True end) outcomes ->
  all_settled results0 -> all_settled results.
Proof.
  revert outcomes results0. induction hosts as [|h rest IH]; intros outcomes results0; simpl.
  - by intros [= <-].
  - destruct outcomes as [|r outcomes]; [by intros [= <-]|].
    destruct (host_identity h) as [host_id|e]; [|done]. simpl.
    intros Hrun Hout Hall. apply Forall_cons in Hout as [Hr Hout].
    eapply IH; [done..|]. apply dict_set_settled; [|done]. destruct r; [done|by right].
Qed.

(** Whatever the strategy, the results of a playbook are settled. *)
Lemma execute_playbook_settled playbook hosts rc st results st' :
  _execute_playbook playbook hosts rc st = (Return results, st') ->
  all_settled results.
Proof.
  unfold _execute_playbook.
  destruct (String.eqb _ "rolling").
  - unfold _execute_rolling, and_then, lift.
    destruct (py_range _ _) as [starts|e]; [|done].
    intros Hrun. eapply run_batches_settled; [done|constructor].
  - destruct (String.eqb _ "parallel"); [|done].
    unfold _execute_parallel, and_then, lift.
    destruct (run_coroutines playbook rc hosts st) as [[outcomes|e] st1] eqn:Hco; [|done].
    destruct (await_all hosts outcomes []) as [results'|e] eqn:Hawait; [|done].
    intros [= <- <-]. eapply await_all_settled; [done| |constructor].
    by eapply run_coroutines_settled.
Qed.

(** Without a host, a playbook that completes has touched nothing. *)
Lemma execute_playbook_no_hosts playbook rc st results st' :
  _execute_playbook playbook [] rc st = (Return results, st') ->
  results = [] /\ st' = st.
Proof.
  unfold _execute_playbook.
  destruct (String.eqb _ "rolling").
  - unfold _execute_rolling, and_then, lift, py_range. simpl.
    destruct (Z.eqb _ 0); [done|]. destruct (Z.ltb _ 0); simpl; by intros [= <- <-].
  - destruct (String.eqb _ "parallel"); [|done]. by intros [= <- <-].
Qed.

(** *** Facts about the tasks of one host *)

(** In the events [evs] of a loop that ended with [r] and [hr'], an
    outcome that reports [failed] is the last event, the last outcome
    kept, and the host is marked as failed. *)
Definition ends_at_failure (evs : list event) (r : res unit) (hr' : host_result) : Prop :=
  forall pre host_id tc o post,
    evs = pre ++ TaskReturned host_id tc o :: post -> yields_failed o ->
    post = [] /\ (r = Return tt -> host_status hr' = "failed") /\
    last (host_tasks hr') = Some o.

Lemma ends_at_failure_call e r hr' : ends_at_failure [TaskCalled e.1 e.2] r hr'.
Proof.
  intros pre host_id tc o post Heq _.
  destruct pre as [|p1 [|p2 pre]]; simpl in Heq; simplify_eq.
Qed.

Lemma ends_at_failure_last host_id tc o r hr' :
  (yields_failed o -> r = Return tt -> host_status hr' = "failed") ->
  last (host_tasks hr') = Some o ->
  ends_at_failure [TaskCalled host_id tc; TaskReturned host_id tc o] r hr'.
Proof.
  intros Hstatus Hlast pre host_id' tc' o' post Heq Hfailed.
  destruct pre as [|p1 [|p2 [|p3 pre]]]; simpl in Heq; simplify_eq.
  split; [done|]. split; [|done]. by apply Hstatus.
Qed.

Lemma run_tasks_ends_at_failure host_id h rc tasks st hr r st' hr' :
  run_tasks host_id h rc tasks (st, hr) = (r, (st', hr')) ->
  exists evs, trail st' = trail st ++ evs /\ ends_at_failure evs r hr'.
Proof.
  revert st hr. induction tasks as [|tc rest IH]; intros st hr; simpl.
  - intros [= <- <- <-]. exists []. split; [by rewrite app_nil_r|].
    intros pre ? ? ? ? Heq. by destruct pre.
  - unfold and_then, on_run, emit, call, update_results, lift. simpl.
    destruct (execute_task tc h rc (world st)) as [[o|e] w]; simpl.
    + destruct (outcome_get o "status") as [task_status|e] eqn:Hstatus; simpl.
      * destruct (py_eqb task_status (VStr "failed")) eqn:Hfailed.
        -- destruct (outcome_get o "error") as [err|e]; simpl; intros [= <- <- <-]; simpl.
           ++ exists [TaskCalled host_id tc; TaskReturned host_id tc o].
              split; [by rewrite <- app_assoc|].
              apply ends_at_failure_last; [done|]. simpl. apply last_snoc.
           ++ exists [TaskCalled host_id tc; TaskReturned host_id tc o].
              split; [by rewrite <- app_assoc|].
              apply ends_at_failure_last; [done|]. simpl. apply last_snoc.
        -- intros Hrun. destruct (IH _ _ Hrun) as (evs & Htrail & Hends).
           exists ([TaskCalled host_id tc; TaskReturned host_id tc o] ++ evs).
           split; [simpl in Htrail; rewrite Htrail; by rewrite <- !app_assoc|].
           intros pre host_id' tc' o' post Heq Hyields.
           destruct pre as [|p1 [|p2 pre]]; simpl in Heq; simplify_eq.
           ++ destruct o' as [d|t]; [|done]. simpl in *. simplify_eq. congruence.
           ++ by eapply Hends.
      * intros [= <- <- <-]. simpl.
        exists [TaskCalled host_id tc; TaskReturned host_id tc o].
        split; [by rewrite <- app_assoc|].
        apply ends_at_failure_last; [done|]. simpl. apply last_snoc.
    + intros [= <- <- <-]. simpl. exists [TaskCalled host_id tc]. split; [done|].
      apply (ends_at_failure_call (host_id, tc)).
Qed.

Lemma run_playbook_inv rc st rr st' :
  run_playbook rc st = (Return rr, st') ->
  exists playbook hosts per_host st1 w,
    _execute_playbook playbook hosts rc st = (Return per_host, st1) /\
    write_report rr (world st1) = (Return tt, w) /\
    st' = mkState w (trail st1) /\
    status rr = _calculate_run_status per_host /\
    total_hosts rr = length hosts /\
    results rr = per_host.
Proof.
  unfold run_playbook, and_then, lift, call, pure.
  destruct (_load_playbook (playbook rc)) as [pb|e]; [|done].
  destruct (_resolve_target_hosts rc) as [hosts|e]; [|done].
  destruct (_execute_playbook pb (apply_limit rc hosts) rc st) as [[per_host|e] st1] eqn:Hexec; [|done].
  destruct (write_report _ (world st1)) as [[[]|e] w] eqn:Hreport; [|done].
  intros [= <- <-]. by exists pb, (apply_limit rc hosts), per_host, st1, w.
Qed.

(** *** Facts about the schedule *)















(** *** The claim on the rolling strategy *)


(** *** The claim on failing tasks *)

(** C3, the part that the code honours: when a task of a host yields the
    status [failed], whether or not it carries [ignore_errors], no task
    is executed after it and no outcome is kept after its own, and the host
    is marked as failed. *)
Theorem failed_task_ends_host playbook fields rc st hr st' pre host_id tc o post :
  _execute_host_tasks playbook (HostMapping fields) rc st = (Return hr, st') ->
  trail st' = trail st ++ pre ++ TaskReturned host_id tc o :: post ->
  yields_failed o ->
  post = [] /\ host_status hr = "failed" /\ last (host_tasks hr) = Some o.
Proof.
  unfold _execute_host_tasks, and_then, lift, try_except. simpl.
  destruct (run_tasks _ _ rc (tasks_of playbook) (st, mkHostResult "success" [] VNone))
    as [[[]|e] [st1 hr1]] eqn:Hrun;
    destruct (run_tasks_ends_at_failure _ _ _ _ _ _ _ _ _ Hrun) as (evs & Htrail & Hends).
  - intros [= <- <-] Heq Hfailed. rewrite Htrail in Heq. apply app_inv_head in Heq.
    destruct (Hends _ _ _ _ _ Heq Hfailed) as (Hpost & Hstatus & Hlast). auto.
  - unfold update_results. simpl. intros [= <- <-] Heq Hfailed.
    rewrite Htrail in Heq. apply app_inv_head in Heq.
    destruct (Hends _ _ _ _ _ Heq Hfailed) as (Hpost & _ & Hlast). auto.
Qed.

(** *** The claim on the aggregate status *)

(** C1: a completed run has status [skipped] when no host was attempted,
    which is the case when no host was resolved: then [total_hosts] is 0 and
    no task was executed, so none was logged.  When hosts were attempted,
    the status is [success] if no per-host result has status [failed],
    [failed] if none has status [success], and [partial] if some have the
    one and some the other. *)
Theorem run_playbook_status rc st rr st' :
  run_playbook rc st = (Return rr, st') ->
  (results rr = [] -> status rr = "skipped") /\
  (total_hosts rr = 0%nat ->
     status rr = "skipped" /\ results rr = [] /\ trail st' = trail st) /\
  (results rr <> [] ->
     ((forall host_id hr, (host_id, hr) ∈ results rr -> host_status hr <> "failed") ->
        status rr = "success") /\
     ((forall host_id hr, (host_id, hr) ∈ results rr -> host_status hr <> "success") ->
        status rr = "failed") /\
     ((exists host_id hr, (host_id, hr) ∈ results rr /\ host_status hr = "success") ->
      (exists host_id hr, (host_id, hr) ∈ results rr /\ host_status hr = "failed") ->
        status rr = "partial")).
Proof.
  intros Hrun.
  destruct (run_playbook_inv rc st rr st' Hrun)
    as (pb & hosts & res & st1 & w & Hexec & Hreport & -> & -> & -> & ->).
  pose proof (execute_playbook_settled _ _ _ _ _ _ Hexec) as Hsettled.
  destruct (calculate_run_status_cases res Hsettled) as [Hempty Hsome].
  split; [done|]. split.
  - intros Hzero. destruct hosts; [|done].
    destruct (execute_playbook_no_hosts _ _ _ _ _ Hexec) as [-> ->]. done.
  - intros Hne. destruct (Hsome Hne) as (Hsuccess & Hfailed & Hpartial).
    split; [|split].
    + intros Hnone. apply Hsuccess. by apply count_status_zero.
    + intros Hnone. apply Hfailed. by apply count_status_zero.
    + intros (id1 & hr1 & Hin1 & Hs1) (id2 & hr2 & Hin2 & Hs2). apply Hpartial.
      * intros Hzero. by apply (proj1 (count_status_zero _ _) Hzero id1 hr1).
      * intros Hzero. by apply (proj1 (count_status_zero _ _) Hzero id2 hr2).
Qed.

(** *** Further facts: the targets of a run *)

Lemma unique_hosts_spec hosts seen kept :
  unique_hosts hosts seen = Return kept ->
  exists ids, identities kept = Return ids /\ distinct ids /\
    Forall (fun id => existsb (py_eqb id) seen = false) ids /\
    sublist kept hosts /\
    (forall h id, h ∈ hosts -> host_identity h = Return id ->
       existsb (py_eqb id) seen = true \/
       exists id', id' ∈ ids /\ py_eqb id id' = true).
Proof.
  revert seen kept. induction hosts as [|h rest IH]; intros seen kept; simpl.
  - intros [= <-]. exists []. split; [done|]. split; [done|]. split; [done|].
    split; [constructor|]. intros h id Hin. by apply elem_of_nil in Hin.
  - destruct (host_identity h) as [host_id|e] eqn:Hid; simpl; [|done].
    destruct (existsb (py_eqb host_id) seen) eqn:Hseen.
    + intros Hrest. destruct (IH _ _ Hrest) as (ids & Hids & Hdist & Hnew & Hsub & Hcov).
      exists ids. split; [done|]. split; [done|]. split; [done|].
      split; [by apply sublist_cons|].
      intros h' id' Hin Hid'. apply elem_of_cons in Hin as [->|Hin].
      * left. congruence.
      * by eapply Hcov.
    + destruct (unique_hosts rest (host_id :: seen)) as [kept'|e] eqn:Hrest; simpl; [|done].
      intros [= <-]. destruct (IH _ _ Hrest) as (ids & Hids & Hdist & Hnew & Hsub & Hcov).
      exists (host_id :: ids). simpl. rewrite Hid. simpl. rewrite Hids. simpl.
      split; [done|]. split; [split; [|done]|]; [|split; [|split]].
      * eapply Forall_impl; [exact Hnew|]. simpl. intros id' Hid'.
        apply orb_false_elim in Hid' as [Hne _]. by rewrite py_eqb_sym.
      * constructor; [done|]. eapply Forall_impl; [exact Hnew|]. simpl.
        intros id' Hid'. by apply orb_false_elim in Hid' as [_ ?].
      * by apply sublist_skip.
      * intros h' id' Hin Hid'. apply elem_of_cons in Hin as [->|Hin].
        -- right. exists host_id. split; [apply elem_of_cons; by left|].
           assert (id' = host_id) as -> by congruence. apply py_eqb_refl.
        -- destruct (Hcov _ _ Hin Hid') as [Hs|(id'' & Hin'' & Heq)].
           ++ simpl in Hs. apply orb_true_iff in Hs as [Hs|Hs].
              ** right. exists host_id. split; [apply elem_of_cons; by left|done].
              ** by left.
           ++ right. exists id''. split; [apply elem_of_cons; by right|done].
Qed.

Lemma resolve_target_hosts_distinct rc hosts :
  _resolve_target_hosts rc = Return hosts ->
  exists ids, identities hosts = Return ids /\ distinct ids.
Proof.
  unfold _resolve_target_hosts.
  destruct (group_hosts (target_groups rc)) as [from_groups|e]; simpl; [|done].
  intros Hunique.
  destruct (unique_hosts_spec _ _ _ Hunique) as (ids & Hids & Hdist & _).
  by exists ids.
Qed.

(** X1: the hosts that [_resolve_target_hosts] returns are hosts named by
    the run or members of its groups, in that order; no two of them have
    the same identity; and every host named or member has its identity among
    them. *)
Theorem resolve_target_hosts_unique rc hosts :
  _resolve_target_hosts rc = Return hosts ->
  exists from_groups ids,
    group_hosts (target_groups rc) = Return from_groups /\
    sublist hosts (named_hosts (target_hosts rc) ++ from_groups) /\
    identities hosts = Return ids /\ distinct ids /\
    (forall h id, h ∈ named_hosts (target_hosts rc) ++ from_groups ->
       host_identity h = Return id ->
       exists id', id' ∈ ids /\ py_eqb id id' = true).
Proof.
  unfold _resolve_target_hosts.
  destruct (group_hosts (target_groups rc)) as [from_groups|e]; simpl; [|done].
  intros Hunique.
  destruct (unique_hosts_spec _ _ _ Hunique) as (ids & Hids & Hdist & _ & Hsub & Hcov).
  exists from_groups, ids. split; [done|]. split; [done|]. split; [done|].
  split; [done|]. intros h id Hin Hid.
  destruct (Hcov h id Hin Hid) as [Hseen|Hkept]; [done|exact Hkept].
Qed.

Lemma apply_limit_length rc hosts :
  length (apply_limit rc hosts) = limited (limit rc) (length hosts).
Proof.
  unfold apply_limit, limited, slice_to. destruct (limit rc) as [l|]; [|done].
  destruct (Z.eqb_spec l 0) as [|Hne]; [done|].
  destruct (Z.leb_spec 0 l), (Z.ltb_spec 0 l); try lia; rewrite length_take; lia.
Qed.

(** X2: the number of target hosts of a completed run is what the limit of
    the run leaves of the resolved hosts: all of them without a limit and
    with the limit 0, the first [l] with a limit [l > 0], and all but the
    last [-l] with a limit [l < 0]. *)
Theorem run_playbook_total_hosts rc st rr st' hosts :
  run_playbook rc st = (Return rr, st') ->
  _resolve_target_hosts rc = Return hosts ->
  total_hosts rr = limited (limit rc) (length hosts).
Proof.
  unfold run_playbook, and_then, lift, call, pure. intros Hrun Hhosts.
  destruct (_load_playbook (playbook rc)) as [pb|e]; [|done].
  rewrite Hhosts in Hrun.
  destruct (_execute_playbook pb (apply_limit rc hosts) rc st) as [[per_host|e] st1];
    [|done].
  destruct (write_report _ (world st1)) as [[[]|e] w]; [|done].
  injection Hrun as <- _. simpl. apply apply_limit_length.
Qed.

(** *** Further facts: one entry per target host *)

Lemma identities_length hosts ids :
  identities hosts = Return ids -> length ids = length hosts.
Proof.
  revert ids. induction hosts as [|h rest IH]; intros ids; simpl.
  - by intros [= <-].
  - destruct (host_identity h) as [host_id|e]; simpl; [|done].
    destruct (identities rest) as [ids'|e]; simpl; [|done].
    intros [= <-]. simpl. by rewrite (IH ids').
Qed.

Lemma identities_take n hosts ids :
  identities hosts = Return ids -> identities (take n hosts) = Return (take n ids).
Proof.
  revert n ids. induction hosts as [|h rest IH]; intros n ids; simpl.
  - intros [= <-]. by destruct n.
  - destruct (host_identity h) as [host_id|e] eqn:Hid; simpl; [|done].
    destruct (identities rest) as [ids'|e]; simpl; [|done].
    intros [= <-]. destruct n as [|n]; simpl; [done|].
    by rewrite Hid, (IH n ids').
Qed.

Lemma identities_drop n hosts ids :
  identities hosts = Return ids -> identities (drop n hosts) = Return (drop n ids).
Proof.
  revert n ids. induction hosts as [|h rest IH]; intros n ids; simpl.
  - intros [= <-]. by destruct n.
  - destruct (host_identity h) as [host_id|e] eqn:Hid; simpl; [|done].
    destruct (identities rest) as [ids'|e] eqn:Hrest; simpl; [|done].
    intros [= <-]. destruct n as [|n]; simpl; [by rewrite Hid, Hrest|].
    by apply IH.
Qed.

Lemma dict_set_absent k v (d : results_dict) :
  Forall (fun k' => py_eqb k' k = false) d.*1 -> dict_set k v d = d ++ [(k, v)].
Proof.
  induction d as [|[k' v'] rest IH]; simpl; [done|].
  intros Hall. apply Forall_cons in Hall as [-> Hrest]. by rewrite IH.
Qed.

Lemma dict_update_disjoint (d other : results_dict) :
  distinct other.*1 ->
  Forall (fun a => Forall (fun b => py_eqb a b = false) other.*1) d.*1 ->
  dict_update d other = d ++ other.
Proof.
  unfold dict_update. revert d. induction other as [|[k v] rest IH]; intros d; simpl.
  - intros _ _. by rewrite app_nil_r.
  - intros [Hk Hrest] Hcross. rewrite dict_set_absent.
    + rewrite IH; [by rewrite <- app_assoc|done|].
      rewrite fmap_app, Forall_app. split.
      * eapply Forall_impl; [exact Hcross|]. simpl. intros a Ha.
        by apply Forall_cons in Ha as [_ ?].
      * simpl. by constructor.
    + eapply Forall_impl; [exact Hcross|]. simpl. intros a Ha.
      by apply Forall_cons in Ha as [? _].
Qed.

Lemma run_batch_keys playbook rc batch ids batch_results st per_host st' :
  run_batch playbook rc batch batch_results st = (Return per_host, st') ->
  identities batch = Return ids -> distinct ids ->
  Forall (fun a => Forall (fun b => py_eqb a b = false) ids) batch_results.*1 ->
  per_host.*1 = batch_results.*1 ++ ids.
Proof.
  revert ids batch_results st. induction batch as [|h rest IH];
    intros ids batch_results st; simpl.
  - intros [= <- _] [= <-] _ _. by rewrite app_nil_r.
  - unfold and_then, lift, emit, try_except, pure.
    destruct (host_identity h) as [host_id|e]; simpl; [|done].
    destruct (identities rest) as [ids'|e] eqn:Hrest; simpl; [|done].
    intros Hrun [= <-] [Hhead Hdist] Hcross.
    assert (forall hr, dict_set host_id hr batch_results = batch_results ++ [(host_id, hr)])
      as Hset.
    { intros hr. apply dict_set_absent. eapply Forall_impl; [exact Hcross|]. simpl.
      intros a Ha. by apply Forall_cons in Ha as [? _]. }
    assert (Forall (fun a => Forall (fun b => py_eqb a b = false) ids')
              (batch_results.*1 ++ [host_id])) as Hcross'.
    { rewrite Forall_app. split.
      - eapply Forall_impl; [exact Hcross|]. simpl. intros a Ha.
        by apply Forall_cons in Ha as [_ ?].
      - by constructor. }
    destruct (_execute_host_tasks playbook h rc _) as [[hr|e] st1]; simpl in Hrun;
      rewrite Hset in Hrun;
      rewrite (IH ids' _ _ Hrun eq_refl Hdist); rewrite ?fmap_app; simpl;
      by rewrite <- ?app_assoc.
Qed.

Lemma run_batches_keys playbook hosts rc B D ids :
  (1 <= B)%nat -> identities hosts = Return ids -> distinct ids ->
  forall fuel i results0 st per_host st',
    (length hosts - i <= fuel)%nat ->
    run_batches playbook hosts rc B D (range_from fuel i (length hosts) B) results0 st
      = (Return per_host, st') ->
    results0.*1 = take i ids ->
    per_host.*1 = ids.
Proof.
  intros HB Hids Hdist. pose proof (identities_length _ _ Hids) as Hlen.
  induction fuel as [|fuel IH]; intros i results0 st per_host st' Hfuel; simpl.
  - intros [= <- _] ->. apply take_ge. lia.
  - destruct (i <? length hosts)%nat eqn:Hlt; simpl.
    + unfold and_then at 1, emit at 1. simpl. unfold and_then at 1.
      destruct (run_batch playbook rc (take B (drop i hosts)) [] _)
        as [[batch_results|e] st1] eqn:Hbatch; [|done].
      intros Hrun Hkeys.
      assert (distinct (take i ids ++ drop i ids)) as Hsplit by (by rewrite take_drop).
      apply distinct_app in Hsplit as (_ & Hdrop & Hcross).
      pose proof (run_batch_keys _ _ _ (take B (drop i ids)) [] _ _ _ Hbatch
                    (identities_take _ _ _ (identities_drop _ _ _ Hids))
                    (distinct_take _ _ Hdrop) ltac:(constructor)) as Hbatch_keys.
      simpl in Hbatch_keys.
      assert (dict_update results0 batch_results = results0 ++ batch_results) as Hupdate.
      { apply dict_update_disjoint.
        - rewrite Hbatch_keys. by apply distinct_take.
        - rewrite Hkeys, Hbatch_keys. eapply Forall_impl; [exact Hcross|]. simpl.
          intros a Ha. by apply Forall_take. }
      rewrite Hupdate in Hrun. unfold and_then in Hrun.
      destruct (i + B <? length hosts)%nat; simpl in Hrun.
      * eapply (IH (i + B)%nat); [|exact Hrun|]; [lia|].
        by rewrite fmap_app, Hkeys, Hbatch_keys, take_take_drop.
      * eapply (IH (i + B)%nat); [|exact Hrun|]; [lia|].
        by rewrite fmap_app, Hkeys, Hbatch_keys, take_take_drop.
    + intros [= <- _] ->. apply Nat.ltb_ge in Hlt. apply take_ge. lia.
Qed.

Lemma run_coroutines_length playbook rc hosts st outcomes st' :
  run_coroutines playbook rc hosts st = (Return outcomes, st') ->
  length outcomes = length hosts.
Proof.
  revert st outcomes st'. induction hosts as [|h rest IH]; intros st outcomes st'; simpl.
  - by intros [= <- _].
  - destruct (_execute_host_tasks playbook h rc st) as [r st1].
    destruct (run_coroutines playbook rc rest st1) as [[rs|e] st2] eqn:Hrest; [|done].
    intros [= <- _]. simpl. by rewrite (IH _ _ _ Hrest).
Qed.

Lemma await_all_keys hosts ids outcomes results0 per_host :
  await_all hosts outcomes results0 = Return per_host ->
  length outcomes = length hosts ->
  identities hosts = Return ids -> distinct ids ->
  Forall (fun a => Forall (fun b => py_eqb a b = false) ids) results0.*1 ->
  per_host.*1 = results0.*1 ++ ids.
Proof.
  revert ids outcomes results0. induction hosts as [|h rest IH];
    intros ids outcomes results0; simpl.
  - destruct outcomes; [|done]. intros [= <-] _ [= <-] _ _. by rewrite app_nil_r.
  - destruct outcomes as [|r outcomes]; [done|].
    destruct (host_identity h) as [host_id|e]; simpl; [|done].
    destruct (identities rest) as [ids'|e] eqn:Hrest; simpl; [|done].
    intros Hrun [= Hlen] [= <-] [Hhead Hdist] Hcross.
    rewrite dict_set_absent in Hrun.
    + rewrite (IH ids' _ _ Hrun Hlen eq_refl Hdist).
      * rewrite fmap_app. simpl. by rewrite <- app_assoc.
      * rewrite fmap_app, Forall_app. split.
        -- eapply Forall_impl; [exact Hcross|]. simpl. intros a Ha.
           by apply Forall_cons in Ha as [_ ?].
        -- simpl. by constructor.
    + eapply Forall_impl; [exact Hcross|]. simpl. intros a Ha.
      by apply Forall_cons in Ha as [? _].
Qed.

Lemma execute_playbook_keys playbook hosts rc st per_host st' ids :
  _execute_playbook playbook hosts rc st = (Return per_host, st') ->
  (default "rolling" (strategy (execution_of playbook)) = "rolling" ->
   (1 <= effective_batch_size rc (execution_of playbook))%Z) ->
  identities hosts = Return ids -> distinct ids ->
  per_host.*1 = ids.
Proof.
  unfold _execute_playbook. intros Hrun Hsize Hids Hdist.
  destruct (String.eqb_spec (default "rolling" (strategy (execution_of playbook)))
              "rolling") as [Hrolling|_].
  - specialize (Hsize Hrolling). revert Hrun.
    unfold _execute_rolling, and_then, lift, py_range.
    destruct (Z.eqb_spec (effective_batch_size rc (execution_of playbook)) 0) as [|_];
      [lia|].
    destruct (Z.ltb_spec (effective_batch_size rc (execution_of playbook)) 0) as [|_];
      [lia|].
    intros Hrun.
    eapply (run_batches_keys playbook hosts rc
              (Z.to_nat (effective_batch_size rc (execution_of playbook)))
              (effective_batch_delay rc (execution_of playbook)) ids);
      [lia|done|done| |exact Hrun|]; [lia|done].
  - destruct (String.eqb _ "parallel"); [|done]. revert Hrun.
    unfold _execute_parallel, and_then, lift.
    destruct (run_coroutines playbook rc hosts st) as [[outcomes|e] st1] eqn:Hco; [|done].
    destruct (await_all hosts outcomes []) as [per_host'|e] eqn:Hawait; [|done].
    intros [= <- _].
    apply (await_all_keys _ _ _ _ _ Hawait (run_coroutines_length _ _ _ _ _ _ Hco)
             Hids Hdist). constructor.
Qed.

Lemma count_status_all_settled (per_host : results_dict) :
  all_settled per_host ->
  (count_status "success" per_host + count_status "failed" per_host)%nat
    = length per_host /\
  count_status "skipped" per_host = 0%nat.
Proof.
  unfold count_status. induction 1 as [|[k v] rest Hv _ [IH1 IH2]]; [done|].
  rewrite !filter_cons. simpl. destruct Hv as [Hv|Hv]; simpl in Hv; rewrite Hv.
  - rewrite decide_True by done. rewrite !decide_False by done. simpl. lia.
  - rewrite decide_False by done. rewrite decide_True by done.
    rewrite decide_False by done. simpl. lia.
Qed.

(** X3: a run that completes, under the rolling strategy with a batch size
    of at least 1 or the parallel one with at least one fork, has one
    result per target host: the results are keyed by the identities of the
    target hosts, in their order; the counters of hosts that succeeded and
    that failed add up to [total_hosts], and no host is counted as skipped.
    (The semaphore of [_execute_parallel] is acquired for one host at a
    time, so that with one fork or more it never blocks.) *)
Theorem run_result_counters rc st rr st' playbook hosts :
  run_playbook rc st = (Return rr, st') ->
  _load_playbook (Run.playbook rc) = Return playbook ->
  _resolve_target_hosts rc = Return hosts ->
  (default "rolling" (strategy (execution_of playbook)) = "rolling" ->
   (1 <= effective_batch_size rc (execution_of playbook))%Z) ->
  (default "rolling" (strategy (execution_of playbook)) = "parallel" ->
   (1 <= forks rc)%Z) ->
  identities (apply_limit rc hosts) = Return (results rr).*1 /\
  length (results rr) = total_hosts rr /\
  (successful_hosts rr + failed_hosts rr)%nat = total_hosts rr /\
  skipped_hosts rr = 0%nat.
Proof.
  unfold run_playbook, and_then, lift, call, pure. intros Hrun Hload Hhosts Hsize _.
  rewrite Hload, Hhosts in Hrun.
  destruct (_execute_playbook playbook (apply_limit rc hosts) rc st)
    as [[per_host|e] st1] eqn:Hexec; [|done].
  destruct (write_report _ (world st1)) as [[[]|e] w]; [|done].
  injection Hrun as <- _. simpl.
  destruct (resolve_target_hosts_distinct _ _ Hhosts) as (ids & Hids & Hdist).
  assert (exists ids', identities (apply_limit rc hosts) = Return ids' /\ distinct ids')
    as (ids' & Hids' & Hdist').
  { unfold apply_limit, slice_to.
    destruct (limit rc) as [l|]; [|by eauto].
    destruct (Z.eqb l 0); [by eauto|].
    destruct (Z.leb 0 l); eexists; (split; [by apply identities_take|by apply distinct_take]). }
  pose proof (execute_playbook_keys _ _ _ _ _ _ _ Hexec Hsize Hids' Hdist') as Hkeys.
  pose proof (count_status_all_settled _ (execute_playbook_settled _ _ _ _ _ _ Hexec))
    as [Hsum Hskipped].
  assert (length per_host = length (apply_limit rc hosts)) as Hlen.
  { rewrite <- (identities_length _ _ Hids'), <- Hkeys. by rewrite length_fmap. }
  split; [by rewrite Hkeys|]. split; [done|]. split; [lia|done].
Qed.

(** X4: under the rolling strategy, a batch size of zero (which takes a
    zero in the run configuration and in the playbook) makes the run raise
    the [ValueError] of [range], also when there is no host; a negative one
    makes [range] empty: no host is contacted and the results are empty. *)
Theorem rolling_degenerate_batch_size playbook hosts rc st :
  default "rolling" (strategy (execution_of playbook)) = "rolling" ->
  (effective_batch_size rc (execution_of playbook) = 0%Z ->
     batch_size rc = 0%Z /\
     execution_batch_size (execution_of playbook) = Some 0%Z /\
     _execute_playbook playbook hosts rc st =
       (Raise (Exc ValueError "range() arg 3 must not be zero"), st)) /\
  ((effective_batch_size rc (execution_of playbook) < 0)%Z ->
     _execute_playbook playbook hosts rc st = (Return [], st)).
Proof.
  intros Hrolling. unfold _execute_playbook. rewrite Hrolling. simpl.
  unfold _execute_rolling, and_then, lift, py_range. split.
  - intros Hzero. rewrite Hzero. simpl. split; [|split; [|done]].
    + unfold effective_batch_size in Hzero.
      by destruct (Z.eqb_spec (batch_size rc) 0).
    + unfold effective_batch_size in Hzero.
      destruct (Z.eqb (batch_size rc) 0) eqn:Hrc.
      * destruct (execution_batch_size (execution_of playbook)) as [b|]; simpl in Hzero;
          [by subst|done].
      * apply Z.eqb_neq in Hrc. done.
  - intros Hneg.
    destruct (Z.eqb_spec (effective_batch_size rc (execution_of playbook)) 0) as [|_];
      [lia|].
    destruct (Z.ltb_spec (effective_batch_size rc (execution_of playbook)) 0) as [_|];
      [done|lia].
Qed.

(** *** Further facts: the tasks of a host that succeeds *)

Lemma run_tasks_success host_id h rc tasks st hr st' hr' :
  run_tasks host_id h rc tasks (st, hr) = (Return tt, (st', hr')) ->
  host_status hr' = "success" ->
  host_status hr = "success" /\ host_error hr' = host_error hr /\
  exists outcomes,
    length outcomes = length tasks /\
    host_tasks hr' = host_tasks hr ++ outcomes /\
    Forall (fun o => ~ yields_failed o) outcomes /\
    trail st' = trail st ++ flat_map (task_events host_id) (zip tasks outcomes).
Proof.
  revert st hr. induction tasks as [|tc rest IH]; intros st hr; simpl.
  - intros [= <- <-] Hs. split; [done|]. split; [done|].
    exists []. by rewrite !app_nil_r.
  - unfold and_then, on_run, emit, call, update_results, lift. simpl.
    destruct (execute_task tc h rc (world st)) as [[o|e] w]; simpl; [|done].
    destruct o as [d|t]; simpl; [|done].
    destruct (py_eqb (dict_get d "status" VNone) (VStr "failed")) eqn:Hfailed.
    + intros [= <- <-] Hs. simpl in Hs. discriminate Hs.
    + intros Hrun Hs.
      destruct (IH _ _ Hrun Hs) as (Hs0 & Herr & outcomes & Hlen & Htasks & Hall & Htrail).
      simpl in *. split; [done|]. split; [done|].
      exists (OutcomeMapping d :: outcomes). simpl. split; [by rewrite Hlen|].
      split; [by rewrite Htasks, <- app_assoc|]. split.
      * constructor; [|done]. simpl. by rewrite Hfailed.
      * rewrite Htrail. by rewrite <- !app_assoc.
Qed.

(** X5: when a host ends with the status [success], every task of the
    playbook was executed on it, in the order of the playbook, each after
    the one before it had returned; no outcome reported [failed], the
    outcomes are kept in that order, and no error is recorded. *)
Theorem host_success_runs_every_task playbook fields rc st hr st' :
  _execute_host_tasks playbook (HostMapping fields) rc st = (Return hr, st') ->
  host_status hr = "success" ->
  host_error hr = VNone /\
  length (host_tasks hr) = length (tasks_of playbook) /\
  Forall (fun o => ~ yields_failed o) (host_tasks hr) /\
  trail st' =
    trail st ++
    flat_map (task_events (identity_of fields)) (zip (tasks_of playbook) (host_tasks hr)).
Proof.
  unfold _execute_host_tasks, and_then, lift, try_except. simpl.
  destruct (run_tasks _ _ rc (tasks_of playbook) (st, mkHostResult "success" [] VNone))
    as [[[]|e] [st1 hr1]] eqn:Hrun.
  - intros [= <- <-] Hs.
    destruct (run_tasks_success _ _ _ _ _ _ _ _ Hrun Hs)
      as (_ & Herr & outcomes & Hlen & Htasks & Hall & Htrail).
    simpl in *. subst. done.
  - unfold update_results. simpl. by intros [= <- <-].
Qed.

End Coordinator.

(** The state in which the examples start: nothing was done yet. *)
Definition fresh (w : TaskRunner.world) : @state runner_state :=
  mkState (TaskRunner.mkState w []) [].

(** *** The claims on the examples *)

(** A run on [web-01] and [web-02], of which the second refuses the
    connection, ends as [partial]. *)
Lemma run_playbook_status_witness :
  exists rr st',
    run_playbook task_runner_mapping fleet_get_host fleet_get_group_hosts
      read_site keep_report "4f1c2a9e" TaskRunner.site_run
      (fresh TaskRunner.web_02_down) = (Return rr, st') /\
    total_hosts rr = 2%nat /\ status rr = "partial".
Proof.
  destruct (run_playbook task_runner_mapping fleet_get_host fleet_get_group_hosts
              read_site keep_report "4f1c2a9e" TaskRunner.site_run
              (fresh TaskRunner.web_02_down)) as [[rr|e] st'] eqn:Hrun;
    [|vm_compute in Hrun; discriminate].
  exists rr, st'. split; [done|].
  assert (match run_playbook task_runner_mapping fleet_get_host fleet_get_group_hosts
                  read_site keep_report "4f1c2a9e" TaskRunner.site_run
                  (fresh TaskRunner.web_02_down) with
          | (Return rr, _) =>
              total_hosts rr = 2%nat /\
              (fun kv => host_status kv.2) <$> results rr = ["success"; "failed"]
          | _ => False
          end) as Hvalue by (vm_compute; split; reflexivity).
  rewrite Hrun in Hvalue. destruct Hvalue as [Htotal Hstatuses].
  split; [done|].
  destruct (run_playbook_status _ _ _ _ _ _ _ _ _ _ Hrun) as (_ & _ & Hattempted).
  clear Hrun.
  destruct (results rr) as [|[id1 hr1] [|[id2 hr2] rest]];
    [discriminate Hstatuses..|].
  injection Hstatuses as Hs1 Hs2 _.
  apply Hattempted; [done| |].
  - exists id1, hr1. split; [apply list_elem_of_here|done].
  - exists id2, hr2. split; [apply list_elem_of_further, list_elem_of_here|done].
Defined.

(** The failing input of C3: the task [A] fails and carries
    [ignore_errors]; the task [B] after it is not executed all the same. *)
Lemma failed_task_ends_host_witness :
  exists hr st' o,
    _execute_host_tasks task_runner_mapping a_then_b TaskRunner.web_01
      TaskRunner.site_run (fresh false_fails) = (Return hr, st') /\
    ignore_errors failing_ignored = true /\
    trail st' = [TaskCalled (VStr "10.0.0.1") failing_ignored;
                 TaskReturned (VStr "10.0.0.1") failing_ignored o] /\
    host_status hr = "failed" /\ last (host_tasks hr) = Some o.
Proof.
  destruct (_execute_host_tasks task_runner_mapping a_then_b TaskRunner.web_01
              TaskRunner.site_run (fresh false_fails)) as [[hr|e] st'] eqn:Hrun;
    [|vm_compute in Hrun; discriminate].
  pose proof Hrun as Hvalue. vm_compute in Hvalue.
  injection Hvalue as Hhr Hst. subst hr st'.
  eexists _, _, _. split; [exact Hrun|]. split; [done|].
  split; [reflexivity|].
  eapply (failed_task_ends_host task_runner_mapping a_then_b TaskRunner.web_01_fields
            TaskRunner.site_run (fresh false_fails) _ _
            [TaskCalled (VStr "10.0.0.1") failing_ignored] (VStr "10.0.0.1")
            failing_ignored _ []).
  - exact Hrun.
  - reflexivity.
  - reflexivity.
Defined.

(** With the task runner of the repository the same host ends the same
    way: the outcome of [A] cannot even be read. *)
Lemma failing_ignored_task_stops_the_host :
  exists hr st' o,
    _execute_host_tasks task_runner a_then_b TaskRunner.web_01
      TaskRunner.site_run (fresh false_fails) = (Return hr, st') /\
    trail st' = [TaskCalled (VStr "10.0.0.1") failing_ignored;
                 TaskReturned (VStr "10.0.0.1") failing_ignored o] /\
    host_status hr = "failed" /\
    host_error hr = VStr "'TaskResult' object has no attribute 'get'".
Proof. eexists _, _, _. split; [vm_compute; reflexivity|]. by repeat split. Qed.


(** With the inventory of the repository as the collaborator, a run that
    resolves a host does not complete: the [Host] instance cannot be read
    with [.get]. *)
Lemma run_on_inventory_hosts_raises :
  exists st',
    run_playbook task_runner (inventory_get_host Inventory.fleet)
      (inventory_get_group_hosts Inventory.fleet) read_site keep_report
      "4f1c2a9e"
      (mkRunConfig "site.yml" [] ["prod"] None 10 1 30 None None)
      (fresh TaskRunner.quiet_hosts) =
    (Raise (Exc AttributeError "'Host' object has no attribute 'get'"), st').
Proof. eexists. vm_compute. reflexivity. Qed.

(** *** The further facts on the examples *)

(** A run that names [web-01] and also targets its group. *)
Definition web_01_and_group : RunConfig :=
  mkRunConfig "site.yml" ["web-01"] ["prod-web"] None 10 1 30 None None.

(** A run on the group, limited to its first host. *)
Definition first_host_only : RunConfig :=
  mkRunConfig "site.yml" [] ["prod-web"] (Some 1%Z) 10 1 30 None None.

(** A run on the group with a negative batch size. *)
Definition negative_batches : RunConfig :=
  mkRunConfig "site.yml" [] ["prod-web"] None 10 (-1) 30 None None.

Lemma resolve_target_hosts_unique_witness :
  exists from_groups ids,
    group_hosts fleet_get_group_hosts (target_groups web_01_and_group)
      = Return from_groups /\
    sublist [TaskRunner.web_01; TaskRunner.web_02]
      (named_hosts fleet_get_host (target_hosts web_01_and_group) ++ from_groups) /\
    identities [TaskRunner.web_01; TaskRunner.web_02] = Return ids /\ distinct ids /\
    (forall h id,
       h ∈ named_hosts fleet_get_host (target_hosts web_01_and_group) ++ from_groups ->
       host_identity h = Return id ->
       exists id', id' ∈ ids /\ py_eqb id id' = true).
Proof.
  apply (resolve_target_hosts_unique fleet_get_host fleet_get_group_hosts
           web_01_and_group [TaskRunner.web_01; TaskRunner.web_02]).
  vm_compute. reflexivity.
Defined.

Lemma run_playbook_total_hosts_witness :
  exists rr st',
    run_playbook task_runner_mapping fleet_get_host fleet_get_group_hosts
      read_site keep_report "4f1c2a9e" first_host_only
      (fresh TaskRunner.quiet_hosts) = (Return rr, st') /\
    total_hosts rr = 1%nat.
Proof.
  destruct (run_playbook task_runner_mapping fleet_get_host fleet_get_group_hosts
              read_site keep_report "4f1c2a9e" first_host_only
              (fresh TaskRunner.quiet_hosts)) as [[rr|e] st'] eqn:Hrun;
    [|vm_compute in Hrun; discriminate Hrun].
  exists rr, st'. split; [reflexivity|].
  apply (run_playbook_total_hosts task_runner_mapping fleet_get_host
           fleet_get_group_hosts read_site keep_report "4f1c2a9e" first_host_only
           (fresh TaskRunner.quiet_hosts) rr st'
           [TaskRunner.web_01; TaskRunner.web_02] Hrun).
  vm_compute. reflexivity.
Defined.

Lemma run_result_counters_witness :
  exists rr st',
    run_playbook task_runner_mapping fleet_get_host fleet_get_group_hosts
      read_site keep_report "4f1c2a9e" TaskRunner.site_run
      (fresh TaskRunner.web_02_down) = (Return rr, st') /\
    identities (apply_limit TaskRunner.site_run [TaskRunner.web_01; TaskRunner.web_02])
      = Return (results rr).*1 /\
    length (results rr) = total_hosts rr /\
    (successful_hosts rr + failed_hosts rr)%nat = total_hosts rr /\
    skipped_hosts rr = 0%nat.
Proof.
  destruct (run_playbook task_runner_mapping fleet_get_host fleet_get_group_hosts
              read_site keep_report "4f1c2a9e" TaskRunner.site_run
              (fresh TaskRunner.web_02_down)) as [[rr|e] st'] eqn:Hrun;
    [|vm_compute in Hrun; discriminate Hrun].
  exists rr, st'. split; [reflexivity|].
  apply (run_result_counters task_runner_mapping fleet_get_host
           fleet_get_group_hosts read_site keep_report "4f1c2a9e" TaskRunner.site_run
           (fresh TaskRunner.web_02_down) rr st' site
           [TaskRunner.web_01; TaskRunner.web_02] Hrun).
  - vm_compute. reflexivity.
  - vm_compute. reflexivity.
  - intros _. vm_compute. discriminate.
  - intros _. vm_compute. discriminate.
Defined.

Lemma rolling_degenerate_batch_size_witness :
  _execute_playbook task_runner_mapping site
    [TaskRunner.web_01; TaskRunner.web_02] negative_batches
    (fresh TaskRunner.quiet_hosts) = (Return [], fresh TaskRunner.quiet_hosts).
Proof.
  apply (proj2 (rolling_degenerate_batch_size task_runner_mapping site
                  [TaskRunner.web_01; TaskRunner.web_02] negative_batches
                  (fresh TaskRunner.quiet_hosts) eq_refl)).
  vm_compute. reflexivity.
Defined.

Lemma host_success_runs_every_task_witness :
  exists hr st',
    _execute_host_tasks task_runner_mapping site TaskRunner.web_01
      TaskRunner.site_run (fresh TaskRunner.quiet_hosts) = (Return hr, st') /\
    host_status hr = "success" /\
    host_error hr = VNone /\
    length (host_tasks hr) = 1%nat /\
    Forall (fun o => ~ yields_failed o) (host_tasks hr) /\
    trail st' =
      flat_map (task_events (VStr "10.0.0.1")) (zip [TaskRunner.echo_ok] (host_tasks hr)).
Proof.
  destruct (_execute_host_tasks task_runner_mapping site TaskRunner.web_01
              TaskRunner.site_run (fresh TaskRunner.quiet_hosts))
    as [[hr|e] st'] eqn:Hrun; [|vm_compute in Hrun; discriminate Hrun].
  assert (host_status hr = "success") as Hs.
  { pose proof Hrun as Hvalue. vm_compute in Hvalue.
    injection Hvalue as Hhr _. subst hr. reflexivity. }
  exists hr, st'. split; [reflexivity|]. split; [exact Hs|].
  exact (host_success_runs_every_task task_runner_mapping site
           TaskRunner.web_01_fields TaskRunner.site_run
           (fresh TaskRunner.quiet_hosts) hr st' Hrun Hs).
Defined.

End Orchestrator.

(** ** playbooks/executor.py: the execution path of the web application *)
Module PlaybookExecutor.

(** A task as [_execute_tasks_on_host] receives it.  The method is
    annotated with [List[Dict]] and reads the task with [.get];
    [execute_playbook] passes the [PlaybookTask] instances of the schema,
    which have no [.get]. *)
Inductive task : Type :=
| TaskMapping (fields : gmap string val)
| TaskModel (fields : gmap string val).

(** [task.get(key, default)] *)
Definition task_get (t : task) (key : string) (default : val) : res val :=
  match t with
  | TaskMapping fields => Return (dict_get fields key default)
  | TaskModel _ => Raise (no_attribute "PlaybookTask" "get")
  end.

(** What the executor did on a host, in order: the entries that
    [run.add_log] appended, and the answers of
    [SSHManager.execute_playbook_task]. *)
Inductive event : Type :=
| Logged (host_id level message : string)
| Answered (t : task) (success : bool) (message output : string).

(** The tasks that were answered, each with the success of its answer. *)
Definition answered (evs : list event) : list (task * bool) :=
  omap (fun e => match e with
                 | Answered t success _ _ => Some (t, success)
                 | Logged _ _ _ => None
                 end) evs.

(** [task.get('ignore_errors', False)] is truthy. *)
Definition ignores_errors (t : task) : bool :=
  match task_get t "ignore_errors" (VBool false) with
  | Return v => truthy v
  | Raise _ => false
  end.

(** The answer lets the loop go on: the task succeeded, or its errors are
    to be ignored. *)
Definition tolerated (a : task * bool) : Prop :=
  a.2 = true \/ ignores_errors a.1 = true.

Section Host.

(** The world that the SSH manager acts on. *)
Context {W : Type}.

(** [SSHManager.execute_playbook_task(host, task)], which answers with
    [(success, message, output)]. *)
Variable execute_playbook_task : task -> M W (bool * string * string).

(** [str(host.id)] and [host.hostname] *)
Variable host_id hostname : string.

Record state : Type := mkState {
  world : W;
  trail : list event
}.

Definition emit (e : event) : M state unit :=
  fun st => (Return tt, mkState (world st) (trail st ++ [e])).

Definition call {A} (m : M W A) : M state A :=
  fun st => let '(r, w) := m (world st) in (r, mkState w (trail st)).

(** [run.add_log(host_id, level, message)] *)
Definition add_log (level message : string) : M state unit :=
  emit (Logged host_id level message).

(** [if output: run.add_log(host_id, level, output)] *)
Definition log_output (level output : string) : M state unit :=
  if String.eqb output "" then pure tt else add_log level output.

(** [for task in tasks: ...], and the two lines after the loop. *)
Fixpoint run_tasks (tasks : list task) : M state (bool * string) :=
  match tasks with
  | [] =>
      (_ <~ add_log "success" ("All tasks completed successfully on " +:+ hostname) ;;
       pure (true, "Execution completed successfully"))%run
  | t :: rest =>
      (task_name <~ lift (task_get t "name" (VStr "unnamed")) ;;
       _ <~ add_log "info" ("Executing task: " +:+ fmt task_name) ;;
       answer <~ call (execute_playbook_task t) ;;
       let '(success, message, output) := answer in
       _ <~ emit (Answered t success message output) ;;
       if success
       then
         (_ <~ add_log "success"
                 ("Task '" +:+ fmt task_name +:+ "' completed: " +:+ message) ;;
          _ <~ log_output "output" output ;;
          run_tasks rest)
       else
         (_ <~ add_log "error"
                 ("Task '" +:+ fmt task_name +:+ "' failed: " +:+ message) ;;
          _ <~ log_output "error" output ;;
          ignore_errors <~ lift (task_get t "ignore_errors" (VBool false)) ;;
          if negb (truthy ignore_errors)
          then
            (_ <~ add_log "error" "Stopping execution due to task failure" ;;
             pure (false, "Task '" +:+ fmt task_name +:+ "' failed: " +:+ message))
          else run_tasks rest))%run
  end.

(** [_execute_tasks_on_host] *)
Definition _execute_tasks_on_host (tasks : list task) : M state (bool * string) :=
  try_except
    (_ <~ add_log "info" ("Starting execution on " +:+ hostname) ;;
     run_tasks tasks)%run
    (fun e =>
       (_ <~ add_log "error" ("Execution failed: " +:+ msg e) ;;
        pure (false, msg e))%run).

(** *** Facts about the tasks of one host *)

Lemma answered_app evs1 evs2 : answered (evs1 ++ evs2) = answered evs1 ++ answered evs2.
Proof. apply omap_app. Qed.

Lemma log_output_trail level output st :
  exists evs, log_output level output st = (Return tt, mkState (world st) (trail st ++ evs))
    /\ answered evs = [].
Proof.
  unfold log_output, add_log, emit, pure. destruct (String.eqb output "").
  - exists []. rewrite app_nil_r. by destruct st.
  - by eexists [_].
Qed.

(** What the loop leaves behind, by how it ended. *)
Definition loop_ended (tasks : list task) (A : list (task * bool))
    (r : res (bool * string)) : Prop :=
  A.*1 = take (length A) tasks /\
  (forall pre a post, A = pre ++ a :: post -> post <> [] -> tolerated a) /\
  match r with
  | Return (true, _) => length A = length tasks /\ Forall tolerated A
  | Return (false, _) => exists pre a, A = pre ++ [a] /\ ~ tolerated a
  | Raise _ => (length A < length tasks)%nat
  end.

Lemma loop_ended_step t success tasks A r :
  tolerated (t, success) -> loop_ended tasks A r ->
  loop_ended (t :: tasks) ((t, success) :: A) r.
Proof.
  intros Ht (Hprefix & Hmiddle & Hend). split; [|split].
  - simpl. f_equal. exact Hprefix.
  - intros pre a post Heq Hpost. destruct pre as [|p pre]; simpl in Heq.
    + by injection Heq as <- _.
    + injection Heq as _ Heq. by eapply Hmiddle.
  - destruct r as [[[] m]|e]; simpl.
    + destruct Hend as [-> Hall]. split; [done|by constructor].
    + destruct Hend as (pre & a & -> & Ha). by exists ((t, success) :: pre), a.
    + lia.
Qed.

Lemma run_tasks_spec tasks st r st' :
  run_tasks tasks st = (r, st') ->
  exists evs, trail st' = trail st ++ evs /\ loop_ended tasks (answered evs) r.
Proof.
  revert st. induction tasks as [|t rest IH]; intros st; simpl.
  - unfold and_then, add_log, emit, pure. simpl. intros [= <- <-]. simpl.
    eexists [_]. split; [done|]. split; [done|]. split; [|by split].
    intros pre a post Heq. by destruct pre.
  - destruct t as [fields|fields]; unfold and_then at 1, lift; simpl.
    + unfold and_then at 1, add_log at 1, emit at 1. simpl.
      unfold and_then at 1, call. simpl.
      destruct (execute_playbook_task (TaskMapping fields) (world st))
        as [[[[success message] output]|e] w]; simpl.
      * unfold and_then at 1, emit at 1. simpl. destruct success.
        -- unfold and_then at 1, add_log at 1, emit at 1. simpl. unfold and_then at 1.
           destruct (log_output_trail "output" output
                       (mkState w (((trail st ++ [Logged host_id "info"
                          ("Executing task: " +:+
                           fmt (dict_get fields "name" (VStr "unnamed")))]) ++
                          [Answered (TaskMapping fields) true message output]) ++
                          [Logged host_id "success"
                             ("Task '" +:+ fmt (dict_get fields "name" (VStr "unnamed"))
                              +:+ "' completed: " +:+ message)])))
             as (evs0 & -> & Hnone).
           intros Hrun. destruct (IH _ Hrun) as (evs & Htrail & Hended).
           simpl in Htrail. eexists. split.
           { rewrite Htrail. rewrite <- !app_assoc. reflexivity. }
           simpl. rewrite !answered_app, Hnone. simpl.
           apply loop_ended_step; [by left|done].
        -- unfold and_then at 1, add_log at 1, emit at 1. simpl. unfold and_then at 1.
           destruct (log_output_trail "error" output
                       (mkState w (((trail st ++ [Logged host_id "info"
                          ("Executing task: " +:+
                           fmt (dict_get fields "name" (VStr "unnamed")))]) ++
                          [Answered (TaskMapping fields) false message output]) ++
                          [Logged host_id "error"
                             ("Task '" +:+ fmt (dict_get fields "name" (VStr "unnamed"))
                              +:+ "' failed: " +:+ message)])))
             as (evs0 & -> & Hnone).
           unfold and_then at 1, lift. simpl.
           destruct (truthy (dict_get fields "ignore_errors" (VBool false))) eqn:Hignore;
             simpl.
           ++ intros Hrun. destruct (IH _ Hrun) as (evs & Htrail & Hended).
              simpl in Htrail. eexists. split.
              { rewrite Htrail. rewrite <- !app_assoc. reflexivity. }
              simpl. rewrite !answered_app, Hnone. simpl.
              apply loop_ended_step; [|done]. right. unfold ignores_errors. simpl.
              exact Hignore.
           ++ unfold and_then, add_log, emit, pure. simpl. intros [= <- <-]. simpl.
              eexists. split.
              { rewrite <- !app_assoc. reflexivity. }
              simpl. rewrite !answered_app, Hnone. simpl. split; [done|]. split.
              ** intros pre a post Heq Hpost.
                 destruct pre as [|? [|? ?]]; simpl in Heq; simplify_eq.

              ** exists [], (TaskMapping fields, false). split; [done|].
                 intros [Hs|Hi]; [done|]. unfold ignores_errors in Hi. simpl in Hi.
                 congruence.
      * intros [= <- <-]. simpl. eexists [_]. split; [done|]. simpl.
        split; [done|]. split; [|simpl; lia]. intros pre a post Heq. by destruct pre.
    + intros [= <- <-]. exists []. rewrite app_nil_r. split; [done|]. simpl.
      split; [done|]. split; [|simpl; lia]. intros pre a post Heq. by destruct pre.
Qed.

(** X21: [_execute_tasks_on_host] always returns.  The tasks that were
    answered are the first tasks of the list, in order; an answer that is
    followed by another one was a success, or belongs to a task with
    [ignore_errors]: a failure that is to be ignored does not stop the host,
    and any other failure is the last task that the host executes.  The
    host is reported as successful exactly when every task was answered, each
    with a success or with a failure that is to be ignored. *)
Theorem ignore_errors_is_honoured tasks st :
  exists ok message st' evs,
    _execute_tasks_on_host tasks st = (Return (ok, message), st') /\
    trail st' = trail st ++ evs /\
    (answered evs).*1 = take (length (answered evs)) tasks /\
    (forall pre a post,
       answered evs = pre ++ a :: post -> post <> [] -> tolerated a) /\
    (ok = true <->
     length (answered evs) = length tasks /\ Forall tolerated (answered evs)).
Proof.
  unfold _execute_tasks_on_host, try_except, and_then at 1, add_log at 1, emit at 1.
  simpl.
  destruct (run_tasks tasks _) as [[[ok message]|e] st1] eqn:Hrun;
    destruct (run_tasks_spec _ _ _ _ Hrun) as (evs & Htrail & Hprefix & Hmiddle & Hend);
    simpl in Htrail.
  - exists ok, message, st1. eexists. split; [done|]. split.
    { rewrite Htrail, <- app_assoc. reflexivity. }
    simpl. split; [done|]. split; [done|]. destruct ok.
    + by split.
    + split; [done|]. intros [_ Hall]. destruct Hend as (pre & a & Heq & Ha).
      rewrite Heq in Hall. apply Forall_app in Hall as [_ Hall].
      by apply Forall_cons in Hall as [? _].
  - unfold and_then, add_log, emit, pure. simpl.
    exists false, (msg e). eexists _, _. split; [done|]. simpl. split.
    { rewrite Htrail, <- !app_assoc. reflexivity. }
    simpl. rewrite answered_app. simpl. rewrite app_nil_r.
    split; [done|]. split; [done|]. split; [done|]. intros [Hlen _]. lia.
Qed.

End Host.

End PlaybookExecutor.
